(** * MediAI imaging core: heuristic radiograph, CT and MRI analyzers

    A shallow embedding of
      - [backend/models/cnn_model.py]  (class [CNNModel], the planar analyzer),
      - [backend/models/ct_model.py]   (class [CTModel]),
      - [backend/models/mri_model.py]  (class [MRIModel]),
      - [backend/models/pretrained_cnn.py]  (the class map of
        [PretrainedXrayModel.infer]),
      - the quick modality guess, the type check of the upload route and
        [pair_medications] of [backend/app.py],
    together with the NumPy / Pillow primitives they call.

    Conventions.
      - A [uint8] array is a grid of [N]; a Python or NumPy float is an exact
        rational ([Q]): rounding to float32/float64 is not modelled.
      - The mean of an empty slice is NaN in NumPy.  Where the planar
        analyzer can meet one (edge score and band ratios of arrays with
        fewer than five rows or two columns) the float is an [option Q] and
        [None] is NaN; the volumetric analyzers raise before they use one.
      - [float(...)] keeps a rational in lowest terms ([Qred]).
      - A [try: ... except Exception] block is a computation in the error
        monad [exc]; the handler is the [inl] branch of a match.
      - The straight-line body of [analyze_image] runs in a writer monad that
        records every assignment to [dental_like], [vec] and [modality]. *)

From Stdlib Require Import String Ascii.
From Stdlib Require Import QArith Qminmax Qabs Qround Qreduction.
From Stdlib Require Import ZArith NArith List Bool Lia Lqa.
Import ListNotations.

Local Open Scope string_scope.
Local Open Scope list_scope.
Local Open Scope Q_scope.

(** ** Python and NumPy scalars *)

Module Py.

(** [x > y] and [x < y] on floats. *)
Definition gt (x y : Q) : bool := negb (Qle_bool x y).
Definition lt (x y : Q) : bool := negb (Qle_bool y x).

(** [float(x)]. *)
Definition float (x : Q) : Q := Qred x.

(** Floats that may be NaN ([None]): every comparison with NaN is false,
    and the builtins [max(0, x)] and [min(c, x)] keep their first argument
    when [x] is NaN. *)
Definition gt_nan (x : option Q) (y : Q) : bool :=
  match x with Some v => gt v y | None => false end.
Definition lt_nan (x : option Q) (y : Q) : bool :=
  match x with Some v => lt v y | None => false end.
Definition max0_nan (x : option Q) : Q :=
  match x with Some v => Qmax 0 v | None => 0 end.
Definition min_nan (c : Q) (x : option Q) : Q :=
  match x with Some v => Qmin c v | None => c end.

(** [np.clip(x, lo, hi)] is [minimum(maximum(x, lo), hi)]. *)
Definition clip (x lo hi : Q) : Q := Qmin (Qmax x lo) hi.

(** Rounding to the nearest integer, ties to even. *)
Definition round_half_even (x : Q) : Z :=
  let f := Qfloor x in
  let r := x - inject_Z f in
  if lt r (1 # 2) then f
  else if gt r (1 # 2) then (f + 1)%Z
  else if Z.even f then f else (f + 1)%Z.

(** [round(x, ndigits)]. *)
Definition round (x : Q) (ndigits : nat) : Q :=
  let scale := (10 ^ Z.of_nat ndigits)%Z in
  Qred (inject_Z (round_half_even (x * inject_Z scale)) / inject_Z scale).

(** [int(x)] on a non-negative float. *)
Definition int (x : Q) : nat := Z.to_nat (Qfloor x).

(** Truth value of a float and of a string. *)
Definition truthy (x : Q) : bool := negb (Qeq_bool x 0).
Definition nonempty (s : string) : bool :=
  match s with EmptyString => false | _ => true end.

(** [a or b] on strings. *)
Definition str_or (a b : string) : string := if nonempty a then a else b.

(** [s.startswith(p)]. *)
Definition startswith (s p : string) : bool := String.prefix p s.

(** [p in s] on strings. *)
Fixpoint contains (p s : string) : bool :=
  String.prefix p s ||
  match s with
  | EmptyString => false
  | String _ s' => contains p s'
  end.

(** [s.endswith(p)]. *)
Fixpoint endswith (s p : string) : bool :=
  String.eqb s p ||
  match s with
  | EmptyString => false
  | String _ s' => endswith s' p
  end.

(** [s.lower()], on ASCII letters. *)
Definition lower_ascii (c : ascii) : ascii :=
  let n := nat_of_ascii c in
  if (65 <=? n)%nat && (n <=? 90)%nat then ascii_of_nat (n + 32) else c.

Fixpoint lower (s : string) : string :=
  match s with
  | EmptyString => EmptyString
  | String c s' => String (lower_ascii c) (lower s')
  end.

(** [s.replace(a, b)] for single characters. *)
Fixpoint replace (a b : ascii) (s : string) : string :=
  match s with
  | EmptyString => EmptyString
  | String c s' => String (if Ascii.eqb c a then b else c) (replace a b s')
  end.

(** [s.strip()]: ASCII white space is dropped at both ends. *)
Definition is_space (c : ascii) : bool :=
  let n := nat_of_ascii c in
  ((9 <=? n)%nat && (n <=? 13)%nat) || ((28 <=? n)%nat && (n <=? 32)%nat).

Fixpoint lstrip (s : string) : string :=
  match s with
  | EmptyString => EmptyString
  | String c s' => if is_space c then lstrip s' else s
  end.

Fixpoint rstrip (s : string) : string :=
  match s with
  | EmptyString => EmptyString
  | String c s' =>
      match rstrip s' with
      | EmptyString => if is_space c then EmptyString else String c EmptyString
      | t => String c t
      end
  end.

Definition strip (s : string) : string := rstrip (lstrip s).

(** [x in l] on a list of strings. *)
Definition mem (x : string) (l : list string) : bool :=
  existsb (String.eqb x) l.

End Py.

(** ** Exceptions *)

(** A computation that may raise: [inl msg] is a raised exception. *)
Definition exc (A : Type) : Type := (string + A)%type.

Definition ret {A} (x : A) : exc A := inr x.
Definition raise {A} (msg : string) : exc A := inl msg.
Definition bind {A B} (m : exc A) (k : A -> exc B) : exc B :=
  match m with
  | inl e => inl e
  | inr x => k x
  end.

Notation "x <- m ;; k" := (bind m (fun x => k))
  (at level 61, m at next level, right associativity).

(** ** NumPy arrays *)

Module Np.

Definition grid (A : Type) : Type := list (list A).

(** [g.shape]. *)
Definition height {A} (g : grid A) : nat := length g.
Definition width {A} (g : grid A) : nat :=
  match g with
  | [] => O
  | r :: _ => length r
  end.

(** [np.full((h, w), c)]. *)
Definition uniform {A} (h w : nat) (c : A) : grid A := repeat (repeat c w) h.

Definition gmap {A B} (f : A -> B) (g : grid A) : grid B := map (map f) g.

Fixpoint zip_with {A B C} (f : A -> B -> C) (l1 : list A) (l2 : list B) : list C :=
  match l1, l2 with
  | a :: l1', b :: l2' => f a b :: zip_with f l1' l2'
  | _, _ => []
  end.

(** Element-wise binary operation on two arrays of one shape. *)
Definition gmap2 {A B C} (f : A -> B -> C) (g1 : grid A) (g2 : grid B) : grid C :=
  zip_with (zip_with f) g1 g2.

(** [l[a:b]] for [0 <= a]. *)
Definition slice {A} (a b : nat) (l : list A) : list A := firstn (b - a) (skipn a l).

(** [g[a:b, :]], [g[:, a:b]] and [g[a:b, c:d]]. *)
Definition rows {A} (a b : nat) (g : grid A) : grid A := slice a b g.
Definition cols {A} (a b : nat) (g : grid A) : grid A := map (slice a b) g.
Definition window {A} (a b c d : nat) (g : grid A) : grid A := cols c d (rows a b g).

(** The value of a [uint8] element as a float. *)
Definition of_uint8 (p : N) : Q := inject_Z (Z.of_N p).

(** [g.astype(np.float32)] on a [uint8] array. *)
Definition to_float (g : grid N) : grid Q := gmap of_uint8 g.

(** [x.astype(np.uint8)] on a float: truncation, then the low eight bits. *)
Definition astype_uint8 (x : Q) : N :=
  Z.to_N ((if Py.lt x 0 then Qceiling x else Qfloor x) mod 256).

(** [np.sum], [np.mean], [np.var] over all elements. *)
Definition sum (l : list Q) : Q := fold_right Qplus 0 l.
Definition mean (l : list Q) : Q := sum l / inject_Z (Z.of_nat (length l)).
Definition var (l : list Q) : Q :=
  let m := mean l in mean (map (fun x => (x - m) * (x - m)) l).

(** The square root of a float, to 24 fractional bits. *)
Definition sqrt (x : Q) : Q :=
  inject_Z (Z.sqrt (Qfloor (x * inject_Z (2 ^ 48)))) / inject_Z (2 ^ 24).

Definition std (l : list Q) : Q := sqrt (var l).

(** [np.mean] where the array may be empty. *)
Definition mean_nan (l : list Q) : option Q :=
  match l with
  | [] => None
  | _ => Some (mean l)
  end.

Definition gmean (g : grid Q) : Q := mean (concat g).
Definition gmean_nan (g : grid Q) : option Q := mean_nan (concat g).
Definition gvar (g : grid Q) : Q := var (concat g).
Definition gstd (g : grid Q) : Q := std (concat g).

(** [np.diff(g, axis=1)] and [np.diff(g, axis=0)]. *)
Definition diff (l : list Q) : list Q := zip_with (fun a b => b - a) l (tl l).
Definition diff_axis1 (g : grid Q) : grid Q := map diff g.
Definition diff_axis0 (g : grid Q) : grid Q :=
  zip_with (zip_with (fun a b => b - a)) g (tl g).

(** The [ValueError] of [np.pad] on an empty axis. *)
Definition empty_axis (axis : string) : string :=
  String.append "can't extend empty axis "
    (String.append axis " using modes other than 'constant' or 'empty'").

(** [np.pad(l, (before, after), mode='edge')] along one axis. *)
Definition pad_edge_axis {A} (axis : string) (before after : nat) (l : list A)
  : exc (list A) :=
  match l with
  | [] => if (before + after =? 0)%nat then ret [] else raise (empty_axis axis)
  | x :: _ => ret (repeat x before ++ l ++ repeat (last l x) after)
  end.

Fixpoint map_exc {A B} (f : A -> exc B) (l : list A) : exc (list B) :=
  match l with
  | [] => ret []
  | x :: l' => y <- f x ;; ys <- map_exc f l' ;; ret (y :: ys)
  end.

(** [np.pad(g, ((top, bottom), (left, right)), mode='edge')]. *)
Definition pad_edge {A} (top bottom left right : nat) (g : grid A) : exc (grid A) :=
  g' <- pad_edge_axis "0" top bottom g ;;
  map_exc (pad_edge_axis "1" left right) g'.

(** Index read by reflection for position [j] (counted from the first
    original element) of an axis of [n] elements. *)
Definition reflect_index (j : Z) (n : nat) : nat :=
  if (n <=? 1)%nat then O
  else
    let period := (2 * (Z.of_nat n - 1))%Z in
    let r := (j mod period)%Z in
    Z.to_nat (if (r <? Z.of_nat n)%Z then r else (period - r)%Z).

(** [np.pad(l, p, mode='reflect')] along one axis. *)
Definition pad_reflect_axis {A} (axis : string) (p : nat) (l : list A) : exc (list A) :=
  match l with
  | [] => if (p =? 0)%nat then ret [] else raise (empty_axis axis)
  | d :: _ =>
      let n := length l in
      ret (map (fun i => nth (reflect_index (Z.of_nat i - Z.of_nat p) n) l d)
               (seq 0 (n + 2 * p)))
  end.

(** [np.pad(g, ((py, py), (px, px)), mode='reflect')]. *)
Definition pad_reflect {A} (py px : nat) (g : grid A) : exc (grid A) :=
  g' <- pad_reflect_axis "0" py g ;;
  map_exc (pad_reflect_axis "1" px) g'.

(** [np.sort] on a flat array. *)
Fixpoint insert (x : Q) (l : list Q) : list Q :=
  match l with
  | [] => [x]
  | y :: l' => if Qle_bool x y then x :: l else y :: insert x l'
  end.

Definition sort (l : list Q) : list Q := fold_right insert [] l.

(** [np.median] of a flat array. *)
Definition median (l : list Q) : Q :=
  let s := sort l in
  let n := length s in
  if Nat.even n
  then (nth (n / 2 - 1) s 0 + nth (n / 2) s 0) / 2
  else nth (n / 2) s 0.

(** [np.quantile(l, q)], linear interpolation between order statistics. *)
Definition quantile (l : list Q) (q : Q) : exc Q :=
  match l with
  | [] => raise "index -1 is out of bounds for axis 0 with size 0"
  | _ =>
      let s := sort l in
      let n := length s in
      let pos := q * inject_Z (Z.of_nat (n - 1)) in
      let lo := Py.int pos in
      let hi := Nat.min (lo + 1) (n - 1) in
      let a := nth lo s 0 in
      let b := nth hi s 0 in
      ret (a + (b - a) * (pos - inject_Z (Z.of_nat lo)))
  end.

(** [np.stack(patches, axis=-1)] for patches of shape [(h, w)]. *)
Definition stack {A} (h w : nat) (patches : list (grid A)) : grid (list A) :=
  fold_right (gmap2 cons) (uniform h w []) patches.

End Np.

(** ** Pillow *)

Module Pil.

(** [Image.histogram()] of an 8-bit image: 256 bins. *)
Definition histogram (g : Np.grid N) : list N :=
  map (fun i => N.of_nat (count_occ N.eq_dec (concat g) (N.of_nat i))) (seq 0 256).

(** The look-up table built by [ImageOps.equalize]. *)
Fixpoint lut_run (step n : N) (h : list N) : list N :=
  match h with
  | [] => []
  | hi :: h' => (n / step)%N :: lut_run step (n + hi)%N h'
  end.

Definition identity_lut : list N := map N.of_nat (seq 0 256).

Definition equalize_lut (h : list N) : list N :=
  let histo := filter (fun f => negb (f =? 0)%N) h in
  if (length histo <=? 1)%nat then identity_lut
  else
    let step := ((fold_right N.add 0 histo - last histo 0) / 255)%N in
    if (step =? 0)%N then identity_lut
    else lut_run step (step / 2)%N h.

(** [Image.point(lut)]: table entries are clipped to eight bits. *)
Definition point (lut : list N) (g : Np.grid N) : Np.grid N :=
  Np.gmap (fun p => N.min 255 (nth (N.to_nat p) lut p)) g.

(** [ImageOps.equalize(Image.fromarray(g))], read back as an array. *)
Definition equalize (g : Np.grid N) : Np.grid N :=
  point (equalize_lut (histogram g)) g.

End Pil.

(** ** External collaborators *)

(** An element of a JSON list: only strings are told apart. *)
Inductive json_item : Type :=
| JStr (s : string)
| JOther.

(** The dictionary returned by [GeminiVision.analyze]. *)
Record vision_hint : Type := {
  gv_modality : string;
  gv_body_region : string;
  gv_is_dental : bool;
  gv_preliminary_findings : list json_item;
  gv_confidence : Q
}.

(** The dictionary returned by [PretrainedXrayModel.infer]. *)
Record pretrained_map : Type := {
  pm_normal : Q;
  pm_pneumonia : Q;
  pm_tumor : Q;
  pm_fracture : Q
}.

(** The local variables [gem_modality], [gem_conf], [gem_body_region] and
    [gem_findings]; [None] is the empty string, respectively 0. *)
Record gem_vars : Type := {
  gem_modality : string;
  gem_conf : Q;
  gem_body_region : string;
  gem_findings : list json_item
}.

Definition gem_none : gem_vars :=
  {| gem_modality := ""; gem_conf := 0; gem_body_region := ""; gem_findings := [] |}.

Definition gem_of_hint (hint : option vision_hint) : gem_vars :=
  match hint with
  | None => gem_none
  | Some gv =>
      {| gem_modality := gv_modality gv;
         gem_conf := Py.float (gv_confidence gv);
         gem_body_region := Py.str_or (gv_body_region gv) "unknown";
         gem_findings := gv_preliminary_findings gv |}
  end.

(** [for f in new: if isinstance(f, str) and f not in findings: findings.append(f)]. *)
Definition append_new (findings new : list string) : list string :=
  fold_left (fun acc f => if Py.mem f acc then acc else acc ++ [f]) new findings.

Definition strings_of (l : list json_item) : list string :=
  flat_map (fun j => match j with JStr s => [s] | JOther => [] end) l.

(** The findings of the vision assistant, as all three analyzers put them
    first: strings only, each one once. *)
Definition gem_first (g : gem_vars) : list string :=
  append_new [] (strings_of (gem_findings g)).

Definition eps : Q := 1 # 1000000.

(** ** Assignment traces *)

(** The assignments of [CNNModel.analyze_image] that a trace records. *)
Inductive event : Type :=
| SetDental (dental_like : bool)
| SetVec (vec : list Q)
| SetModality (modality : string) (modality_conf : Q).

Definition traced (A : Type) : Type := (A * list event)%type.

Definition tret {A} (x : A) : traced A := (x, []).
Definition tell (e : event) : traced unit := (tt, [e]).
Definition tbind {A B} (m : traced A) (k : A -> traced B) : traced B :=
  let (x, l1) := m in let (y, l2) := k x in (y, l1 ++ l2).

Notation "x <~ m ;; k" := (tbind m (fun x => k))
  (at level 61, m at next level, right associativity).
Notation "m ;;; k" := (tbind m (fun _ => k))
  (at level 61, right associativity).

(** ** [cnn_model.py]: the planar analyzer *)

Module Cnn.
Import Np.

Definition class_names : list string := ["Normal"; "Pneumonia"; "Tumor"; "Fracture"].

(** The array handed to [analyze_image]: two- or three-dimensional. *)
Inductive image : Type :=
| Gray (arr : grid N)
| Color (arr : grid (list N)).

(** [_to_gray]. *)
Definition _to_gray (img : image) : grid N :=
  match img with
  | Gray arr => arr
  | Color arr => gmap (fun px => astype_uint8 (mean (map of_uint8 px))) arr
  end.

(** [_median(gray, k)]. *)
Definition _median (gray : grid Q) (k : nat) : exc (grid N) :=
  let pad := (k / 2)%nat in
  padded <- pad_edge pad pad pad pad gray ;;
  let H := height gray in
  let W := width gray in
  let patches :=
    flat_map (fun dy => map (fun dx => window dy (dy + H) dx (dx + W) padded) (seq 0 k))
             (seq 0 k) in
  ret (gmap (fun l => astype_uint8 (median l)) (stack H W patches)).

(** [_equalize(gray)]. *)
Definition _equalize (gray : grid N) : grid N := Pil.equalize gray.

(** [_variance_of_laplacian(gray)]. *)
Definition _variance_of_laplacian (gray : grid N) : exc Q :=
  let g := to_float gray in
  let H := height g in
  let W := width g in
  left <- pad_edge 0 0 1 0 g ;;
  right <- pad_edge 0 0 0 1 g ;;
  up <- pad_edge 1 0 0 0 g ;;
  down <- pad_edge 0 1 0 0 g ;;
  let lap :=
    gmap2 Qplus
      (gmap2 Qplus
        (gmap2 Qplus
          (gmap2 Qplus (gmap (Qmult (-4)) g) (cols 0 (width left - 1) left))
          (cols 1 (width right) right))
        (rows 0 (height up - 1) up))
      (rows 1 (height down) down) in
  ret (Py.float (gvar lap)).

(** [_calculate_edge_score(gray_image)]; nothing in its guarded block can
    raise on a two-dimensional array, so the default 20.0 is never returned. *)
Definition _calculate_edge_score (gray_image : grid N) : option Q :=
  let grad_x := gmap Qabs (diff_axis1 (to_float gray_image)) in
  let grad_y := gmap Qabs (diff_axis0 (to_float gray_image)) in
  match gmean_nan grad_x, gmean_nan grad_y with
  | Some mx, Some my => Some (Py.float ((mx + my) / 2))
  | _, _ => None
  end.

(** [_estimate_noise(gray)]. *)
Definition _estimate_noise (gray : grid N) : exc Q :=
  let g := to_float gray in
  med <- _median g 5 ;;
  let hf := gmap2 Qminus g (to_float med) in
  ret (Py.float (gstd hf / 255)).

(** [_convolve(img, kernel)]. *)
Definition _convolve (img kernel : grid Q) : exc (grid Q) :=
  let ky := height kernel in
  let kx := width kernel in
  let py := (ky / 2)%nat in
  let px := (kx / 2)%nat in
  src <- pad_reflect py px img ;;
  let H := height img in
  let W := width img in
  let offsets := flat_map (fun y => map (fun x => (y, x)) (seq 0 kx)) (seq 0 ky) in
  ret (fold_left
         (fun out yx =>
            let '(y, x) := yx in
            gmap2 Qplus out
              (gmap (Qmult (nth x (nth y kernel []) 0))
                    (window y (y + H) x (x + W) src)))
         offsets (uniform H W 0)).

(** [_local_variance(gray, window)]: the integral images and the two inner
    functions of the source are computed but never used; what is returned
    comes from [_convolve]. *)
Definition _local_variance (gray : grid N) (window : nat) : exc (grid Q) :=
  let g := to_float gray in
  let k := window in
  _ <- pad_reflect (k / 2) (k / 2) g ;;
  let K := uniform k k 1 in
  let kk := inject_Z (Z.of_nat (k * k)) in
  s1 <- _convolve g K ;;
  s2 <- _convolve (gmap2 Qmult g g) K ;;
  let mean := gmap (fun s => s / kk) s1 in
  let mean2 := gmap (fun s => s / kk) s2 in
  ret (gmap2 (fun m2 m => Qmax 0 (m2 - m * m)) mean2 mean).

(** [edge_map = grad_x[:-1, :] + grad_y[:, :-1]]. *)
Definition edge_map (g : grid N) : grid Q :=
  let grad_x := gmap Qabs (diff_axis1 (to_float g)) in
  let grad_y := gmap Qabs (diff_axis0 (to_float g)) in
  gmap2 Qplus (rows 0 (height grad_x - 1) grad_x)
              (cols 0 (width grad_y - 1) grad_y).

(** [(mean(a[t2:, :]) + 1e-6) / (mean(a[:t1, :]) + 1e-6)] with the bands cut
    at [int(H * 0.33)] and [int(H * 0.66)]. *)
Definition bot_top_ratio_thirds (a : grid Q) : option Q :=
  let H := height a in
  let t1 := Py.int (inject_Z (Z.of_nat H) * (33 # 100)) in
  let t2 := Py.int (inject_Z (Z.of_nat H) * (66 # 100)) in
  match gmean_nan (rows 0 t1 a), gmean_nan (rows t2 H a) with
  | Some top, Some bottom => Some ((Py.float bottom + eps) / (Py.float top + eps))
  | _, _ => None
  end.

(** The scalars computed by steps 1 to 3.5 of [analyze_image]. *)
Record features : Type := {
  brightness : Q;
  contrast : Q;
  sharpness : Q;
  edge_score : option Q;
  noise_est : Q;
  opacity_score : Q;
  aspect : Q;
  edge_bot_top_ratio : option Q;
  bright_bot_top_ratio : option Q
}.

Definition py_div (a b : Q) : exc Q :=
  if Qeq_bool b 0 then raise "float division by zero" else ret (Py.float (a / b)).

(** [get_feature_maps(image)], as an array: the denoised, equalized image
    that steps 2 to 3.5 of [analyze_image] work on. *)
Definition get_feature_maps (img : image) : exc (grid N) :=
  gray_blur <- _median (to_float (_to_gray img)) 3 ;;
  ret (_equalize gray_blur).

Definition extract (img : image) : exc features :=
  let gray := _to_gray img in
  let h := height gray in
  let w := width gray in
  gray_blur <- _median (to_float gray) 3 ;;
  let gray_eq := _equalize gray_blur in
  let brightness := Py.float (gmean (to_float gray_eq)) in
  let contrast := Py.float (gstd (to_float gray_eq)) in
  sharpness <- _variance_of_laplacian gray_eq ;;
  let edge_score := _calculate_edge_score gray_eq in
  noise_est <- _estimate_noise gray_eq ;;
  local_var <- _local_variance gray_eq 15 ;;
  var_q95 <- quantile (concat local_var) (95 # 100) ;;
  let var_q95 := Py.float var_q95 in
  let var_mean := Py.float (gmean local_var) in
  let opacity_score := Qmax 0 ((var_q95 - var_mean) / (var_q95 + eps)) in
  aspect <- py_div (inject_Z (Z.of_nat w)) (inject_Z (Z.of_nat h)) ;;
  ret {| brightness := brightness;
         contrast := contrast;
         sharpness := sharpness;
         edge_score := edge_score;
         noise_est := noise_est;
         opacity_score := opacity_score;
         aspect := aspect;
         edge_bot_top_ratio := bot_top_ratio_thirds (edge_map gray_eq);
         bright_bot_top_ratio := bot_top_ratio_thirds (to_float gray_eq) |}.

(** The heuristic part of the modality gate (step 3.5). *)
Definition dental_heuristic (f : features) : bool :=
  Py.gt (aspect f) (16 # 10) &&
  (Py.gt_nan (edge_bot_top_ratio f) (135 # 100)
   || Py.gt_nan (bright_bot_top_ratio f) (112 # 100)).

(** The refinement of [dental_like] by the vision assistant. *)
Definition gemini_forces_dental (gv : vision_hint) : bool :=
  gv_is_dental gv ||
  ((String.eqb (gv_modality gv) "non-chest-xray" || String.eqb (gv_modality gv) "document")
   && Py.truthy (Py.float (gv_confidence gv))
   && Py.gt (Py.float (gv_confidence gv)) (75 # 100)).

Definition gate (f : features) (hint : option vision_hint) : traced bool :=
  tell (SetDental (dental_heuristic f)) ;;;
  match hint with
  | Some gv =>
      if gemini_forces_dental gv
      then tell (SetDental true) ;;; tret true
      else tret (dental_heuristic f)
  | None => tret (dental_heuristic f)
  end.

(** [np.argmax]: the first index holding the largest value. *)
Fixpoint argmax_from (best : Q) (ibest i : nat) (l : list Q) : nat :=
  match l with
  | [] => ibest
  | x :: l' =>
      if Py.gt x best then argmax_from x i (S i) l'
      else argmax_from best ibest (S i) l'
  end.

Definition argmax (l : list Q) : nat :=
  match l with
  | [] => O
  | x :: l' => argmax_from x 0 1 l'
  end.

(** [vec / vec.sum()]. *)
Definition normalize (vec : list Q) : list Q :=
  let s := sum vec in map (fun x => x / s) vec.

(** [vec[i]]. *)
Definition at_ (vec : list Q) (i : nat) : Q := nth i vec 0.

(** The variables [vec], [predicted_idx], [confidence], [modality] and
    [modality_conf]. *)
Record locals : Type := {
  vec : list Q;
  predicted_idx : nat;
  confidence : Q;
  modality : string;
  modality_conf : Q
}.

(** Step 4: rule-based class scores, in the order of [class_names]. *)
Definition heuristic_scores (f : features) : list Q :=
  let nb := Py.clip ((brightness f - 90) / 60) (-1) 1 in
  let nc := Py.clip ((contrast f - 40) / 40) (-1) 1 in
  let ns := Py.clip ((sharpness f - 25) / 50) (-1) 1 in
  let ne := option_map (fun e => Py.clip ((e - 25) / 40) (-1) 1) (edge_score f) in
  let no := Py.clip (opacity_score f * 3) 0 1 in
  let pneumonia :=
    (5 # 10) * no + (2 # 10) * (1 - Qabs nb) + (2 # 10) * Qmax 0 nc
    + (1 # 10) * (1 - Qmax 0 ns) in
  let tumor := (4 # 10) * no + (4 # 10) * Py.max0_nan ne + (2 # 10) * Qmax 0 ns in
  let fracture :=
    (6 # 10) * Qmax 0 ns + (3 # 10) * Py.max0_nan ne + (1 # 10) * Qmax 0 nc in
  let normal :=
    (5 # 10) * (1 - no) + (2 # 10) * (1 - Py.max0_nan ne) + (2 # 10) * (1 - Qmax 0 ns)
    + (1 # 10) * (1 - Qabs nb) in
  [normal; pneumonia; tumor; fracture].

Definition heuristic_probs (f : features) : traced (list Q * nat * Q) :=
  let v := normalize (map (fun x => Qmax x eps) (heuristic_scores f)) in
  tell (SetVec v) ;;;
  tret (v, argmax v, Py.float (at_ v (argmax v))).

(** Step 4.5: blend with the pretrained probabilities when there are any. *)
Definition blend_pretrained (pmap : option pretrained_map) (s : list Q * nat * Q)
  : traced (list Q * nat * Q) :=
  match pmap with
  | None => tret s
  | Some pm =>
      let '(v, _, _) := s in
      let vec_pre :=
        normalize (map (fun x => Qmax x eps)
          [Py.float (pm_normal pm); Py.float (pm_pneumonia pm);
           Py.float (pm_tumor pm); Py.float (pm_fracture pm)]) in
      let v' :=
        normalize (zip_with (fun p h => (7 # 10) * p + (3 # 10) * h) vec_pre v) in
      tell (SetVec v') ;;;
      tret (v', argmax v', Py.float (at_ v' (argmax v')))
  end.

(** [modality = "chest-xray"; modality_conf = 0.85]. *)
Definition init_modality (s : list Q * nat * Q) : traced locals :=
  let '(v, idx, conf) := s in
  tell (SetModality "chest-xray" (85 # 100)) ;;;
  tret {| vec := v; predicted_idx := idx; confidence := conf;
          modality := "chest-xray"; modality_conf := 85 # 100 |}.

Definition forced_dental : list Q := [88 # 100; 4 # 100; 4 # 100; 4 # 100].
Definition forced_gemini : list Q := [90 # 100; 4 # 100; 3 # 100; 3 # 100].

(** [if dental_like: ...]. *)
Definition dental_override (f : features) (dental_like : bool) (st : locals)
  : traced locals :=
  if dental_like then
    let mc :=
      Py.min_nan (97 # 100)
        (option_map
           (fun r => (7 # 10) + (1 # 10) * (aspect f - (16 # 10))
                     + (2 # 10) * (r - (135 # 100)))
           (edge_bot_top_ratio f)) in
    tell (SetModality "non-chest-xray (dental/panoramic likely)" mc) ;;;
    tell (SetVec forced_dental) ;;;
    tret {| vec := forced_dental; predicted_idx := 0;
            confidence := Qmax (confidence st) (70 # 100);
            modality := "non-chest-xray (dental/panoramic likely)";
            modality_conf := mc |}
  else tret st.

Definition non_chest_hint (m : string) : bool :=
  String.eqb m "non-chest-xray" || String.eqb m "document" || String.eqb m "other".

(** [if gem_modality and gem_conf: ...]. *)
Definition gemini_blend (g : gem_vars) (st : locals) : traced locals :=
  if Py.nonempty (gem_modality g) && Py.truthy (gem_conf g) then
    if String.eqb (gem_modality g) "chest-xray" then
      let mc := Qmax (modality_conf st)
                     (Qmin (98 # 100) ((80 # 100) + (15 # 100) * gem_conf g)) in
      tell (SetModality "chest-xray" mc) ;;;
      tret {| vec := vec st; predicted_idx := predicted_idx st;
              confidence := confidence st;
              modality := "chest-xray"; modality_conf := mc |}
    else if non_chest_hint (gem_modality g) then
      let mc := Qmax (modality_conf st)
                     (Qmin (98 # 100) ((75 # 100) + (2 # 10) * gem_conf g)) in
      tell (SetModality "non-chest-xray (gemini)" mc) ;;;
      tell (SetVec forced_gemini) ;;;
      tret {| vec := forced_gemini; predicted_idx := 0;
              confidence := Qmax (confidence st) (70 # 100);
              modality := "non-chest-xray (gemini)"; modality_conf := mc |}
    else tret st
  else tret st.

(** The vector built by the bias correction, before it is renormalized. *)
Definition bias_vector (v : list Q) : list Q :=
  [Qmax (70 # 100) (Py.float (at_ v 0) + (25 # 100));
   Qmax (2 # 100) (Py.float (at_ v 1) - (20 # 100));
   Py.float (at_ v 2) * (95 # 100);
   Py.float (at_ v 3) * (95 # 100)].

(** [if modality == "chest-xray" and opacity_score < 0.22: ...]. *)
Definition bias_applies (f : features) (st : locals) : bool :=
  String.eqb (modality st) "chest-xray" && Py.lt (opacity_score f) (22 # 100).

Definition bias_correction (f : features) (st : locals) : traced locals :=
  if bias_applies f st then
    let v := normalize (bias_vector (vec st)) in
    tell (SetVec v) ;;;
    tret {| vec := v; predicted_idx := argmax v;
            confidence := Py.float (at_ v (argmax v));
            modality := modality st; modality_conf := modality_conf st |}
  else tret st.

(** [confidence = max(0.55, min(0.93, float(confidence)))]. *)
Definition clamp_confidence (st : locals) : locals :=
  {| vec := vec st; predicted_idx := predicted_idx st;
     confidence := Qmax (55 # 100) (Qmin (93 # 100) (Py.float (confidence st)));
     modality := modality st; modality_conf := modality_conf st |}.

(** Lines 94 to 206 of [analyze_image], from the gate to the clamp. *)
Definition classify (f : features) (hint : option vision_hint)
    (pmap : option pretrained_map) : traced locals :=
  dental_like <~ gate f hint ;;
  s <~ heuristic_probs f ;;
  s <~ blend_pretrained pmap s ;;
  st <~ init_modality s ;;
  st <~ dental_override f dental_like st ;;
  st <~ gemini_blend (gem_of_hint hint) st ;;
  st <~ bias_correction f st ;;
  tret (clamp_confidence st).

(** The variables on entry to the bias correction (line 192). *)
Definition before_bias (f : features) (hint : option vision_hint)
    (pmap : option pretrained_map) : locals :=
  fst (dental_like <~ gate f hint ;;
       s <~ heuristic_probs f ;;
       s <~ blend_pretrained pmap s ;;
       st <~ init_modality s ;;
       st <~ dental_override f dental_like st ;;
       gemini_blend (gem_of_hint hint) st).

(** [_make_findings]. *)
Definition _make_findings (brightness contrast sharpness : Q) (edge_score : option Q)
    (opacity_score : Q) (modality body_region : string) : list string :=
  let findings := [] in
  let findings :=
    if Py.lt brightness 70 then findings ++ ["Underexposed image (dark)"] else findings in
  let findings :=
    if Py.gt brightness 180 then findings ++ ["Overexposed image (bright)"] else findings in
  let findings :=
    if Py.lt sharpness 15
    then findings ++ ["Low sharpness (motion blur / out of focus)"] else findings in
  let is_chest := Py.startswith modality "chest" in
  let region :=
    Py.lower (Py.str_or body_region (if is_chest then "chest" else "region")) in
  let findings :=
    if Py.gt opacity_score (30 # 100) then
      if is_chest
      then findings ++ ["Diffuse opacities detected (possible pneumonia)"]
      else findings ++ [String.append "Increased soft-tissue density in " region]
    else findings in
  let findings :=
    if (Py.contains "neck" region || Py.contains "cervical" region)
       && Py.gt opacity_score (32 # 100) && Py.lt_nan edge_score 12
    then
      if negb (Py.mem "Increased soft-tissue density in neck" findings)
      then findings ++ ["Increased soft-tissue density in neck"] else findings
    else findings in
  let findings :=
    if Py.gt_nan edge_score 55 && Py.gt sharpness 40
    then findings ++ ["Strong linear edges (possible fracture)"] else findings in
  match findings with
  | [] => ["No strong abnormalities detected"]
  | _ => findings
  end.

(** The merge of lines 213 to 221. *)
Definition merge_findings (g : gem_vars) (findings_heur : list string) : list string :=
  append_new (gem_first g) findings_heur.

(** The region-aware label of lines 223 to 236. *)
Definition class_label (f : features) (g : gem_vars) (st : locals) : string :=
  if negb (Py.startswith (modality st) "chest") then
    let region :=
      Py.replace "_" "-" (Py.lower (Py.strip (Py.str_or (gem_body_region g) "non-chest"))) in
    let possible_fracture :=
      Py.gt (Py.float (at_ (vec st) 3)) (25 # 100)
      || (Py.gt_nan (edge_score f) 55 && Py.gt (sharpness f) 40) in
    let soft_tissue_swelling :=
      (Py.contains "neck" region || Py.contains "cervical" region)
      && (Py.gt (opacity_score f) (32 # 100) && Py.lt_nan (edge_score f) 12) in
    let assessment :=
      if soft_tissue_swelling then "possible soft-tissue swelling"
      else if possible_fracture then "possible fracture" else "no obvious abnormality" in
    String.append region (String.append " x-ray - " assessment)
  else nth (predicted_idx st) class_names "".

(** The ["image_stats"] entry of the result. *)
Record image_stats : Type := {
  st_brightness : Q;
  st_contrast : Q;
  st_edge_score : option Q;
  st_sharpness : Q;
  st_noise : Q;
  st_opacity_score : Q;
  st_aspect_ratio : Q;
  st_edge_bot_top_ratio : option Q;
  st_bright_bot_top_ratio : option Q;
  st_modality : string;
  st_modality_confidence : Q;
  st_body_region : string
}.

(** The dictionary returned by [analyze_image]: the full report, or the
    four-key dictionary of the exception handler. *)
Inductive response : Type :=
| Report (prediction : nat) (confidence : Q) (class_name : string)
         (all_probabilities : list (string * Q)) (stats : image_stats)
         (findings : list string)
| Fallback (prediction : nat) (confidence : Q) (class_name : string) (error : string).

Definition report (f : features) (g : gem_vars) (st : locals) : response :=
  let probabilities := combine class_names (map Py.float (vec st)) in
  let findings_heur :=
    _make_findings (brightness f) (contrast f) (sharpness f) (edge_score f)
                   (opacity_score f) (modality st) (gem_body_region g) in
  Report (predicted_idx st) (Py.round (confidence st) 2) (class_label f g st)
    probabilities
    {| st_brightness := Py.round (Py.float (brightness f)) 2;
       st_contrast := Py.round (Py.float (contrast f)) 2;
       st_edge_score := option_map (fun x => Py.round (Py.float x) 2) (edge_score f);
       st_sharpness := Py.round (Py.float (sharpness f)) 2;
       st_noise := Py.round (Py.float (noise_est f)) 3;
       st_opacity_score := Py.round (Py.float (opacity_score f)) 3;
       st_aspect_ratio := Py.round (Py.float (aspect f)) 3;
       st_edge_bot_top_ratio :=
         option_map (fun x => Py.round (Py.float x) 3) (edge_bot_top_ratio f);
       st_bright_bot_top_ratio :=
         option_map (fun x => Py.round (Py.float x) 3) (bright_bot_top_ratio f);
       st_modality := modality st;
       st_modality_confidence := Py.round (Py.float (modality_conf st)) 2;
       st_body_region :=
         Py.str_or (gem_body_region g)
                   (if Py.startswith (modality st) "chest" then "chest" else "unknown") |}
    (merge_findings g findings_heur).

(** Reading the returned dictionary: [r["confidence"]], [r["prediction"]],
    [r["class_name"]], [r.get("all_probabilities")], [r.get("findings")]. *)
Definition get_confidence (r : response) : Q :=
  match r with
  | Report _ c _ _ _ _ => c
  | Fallback _ c _ _ => c
  end.

Definition get_prediction (r : response) : nat :=
  match r with
  | Report p _ _ _ _ _ => p
  | Fallback p _ _ _ => p
  end.

Definition get_class_name (r : response) : string :=
  match r with
  | Report _ _ n _ _ _ => n
  | Fallback _ _ n _ => n
  end.

Definition get_probabilities (r : response) : option (list (string * Q)) :=
  match r with
  | Report _ _ _ p _ _ => Some p
  | Fallback _ _ _ _ => None
  end.

Definition get_findings (r : response) : option (list string) :=
  match r with
  | Report _ _ _ _ _ fs => Some fs
  | Fallback _ _ _ _ => None
  end.

Definition get_error (r : response) : option string :=
  match r with
  | Report _ _ _ _ _ _ => None
  | Fallback _ _ _ e => Some e
  end.

(** The guarded body of [analyze_image], with its assignment trace. *)
Definition analyze_body (img : image) (hint : option vision_hint)
    (pmap : option pretrained_map) : exc (traced response) :=
  f <- extract img ;;
  let (st, log) := classify f hint pmap in
  ret (report f (gem_of_hint hint) st, log).

(** [CNNModel.analyze_image]: [hint] is what the vision assistant answers
    ([None] when it is absent, fails or answers nothing), [pmap] what the
    pretrained model answers. *)
Definition analyze_image (img : image) (hint : option vision_hint)
    (pmap : option pretrained_map) : response :=
  match analyze_body img hint pmap with
  | inr (r, _) => r
  | inl e => Fallback 0 (72 # 100) (nth 0 class_names "") e
  end.

(** The assignments made by one call, in program order. *)
Definition analyze_trace (img : image) (hint : option vision_hint)
    (pmap : option pretrained_map) : list event :=
  match analyze_body img hint pmap with
  | inr (_, log) => log
  | inl _ => []
  end.

End Cnn.

(** ** [ct_model.py] and [mri_model.py]: the volumetric snapshot analyzers *)

(** Code that the two classes share word for word. *)
Module Snapshot.
Import Np.

(** [_conv(img, K)]. *)
Definition _conv (img K : grid Q) : grid Q :=
  let ky := height K in
  let kx := width K in
  let H := height img in
  let W := width img in
  let offsets := flat_map (fun y => map (fun x => (y, x)) (seq 0 kx)) (seq 0 ky) in
  fold_left
    (fun out yx =>
       let '(y, x) := yx in
       gmap2 Qplus out
         (gmap (Qmult (nth x (nth y K []) 0))
               (window y (y + H - ky + 1) x (x + W - kx + 1) img)))
    offsets (uniform (H - ky + 1) (W - kx + 1) 0).

(** [_local_var(gray, k)]: the result of [_conv] has the shape of [gray]
    and is cropped once more by [pad] on every side. *)
Definition _local_var (gray : grid N) (k : nat) : exc (grid Q) :=
  let g := to_float gray in
  let pad := (k / 2)%nat in
  src <- pad_reflect pad pad g ;;
  let K := uniform k k 1 in
  let kk := inject_Z (Z.of_nat (k * k)) in
  let crop (a : grid Q) := window pad (height a - pad) pad (width a - pad) a in
  let mean := gmap (fun s => s / kk) (crop (_conv src K)) in
  let mean2 := gmap (fun s => s / kk) (crop (_conv (gmap2 Qmult src src) K)) in
  ret (gmap2 (fun m2 m => Qmax 0 (m2 - m * m)) mean2 mean).

(** [float((gx.mean() + gy.mean()) / 2.0)]; an image for which one of the
    means is NaN raises further down, in [np.quantile]. *)
Definition edge_score_of (gray : grid N) : Q :=
  let gx := gmap Qabs (diff_axis1 (to_float gray)) in
  let gy := gmap Qabs (diff_axis0 (to_float gray)) in
  Py.float ((gmean gx + gmean gy) / 2).

(** [lesion_score]. *)
Definition lesion_score_of (gray : grid N) : exc Q :=
  lv <- _local_var gray 15 ;;
  lv_q95 <- quantile (concat lv) (95 # 100) ;;
  let lv_q95 := Py.float lv_q95 in
  let lv_mean := Py.float (gmean lv) in
  ret (Qmax 0 ((lv_q95 - lv_mean) / (lv_q95 + eps))).

(** [hi_mask = gray >= hi_thresh], as an array of 0 and 1. *)
Definition hi_mask_of (gray : grid N) : exc (grid Q) :=
  hi_thresh <- quantile (concat (to_float gray)) (97 # 100) ;;
  let hi_thresh := Py.float hi_thresh in
  ret (gmap (fun p => if Qle_bool hi_thresh (of_uint8 p) then 1 else 0) gray).

(** [region = (gem_region or default).strip().lower().replace("_", "-")]. *)
Definition region_of (g : gem_vars) (default : string) : string :=
  Py.replace "_" "-" (Py.lower (Py.strip (Py.str_or (gem_body_region g) default))).

Definition add_if (c : bool) (phrase : string) (findings : list string) : list string :=
  if c then findings ++ [phrase] else findings.

End Snapshot.

Module Mri.
Import Np Snapshot.

(** The heuristic cues of lines 116 to 135. *)
Record cues : Type := {
  brightness : Q;
  contrast : Q;
  edge_score : Q;
  lesion_score : Q;
  hi_mask : grid Q;
  hi_area : Q;
  width_px : nat;
  lateral_diff : Q
}.

Definition heuristics (gray : grid N) : exc cues :=
  let g := to_float gray in
  lesion <- lesion_score_of gray ;;
  mask <- hi_mask_of gray ;;
  let mid := (width gray / 2)%nat in
  let left_mean := Py.float (gmean (cols 0 mid g)) in
  let right_mean := Py.float (gmean (cols mid (width gray) g)) in
  ret {| brightness := Py.float (gmean g);
         contrast := Py.float (gstd g);
         edge_score := edge_score_of gray;
         lesion_score := lesion;
         hi_mask := mask;
         hi_area := Py.float (gmean mask);
         width_px := width gray;
         lateral_diff := Qabs (left_mean - right_mean) / (gmean g + eps) |}.

(** Lines 140 to 144. *)
Definition suspicious (c : cues) : bool :=
  Py.gt (lesion_score c) (35 # 100)
  || (Py.gt (lesion_score c) (25 # 100) && Py.gt (edge_score c) 10)
  || (Py.gt (hi_area c) (15 # 1000) && Py.gt (lateral_diff c) (8 # 100)).

Definition label (region : string) (c : cues) : string :=
  if suspicious c
  then String.append region " mri - lesion suspected"
  else String.append region " mri - no obvious abnormality".

(** [xs] of [np.where(hi_mask)]: the column of every selected pixel. *)
Definition where_xs (mask : grid Q) : list Q :=
  flat_map
    (fun row =>
       flat_map (fun xm => if Py.truthy (snd xm) then [inject_Z (Z.of_nat (fst xm))] else [])
                (combine (seq 0 (length row)) row))
    mask.

(** The side named by lines 161 to 166. *)
Definition hi_region_finding (c : cues) (findings : list string) : list string :=
  if Py.gt (hi_area c) (15 # 1000) then
    match where_xs (hi_mask c) with
    | [] => findings
    | xs =>
        let cx := Py.float (mean xs) in
        let side :=
          if Py.lt cx (inject_Z (Z.of_nat (width_px c)) / 2) then "left" else "right" in
        findings ++
          [String.append "Large focal high-intensity region in "
                         (String.append side " cerebral hemisphere")]
    end
  else findings.

(** Lines 147 to 172. *)
Definition findings_of (g : gem_vars) (c : cues) : list string :=
  let findings := gem_first g in
  let findings := add_if (Py.lt (brightness c) 60) "Underexposed slice (dark)" findings in
  let findings := add_if (Py.gt (brightness c) 200) "Overexposed slice (bright)" findings in
  let findings :=
    add_if (Py.gt (lesion_score c) (25 # 100))
           "Focal high-variance region (possible lesion)" findings in
  let findings := hi_region_finding c findings in
  let findings :=
    add_if (Py.gt (lateral_diff c) (12 # 100))
           "Global hemispheric asymmetry (possible mass effect)" findings in
  match findings with
  | [] => ["No strong abnormalities detected on snapshot"]
  | _ => findings
  end.

(** Line 176, before and after [round(..., 2)]. *)
Definition raw_confidence (c : cues) : Q :=
  Qmin (95 # 100)
    ((60 # 100) + (28 # 100) * Py.float (lesion_score c)
     + (10 # 100) * Qmin (lateral_diff c) (2 # 10)).

Record mri_stats : Type := {
  ms_brightness : Q;
  ms_contrast : Q;
  ms_edge_score : Q;
  ms_lesion_score : Q;
  ms_hi_area : Q;
  ms_lateral_diff : Q;
  ms_modality : string;
  ms_modality_confidence : Q
}.

(** The dictionary returned by [MRIModel.analyze_image]. *)
Inductive response : Type :=
| Report (mri_label : string) (mri_confidence : Q) (mri_body_region : string)
         (mri_findings : list string) (stats : mri_stats) (used_backend : string)
| Failure (mri_label : string) (mri_confidence : Q) (error : string).

Definition report (g : gem_vars) (backend : string) (c : cues) : response :=
  let region := region_of g "mri" in
  Report (label region c) (Py.round (raw_confidence c) 2) region (findings_of g c)
    {| ms_brightness := Py.round (brightness c) 2;
       ms_contrast := Py.round (contrast c) 2;
       ms_edge_score := Py.round (edge_score c) 2;
       ms_lesion_score := Py.round (Py.float (lesion_score c)) 3;
       ms_hi_area := Py.round (Py.float (hi_area c)) 4;
       ms_lateral_diff := Py.round (Py.float (lateral_diff c)) 3;
       ms_modality := Py.str_or (gem_modality g) "mri";
       ms_modality_confidence :=
         Py.round (Py.float (if Py.truthy (gem_conf g) then gem_conf g else 8 # 10)) 2 |}
    (Py.str_or backend "heuristic+gemini").

(** Reading the returned dictionary. *)
Definition get_label (r : response) : string :=
  match r with
  | Report l _ _ _ _ _ => l
  | Failure l _ _ => l
  end.

Definition get_confidence (r : response) : Q :=
  match r with
  | Report _ c _ _ _ _ => c
  | Failure _ c _ => c
  end.

Definition get_findings (r : response) : option (list string) :=
  match r with
  | Report _ _ _ fs _ _ => Some fs
  | Failure _ _ _ => None
  end.

Definition get_error (r : response) : option string :=
  match r with
  | Report _ _ _ _ _ _ => None
  | Failure _ _ e => Some e
  end.

(** [MRIModel.analyze_image]: [gray] is [np.array(image.convert("L"))],
    [hint] the answer of the vision assistant, [backend] is [self.backend]
    (empty for [None]). *)
Definition analyze_image (gray : grid N) (hint : option vision_hint) (backend : string)
  : response :=
  match heuristics gray with
  | inr c => report (gem_of_hint hint) backend c
  | inl e => Failure "mri - analysis error" 0 e
  end.

End Mri.

Module Ct.
Import Np Snapshot.

(** The heuristic cues of lines 104 to 118. *)
Record cues : Type := {
  brightness : Q;
  contrast : Q;
  edge_score : Q;
  lesion_score : Q;
  hi_area : Q
}.

Definition heuristics (gray : grid N) : exc cues :=
  let g := to_float gray in
  lesion <- lesion_score_of gray ;;
  mask <- hi_mask_of gray ;;
  ret {| brightness := Py.float (gmean g);
         contrast := Py.float (gstd g);
         edge_score := edge_score_of gray;
         lesion_score := lesion;
         hi_area := Py.float (gmean mask) |}.

Definition is_chest (region : string) : bool :=
  Py.contains "chest" region || Py.contains "lung" region.

(** Lines 123 to 126. *)
Definition suspicious (region : string) (c : cues) : bool :=
  (is_chest region && Py.gt (lesion_score c) (22 # 100) && Py.gt (contrast c) 25)
  || (negb (is_chest region)
      && (Py.gt (lesion_score c) (30 # 100) || Py.gt (hi_area c) (15 # 1000))).

Definition label (region : string) (c : cues) : string :=
  if suspicious region c
  then String.append region " ct - lesion suspected"
  else String.append region " ct - no obvious abnormality".

(** Lines 129 to 142. *)
Definition findings_of (g : gem_vars) (region : string) (c : cues) : list string :=
  let findings := gem_first g in
  let findings := add_if (Py.lt (brightness c) 60) "Underexposed slice (dark)" findings in
  let findings := add_if (Py.gt (brightness c) 200) "Overexposed slice (bright)" findings in
  let findings :=
    add_if (is_chest region && Py.gt (lesion_score c) (22 # 100))
           "Patchy parenchymal density (possible pulmonary opacity)" findings in
  let findings :=
    add_if (negb (is_chest region)
            && (Py.gt (lesion_score c) (30 # 100) || Py.gt (hi_area c) (15 # 1000)))
           "Focal high-variance/high-intensity region (possible lesion)" findings in
  match findings with
  | [] => ["No strong abnormalities detected on snapshot"]
  | _ => findings
  end.

(** Line 146, before and after [round(..., 2)]. *)
Definition raw_confidence (c : cues) : Q :=
  Qmin (95 # 100) ((60 # 100) + (28 # 100) * Py.float (lesion_score c)).

Record ct_stats : Type := {
  cs_brightness : Q;
  cs_contrast : Q;
  cs_edge_score : Q;
  cs_lesion_score : Q;
  cs_hi_area : Q;
  cs_modality : string;
  cs_modality_confidence : Q
}.

(** The dictionary returned by [CTModel.analyze_image]. *)
Inductive response : Type :=
| Report (ct_label : string) (ct_confidence : Q) (ct_body_region : string)
         (ct_findings : list string) (stats : ct_stats) (used_backend : string)
| Failure (ct_label : string) (ct_confidence : Q) (error : string).

Definition report (g : gem_vars) (backend : string) (c : cues) : response :=
  let region := region_of g "ct" in
  Report (label region c) (Py.round (raw_confidence c) 2) region (findings_of g region c)
    {| cs_brightness := Py.round (brightness c) 2;
       cs_contrast := Py.round (contrast c) 2;
       cs_edge_score := Py.round (edge_score c) 2;
       cs_lesion_score := Py.round (Py.float (lesion_score c)) 3;
       cs_hi_area := Py.round (Py.float (hi_area c)) 4;
       cs_modality := Py.str_or (gem_modality g) "ct";
       cs_modality_confidence :=
         Py.round (Py.float (if Py.truthy (gem_conf g) then gem_conf g else 8 # 10)) 2 |}
    (Py.str_or backend "heuristic+gemini").

(** Reading the returned dictionary. *)
Definition get_label (r : response) : string :=
  match r with
  | Report l _ _ _ _ _ => l
  | Failure l _ _ => l
  end.

Definition get_confidence (r : response) : Q :=
  match r with
  | Report _ c _ _ _ _ => c
  | Failure _ c _ => c
  end.

Definition get_findings (r : response) : option (list string) :=
  match r with
  | Report _ _ _ fs _ _ => Some fs
  | Failure _ _ _ => None
  end.

Definition get_error (r : response) : option string :=
  match r with
  | Report _ _ _ _ _ _ => None
  | Failure _ _ e => Some e
  end.

(** [CTModel.analyze_image], with the inputs of [Mri.analyze_image]. *)
Definition analyze_image (gray : grid N) (hint : option vision_hint) (backend : string)
  : response :=
  match heuristics gray with
  | inr c => report (gem_of_hint hint) backend c
  | inl e => Failure "ct - analysis error" 0 e
  end.

End Ct.

(** ** [app.py]: the quick modality guess of the upload route *)

Module App.
Import Np.

(** [lower_upper_ratio] of lines 253 to 262: one cut at 60% of the height;
    nothing in the guarded block can raise, so the default 1.0 is unused. *)
Definition two_band_ratio (emap : grid Q) : option Q :=
  let split_y := Py.int ((6 # 10) * inject_Z (Z.of_nat (height emap))) in
  match gmean_nan (rows 0 split_y emap), gmean_nan (rows split_y (height emap) emap) with
  | Some upper_e, Some lower_e => Some ((Py.float lower_e + eps) / (Py.float upper_e + eps))
  | _, _ => None
  end.

Definition lower_upper_ratio (img_arr : grid N) : option Q :=
  two_band_ratio (Cnn.edge_map img_arr).

Definition aspect_guess (img_arr : grid N) : Q :=
  if (height img_arr =? 0)%nat then 1
  else inject_Z (Z.of_nat (width img_arr)) / inject_Z (Z.of_nat (height img_arr)).

(** [dental_like] of line 263. *)
Definition dental_like (img_arr : grid N) : bool :=
  Py.gt (aspect_guess img_arr) (16 # 10)
  && Py.gt_nan (lower_upper_ratio img_arr) (15 # 10).

















End App.

(** ** Vocabulary of the statements *)

(** A probability vector over the four classes: every component at least
    [lo], and the components sum to one. *)
Definition distribution (lo : Q) (v : list Q) : Prop :=
  length v = 4%nat /\ Np.sum v == 1 /\ Forall (fun x => lo <= x) v.

(** Lower bounds kept by the successive stages of the planar classifier:
    after the heuristic scores, after the blend, after the bias correction. *)
Definition lo_heur : Q := eps / 4.
Definition lo_blend : Q := (3 # 10) * lo_heur.
Definition lo_bias : Q := (95 # 100) * lo_blend / 4.

(** The two ways in which the answer of the vision assistant enters lines
    179 to 190: it names the chest modality, or one of the three non-chest
    modalities, with a confidence that is not zero. *)
Definition hint_says_chest (hint : option vision_hint) : bool :=
  let g := gem_of_hint hint in
  Py.nonempty (gem_modality g) && Py.truthy (gem_conf g)
  && String.eqb (gem_modality g) "chest-xray".

Definition hint_says_non_chest (hint : option vision_hint) : bool :=
  let g := gem_of_hint hint in
  Py.nonempty (gem_modality g) && Py.truthy (gem_conf g)
  && Cnn.non_chest_hint (gem_modality g).

(** The final value of [dental_like]. *)
Definition dental_like (f : Cnn.features) (hint : option vision_hint) : bool :=
  fst (Cnn.gate f hint).

(** A grid of [h] rows and [w] columns whose entries all satisfy [P]. *)
Definition grid_of {A} (h w : nat) (P : A -> Prop) (g : Np.grid A) : Prop :=
  length g = h /\ Forall (fun r => length r = w /\ Forall P r) g.

(** A well-formed input of the planar analyzer: a rectangular array with at
    least one row and one column. *)
Definition rectangular {A} (g : Np.grid A) : bool :=
  forallb (fun r => (length r =? Np.width g)%nat) g.

Definition valid_grid {A} (g : Np.grid A) : bool :=
  (0 <? Np.height g)%nat && (0 <? Np.width g)%nat && rectangular g.

Definition valid_image (img : Cnn.image) : bool :=
  match img with
  | Cnn.Gray arr => valid_grid arr
  | Cnn.Color arr => valid_grid arr
  end.

(** The heuristic vector of step 4, the normalized pretrained vector, and
    the vector after step 4.5. *)
Definition heur_vec (f : Cnn.features) : list Q :=
  Cnn.normalize (map (fun x => Qmax x eps) (Cnn.heuristic_scores f)).

Definition pre_vec (pm : pretrained_map) : list Q :=
  Cnn.normalize (map (fun x => Qmax x eps)
    [Py.float (pm_normal pm); Py.float (pm_pneumonia pm);
     Py.float (pm_tumor pm); Py.float (pm_fracture pm)]).

Definition blend_vec (f : Cnn.features) (pmap : option pretrained_map) : list Q :=
  match pmap with
  | None => heur_vec f
  | Some pm =>
      Cnn.normalize
        (Np.zip_with (fun p h => (7 # 10) * p + (3 # 10) * h) (pre_vec pm) (heur_vec f))
  end.

(** [vec], [predicted_idx] and [confidence] as lines 141 to 143 set them. *)
Definition summary (v : list Q) : list Q * nat * Q :=
  (v, Cnn.argmax v, Py.float (Cnn.at_ v (Cnn.argmax v))).

(** The bias correction as the specification words it: Normal and
    Pneumonia are the only entries adjusted before renormalizing. *)
Definition bias_vector_as_specified (v : list Q) : list Q :=
  [Qmax (70 # 100) (Cnn.at_ v 0 + (25 # 100));
   Qmax (2 # 100) (Cnn.at_ v 1 - (20 # 100));
   Cnn.at_ v 2;
   Cnn.at_ v 3].

(** Sample inputs: a 5 x 5 checkerboard, and a 5 x 9 radiograph whose two
    bottom rows are bright. *)
Definition checkerboard : Cnn.image :=
  Cnn.Gray [[0; 255; 0; 255; 0]; [255; 0; 255; 0; 255]; [0; 255; 0; 255; 0];
            [255; 0; 255; 0; 255]; [0; 255; 0; 255; 0]]%N.

Definition panoramic : Cnn.image :=
  Cnn.Gray [[10; 10; 10; 10; 10; 10; 10; 10; 10];
            [10; 10; 10; 10; 10; 10; 10; 10; 10];
            [10; 10; 10; 10; 10; 10; 10; 10; 10];
            [200; 200; 200; 200; 200; 200; 200; 200; 200];
            [200; 200; 200; 200; 200; 200; 200; 200; 200]]%N.

(** A chest radiograph with no opacity at all, as a feature record. *)
Definition flat_features : Cnn.features :=
  {| Cnn.brightness := 128; Cnn.contrast := 0; Cnn.sharpness := 0;
     Cnn.edge_score := Some 0; Cnn.noise_est := 0; Cnn.opacity_score := 0;
     Cnn.aspect := 1; Cnn.edge_bot_top_ratio := Some 1;
     Cnn.bright_bot_top_ratio := Some 1 |}.

(** A hint is authoritative for the non-chest path when it names one of the
    three non-chest modalities with a confidence above 0.75. *)
Definition authoritative_non_chest (gv : vision_hint) : bool :=
  Cnn.non_chest_hint (gv_modality gv) && Py.gt (gv_confidence gv) (75 # 100).

(** The assistant names a non-chest modality, with confidence 0.5 only. *)
Definition weak_hint : vision_hint :=
  {| gv_modality := "non-chest-xray"; gv_body_region := "dental";
     gv_is_dental := false; gv_preliminary_findings := [];
     gv_confidence := 5 # 10 |}.

(** Kinds of trace events. *)
Definition is_set_dental (e : event) : bool :=
  match e with SetDental _ => true | _ => false end.
Definition is_set_vec (e : event) : bool :=
  match e with SetVec _ => true | _ => false end.
Definition is_set_modality (e : event) : bool :=
  match e with SetModality _ _ => true | _ => false end.

(** The order that the specification asks of a trace: leaving the gate flag
    aside, the first assignment is one to the modality, and every later
    assignment is one to the probability vector. *)
Definition decided_once_before_classification (log : list event) : bool :=
  match filter (fun e => negb (is_set_dental e)) log with
  | SetModality _ _ :: rest => forallb is_set_vec rest
  | _ => false
  end.

(** A snapshot smaller than the 15 x 15 window of [_local_var]. *)
Definition thumbnail : Np.grid N := [[1; 2; 3]; [4; 5; 6]; [7; 8; 9]]%N.

(** The suspicion rule of the MRI analyzer, as the specification writes it. *)
Definition mri_rule (c : Mri.cues) : Prop :=
  35 # 100 < Mri.lesion_score c
  \/ (25 # 100 < Mri.lesion_score c /\ 10 < Mri.edge_score c)
  \/ (15 # 1000 < Mri.hi_area c /\ 8 # 100 < Mri.lateral_diff c).

(** A 15 x 15 snapshot: grey level 100, last column 101. *)
Definition slice15 : Np.grid N := repeat (repeat 100%N 14 ++ [101%N]) 15.

(** The assistant describes the body region in words of its own. *)
Definition wordy_hint : vision_hint :=
  {| gv_modality := "mri"; gv_body_region := "lesion suspected";
     gv_is_dental := false; gv_preliminary_findings := [];
     gv_confidence := 9 # 10 |}.

(** What the feature extractors compute on the samples. *)
Definition checkerboard_features : Cnn.features :=
  Eval vm_compute in
    match Cnn.extract checkerboard with inr f => f | inl _ => flat_features end.

Definition panoramic_features : Cnn.features :=
  Eval vm_compute in
    match Cnn.extract panoramic with inr f => f | inl _ => flat_features end.

Definition slice15_cues : Mri.cues :=
  Eval vm_compute in
    match Mri.heuristics slice15 with
    | inr c => c
    | inl _ =>
        {| Mri.brightness := 0; Mri.contrast := 0; Mri.edge_score := 0;
           Mri.lesion_score := 0; Mri.hi_mask := []; Mri.hi_area := 0;
           Mri.width_px := 0; Mri.lateral_diff := 0 |}
    end.

(** The assistant sees a chest CT and reports one finding. *)
Definition chest_ct_hint : vision_hint :=
  {| gv_modality := "ct"; gv_body_region := "chest";
     gv_is_dental := false;
     gv_preliminary_findings := [JStr "Clear lung fields"];
     gv_confidence := 9 # 10 |}.

Definition slice15_ct_cues : Ct.cues :=
  Eval vm_compute in
    match Ct.heuristics slice15 with
    | inr c => c
    | inl _ =>
        {| Ct.brightness := 0; Ct.contrast := 0; Ct.edge_score := 0;
           Ct.lesion_score := 0; Ct.hi_area := 0 |}
    end.

(** The gate as the specification words it: the edge ratio is taken over a
    two-band split (the one of the upload route, the only one in the
    sources), and no external hint takes part. *)
Definition dental_like_as_specified (img : Cnn.image) : bool :=
  match Cnn.get_feature_maps img with
  | inr gray_eq =>
      let gray := Cnn._to_gray img in
      Py.gt (inject_Z (Z.of_nat (Np.width gray)) / inject_Z (Z.of_nat (Np.height gray)))
            (16 # 10)
      && (Py.gt_nan (App.two_band_ratio (Cnn.edge_map gray_eq)) (135 # 100)
          || Py.gt_nan (Cnn.bot_top_ratio_thirds (Np.to_float gray_eq)) (112 # 100))
  | inl _ => false
  end.

(** An 11 x 18 image of horizontal bands: the grey level rises by 20 per
    row over the first four rows, stays, and falls by 20 per row over the
    last five. *)
Definition ramp_rows : list N := [100; 120; 140; 160; 160; 160; 160; 140; 120; 100; 80]%N.
Definition ramp : Cnn.image := Cnn.Gray (map (fun v => repeat v 18) ramp_rows).

Definition ramp_features : Cnn.features :=
  Eval vm_compute in
    match Cnn.extract ramp with inr f => f | inl _ => flat_features end.

(** The assistant recognizes a dental image. *)
Definition dental_hint : vision_hint :=
  {| gv_modality := "other"; gv_body_region := "dental";
     gv_is_dental := true; gv_preliminary_findings := [];
     gv_confidence := 6 # 10 |}.

(** What [_convolve] accumulates at every pixel of a constant image. *)
Definition conv_value (kernel : Np.grid Q) (q : Q) : Q :=
  fold_left (fun acc yx => acc + nth (snd yx) (nth (fst yx) kernel []) 0 * q)
    (flat_map (fun y => map (fun x => (y, x)) (seq 0 (Np.width kernel)))
              (seq 0 (Np.height kernel)))
    0.

(** The uniform image of the specification: 224 x 224, every pixel 128. *)
Definition uniform_image : Cnn.image := Cnn.Gray (Np.uniform 224 224 128%N).

(** Its features are those of any uniform image at 128 with at least five
    rows and two columns; they are computed here on 8 x 8. *)
Definition uniform_features : Cnn.features :=
  Eval vm_compute in
    match Cnn.extract (Cnn.Gray (Np.uniform 8 8 128%N)) with
    | inr f => f
    | inl _ => flat_features
    end.

(** ** [pretrained_cnn.py]: the class map of the pretrained network *)

Module Pretrained.

(** [l.index(name)]; [None] when [name not in l]. *)
Fixpoint index (name : string) (l : list string) : option nat :=
  match l with
  | [] => None
  | x :: l' => if String.eqb x name then Some O else option_map S (index name l')
  end.

(** [float(probs[pathologies.index(name)]) if name in pathologies else 0.0];
    an index past the end of [probs] raises [IndexError]. *)
Definition prob_of (pathologies : list string) (probs : list Q) (name : string) : exc Q :=
  match index name pathologies with
  | None => ret 0
  | Some i =>
      match nth_error probs i with
      | Some p => ret (Py.float p)
      | None => raise "index out of bounds"
      end
  end.

(** The builtin [max(a, b)]: the first of two equal arguments is kept. *)
Definition max2 (a b : Q) : Q := if Py.gt b a then b else a.

(** [PretrainedXrayModel.infer], from the sigmoid outputs [probs] of the
    network on: [None] when the model is not available, when the backend is
    not the DenseNet, and when the guarded block raises. *)
Definition infer (available : bool) (backend : string) (pathologies : list string)
    (probs : list Q) : option pretrained_map :=
  if negb available then None
  else if String.eqb backend "xrv-densenet121" then
    match
      (pneumonia <- prob_of pathologies probs "Pneumonia" ;;
       p_mass <- prob_of pathologies probs "Mass" ;;
       p_nodule <- prob_of pathologies probs "Nodule" ;;
       let tumor := max2 p_mass p_nodule in
       let fracture := 0 in
       let others := max2 (max2 pneumonia tumor) fracture in
       ret {| pm_normal := Py.float (max2 0 (1 - others));
              pm_pneumonia := pneumonia;
              pm_tumor := tumor;
              pm_fracture := fracture |})
    with
    | inr pmap => Some pmap
    | inl _ => None
    end
  else None.

End Pretrained.

(** ** Vocabulary of the further properties *)

(** A list in ascending order. *)
Fixpoint ascending (l : list Q) : Prop :=
  match l with
  | [] => True
  | x :: l' => Forall (Qle x) l' /\ ascending l'
  end.



(** Reading [r["image_stats"]["modality"]] and
    [r["image_stats"]["modality_confidence"]]. *)
Definition get_modality (r : Cnn.response) : option string :=
  match r with
  | Cnn.Report _ _ _ _ stats _ => Some (Cnn.st_modality stats)
  | Cnn.Fallback _ _ _ _ => None
  end.






(** A class map of the pretrained network that votes Pneumonia. *)
Definition pneumonia_vote : pretrained_map :=
  {| pm_normal := 1 # 10; pm_pneumonia := 9 # 10; pm_tumor := 1 # 10; pm_fracture := 0 |}.

(** The confidence that goes with the modality of the dental override
    (line 173), and the one set when the assistant's answer is taken (lines
    183 and 187) over the confidence [before] it. *)
Definition gate_modality_conf (f : Cnn.features) : Q :=
  Py.min_nan (97 # 100)
    (option_map
       (fun r => (7 # 10) + (1 # 10) * (Cnn.aspect f - (16 # 10))
                 + (2 # 10) * (r - (135 # 100)))
       (Cnn.edge_bot_top_ratio f)).

Definition hint_modality_conf (hint : option vision_hint) (before : Q) : Q :=
  let g := gem_of_hint hint in
  if String.eqb (gem_modality g) "chest-xray"
  then Qmax before (Qmin (98 # 100) ((80 # 100) + (15 # 100) * gem_conf g))
  else Qmax before (Qmin (98 # 100) ((75 # 100) + (2 # 10) * gem_conf g)).

(** The strings of a list in the order of their first occurrence. *)
Fixpoint first_occurrences (l : list string) : list string :=
  match l with
  | [] => []
  | x :: rest => x :: filter (fun s => negb (String.eqb s x)) (first_occurrences rest)
  end.

(** A table of threshold rules, each a phrase and whether its test holds,
    and the phrases of the rules that trigger, in the order of the table. *)
Definition triggered (rules : list (string * bool)) : list string :=
  map fst (filter snd rules).

(** The threshold rules of [_make_findings] in the order the code tests
    them. The neck phrase is not appended a second time when the density
    phrase, written for the region "neck", is the same string. *)
Definition cnn_rules (f : Cnn.features) (modality body_region : string)
  : list (string * bool) :=
  let is_chest := Py.startswith modality "chest" in
  let region := Py.lower (Py.str_or body_region (if is_chest then "chest" else "region")) in
  [("Underexposed image (dark)", Py.lt (Cnn.brightness f) 70);
   ("Overexposed image (bright)", Py.gt (Cnn.brightness f) 180);
   ("Low sharpness (motion blur / out of focus)", Py.lt (Cnn.sharpness f) 15);
   ("Diffuse opacities detected (possible pneumonia)",
    Py.gt (Cnn.opacity_score f) (30 # 100) && is_chest);
   (String.append "Increased soft-tissue density in " region,
    Py.gt (Cnn.opacity_score f) (30 # 100) && negb is_chest);
   ("Increased soft-tissue density in neck",
    (Py.contains "neck" region || Py.contains "cervical" region)
    && Py.gt (Cnn.opacity_score f) (32 # 100) && Py.lt_nan (Cnn.edge_score f) 12
    && (is_chest || negb (String.eqb region "neck")));
   ("Strong linear edges (possible fracture)",
    Py.gt_nan (Cnn.edge_score f) 55 && Py.gt (Cnn.sharpness f) 40)].

(** The threshold rules of the CT analyzer, lines 133 to 140. *)
Definition ct_rules (region : string) (c : Ct.cues) : list (string * bool) :=
  [("Underexposed slice (dark)", Py.lt (Ct.brightness c) 60);
   ("Overexposed slice (bright)", Py.gt (Ct.brightness c) 200);
   ("Patchy parenchymal density (possible pulmonary opacity)",
    Ct.is_chest region && Py.gt (Ct.lesion_score c) (22 # 100));
   ("Focal high-variance/high-intensity region (possible lesion)",
    negb (Ct.is_chest region)
    && (Py.gt (Ct.lesion_score c) (30 # 100) || Py.gt (Ct.hi_area c) (15 # 1000)))].

(** The side of the high-intensity centroid, lines 163 and 164. *)
Definition mri_side (c : Mri.cues) : string :=
  if Py.lt (Py.float (Np.mean (Mri.where_xs (Mri.hi_mask c))))
           (inject_Z (Z.of_nat (Mri.width_px c)) / 2)
  then "left" else "right".

(** The threshold rules of the MRI analyzer, lines 153 to 170. *)
Definition mri_rules (c : Mri.cues) : list (string * bool) :=
  [("Underexposed slice (dark)", Py.lt (Mri.brightness c) 60);
   ("Overexposed slice (bright)", Py.gt (Mri.brightness c) 200);
   ("Focal high-variance region (possible lesion)", Py.gt (Mri.lesion_score c) (25 # 100));
   (String.append "Large focal high-intensity region in "
                  (String.append (mri_side c) " cerebral hemisphere"),
    Py.gt (Mri.hi_area c) (15 # 1000)
    && match Mri.where_xs (Mri.hi_mask c) with [] => false | _ => true end);
   ("Global hemispheric asymmetry (possible mass effect)",
    Py.gt (Mri.lateral_diff c) (12 # 100))].

(** The assistant reports, for a CT of no named region, the finding that
    the analyzer's own rule emits. *)
Definition echo_hint : vision_hint :=
  {| gv_modality := "ct"; gv_body_region := "";
     gv_is_dental := false;
     gv_preliminary_findings :=
       [JStr "Focal high-variance/high-intensity region (possible lesion)"];
     gv_confidence := 9 # 10 |}.

(** * Properties *)

(** ** Rational arithmetic *)

Lemma gt_true x y : Py.gt x y = true <-> y < x.
Proof.
  unfold Py.gt. rewrite negb_true_iff, <- not_true_iff_false, Qle_bool_iff.
  split; [apply Qnot_le_lt | apply Qlt_not_le].
Qed.

Lemma gt_false x y : Py.gt x y = false <-> x <= y.
Proof. unfold Py.gt. rewrite negb_false_iff. apply Qle_bool_iff. Qed.

Lemma lt_true x y : Py.lt x y = true <-> x < y.
Proof. unfold Py.lt. apply (gt_true y x). Qed.

Lemma lt_false x y : Py.lt x y = false <-> y <= x.
Proof. unfold Py.lt. apply (gt_false y x). Qed.

Lemma float_eq x : Py.float x == x.
Proof. apply Qred_correct. Qed.

(** [lra] knows no division: a quotient by a literal becomes a product. *)
Ltac inv_consts :=
  unfold Qdiv in *;
  repeat match goal with
  | |- context [Qinv (Qmake ?n ?d)] =>
      let v := eval cbv in (Qinv (Qmake n d)) in
      change (Qinv (Qmake n d)) with v
  | H : context [Qinv (Qmake ?n ?d)] |- _ =>
      let v := eval cbv in (Qinv (Qmake n d)) in
      change (Qinv (Qmake n d)) with v in H
  end.

Ltac qlra := inv_consts; lra.


Lemma float_le_r x y : x <= Py.float y <-> x <= y.
Proof. unfold Py.float. now rewrite Qred_correct. Qed.

Lemma float_lt_r x y : x < Py.float y <-> x < y.
Proof. unfold Py.float. now rewrite Qred_correct. Qed.

(** ** Rounding *)

Lemma round_half_even_ge (k : Z) (x : Q) :
  inject_Z k <= x -> (k <= Py.round_half_even x)%Z.
Proof.
  intros H. assert (Hf : (k <= Qfloor x)%Z).
  { rewrite <- (Qfloor_Z k). now apply Qfloor_resp_le. }
  unfold Py.round_half_even.
  destruct (Py.lt _ _); [lia|]. destruct (Py.gt _ _); [lia|].
  destruct (Z.even _); lia.
Qed.

Lemma round_half_even_le (k : Z) (x : Q) :
  x <= inject_Z k -> (Py.round_half_even x <= k)%Z.
Proof.
  intros H. assert (Hf : (Qfloor x <= k)%Z).
  { rewrite <- (Qfloor_Z k). now apply Qfloor_resp_le. }
  unfold Py.round_half_even.
  destruct (Py.lt _ _) eqn:E; [lia|]. apply lt_false in E.
  assert (Hlt : (Qfloor x < k)%Z).
  { destruct (Z.eq_dec (Qfloor x) k) as [Heq|]; [|lia].
    exfalso. rewrite Heq in E. lra. }
  destruct (Py.gt _ _); [lia|]. destruct (Z.even _); lia.
Qed.

Lemma round2_bounds (a b : Z) (x : Q) :
  inject_Z a / 100 <= x <= inject_Z b / 100 ->
  inject_Z a / 100 <= Py.round x 2 <= inject_Z b / 100.
Proof.
  intros [Ha Hb]. unfold Py.round.
  change (inject_Z (10 ^ Z.of_nat 2)) with 100.
  rewrite Qred_correct.
  assert (H1 : (a <= Py.round_half_even (x * 100))%Z).
  { apply round_half_even_ge. clear Hb. revert Ha. generalize (inject_Z a). intros; qlra. }
  assert (H2 : (Py.round_half_even (x * 100) <= b)%Z).
  { apply round_half_even_le. clear Ha. revert Hb. generalize (inject_Z b). intros; qlra. }
  rewrite Zle_Qle in H1, H2. clear Ha Hb. revert H1 H2.
  generalize (inject_Z a) (inject_Z b) (inject_Z (Py.round_half_even (x * 100))).
  intros; qlra.
Qed.


Lemma round2_between (a b : Z) (lo hi x : Q) :
  lo == inject_Z a / 100 -> hi == inject_Z b / 100 ->
  lo <= x <= hi -> lo <= Py.round x 2 <= hi.
Proof.
  intros Hlo Hhi H. rewrite Hlo, Hhi in *. now apply round2_bounds.
Qed.

(** ** Means of non-negative arrays *)

Lemma sum_nonneg (l : list Q) : Forall (fun x => 0 <= x) l -> 0 <= Np.sum l.
Proof.
  induction 1 as [|x l Hx _ IH]; simpl; [lra|].
  change (0 <= x + Np.sum l). lra.
Qed.

Lemma div_nonneg (a b : Q) : 0 <= a -> 0 <= b -> 0 <= a / b.
Proof.
  intros Ha Hb. unfold Qdiv. apply Qmult_le_0_compat; [assumption|].
  now apply Qinv_le_0_compat.
Qed.

Lemma mean_nonneg (l : list Q) : Forall (fun x => 0 <= x) l -> 0 <= Np.mean l.
Proof.
  intros H. unfold Np.mean. apply div_nonneg; [now apply sum_nonneg|].
  change 0 with (inject_Z 0). rewrite <- Zle_Qle. lia.
Qed.

Lemma to_float_nonneg (g : Np.grid N) :
  Forall (fun x => 0 <= x) (concat (Np.to_float g)).
Proof.
  unfold Np.to_float, Np.gmap. induction g as [|r g IH]; simpl; [constructor|].
  apply Forall_app. split; [|exact IH].
  apply Forall_forall. intros x Hx. apply in_map_iff in Hx as [p [<- _]].
  unfold Np.of_uint8. change 0 with (inject_Z 0). rewrite <- Zle_Qle. lia.
Qed.

Lemma gmean_to_float_nonneg (g : Np.grid N) : 0 <= Np.gmean (Np.to_float g).
Proof. apply mean_nonneg, to_float_nonneg. Qed.

(** ** The writer monad *)

Lemma fst_tbind {A B} (m : traced A) (k : A -> traced B) :
  fst (tbind m k) = fst (k (fst m)).
Proof. unfold tbind. destruct m as [x l]. simpl. now destruct (k x). Qed.

Lemma snd_tbind {A B} (m : traced A) (k : A -> traced B) :
  snd (tbind m k) = snd m ++ snd (k (fst m)).
Proof. unfold tbind. destruct m as [x l]. simpl. now destruct (k x). Qed.

(** ** Shape of the planar analyzer *)

Lemma analyze_image_cases img hint pmap :
  (exists f, Cnn.extract img = inr f /\
     Cnn.analyze_image img hint pmap =
       Cnn.report f (gem_of_hint hint) (fst (Cnn.classify f hint pmap)) /\
     Cnn.analyze_trace img hint pmap = snd (Cnn.classify f hint pmap)) \/
  (exists e, Cnn.extract img = inl e /\
     Cnn.analyze_image img hint pmap = Cnn.Fallback 0 (72 # 100) "Normal" e /\
     Cnn.analyze_trace img hint pmap = []).
Proof.
  unfold Cnn.analyze_image, Cnn.analyze_trace, Cnn.analyze_body.
  destruct (Cnn.extract img) as [e|f]; simpl.
  - right. exists e. auto.
  - left. exists f. destruct (Cnn.classify f hint pmap). auto.
Qed.

Lemma classify_fst f hint pmap :
  fst (Cnn.classify f hint pmap) =
  Cnn.clamp_confidence (fst (Cnn.bias_correction f (Cnn.before_bias f hint pmap))).
Proof.
  unfold Cnn.classify, Cnn.before_bias. now rewrite !fst_tbind.
Qed.

Lemma clamp_range st :
  55 # 100 <= Cnn.confidence (Cnn.clamp_confidence st) <= 93 # 100.
Proof.
  simpl. split.
  - apply Q.le_max_l.
  - apply Q.max_lub; [lra|]. apply Q.le_min_l.
Qed.

Lemma mri_cases gray hint backend :
  (exists c, Mri.heuristics gray = inr c /\
     Mri.analyze_image gray hint backend = Mri.report (gem_of_hint hint) backend c) \/
  (exists e, Mri.heuristics gray = inl e /\
     Mri.analyze_image gray hint backend = Mri.Failure "mri - analysis error" 0 e).
Proof.
  unfold Mri.analyze_image. destruct (Mri.heuristics gray) as [e|c]; eauto.
Qed.

Lemma ct_cases gray hint backend :
  (exists c, Ct.heuristics gray = inr c /\
     Ct.analyze_image gray hint backend = Ct.report (gem_of_hint hint) backend c) \/
  (exists e, Ct.heuristics gray = inl e /\
     Ct.analyze_image gray hint backend = Ct.Failure "ct - analysis error" 0 e).
Proof.
  unfold Ct.analyze_image. destruct (Ct.heuristics gray) as [e|c]; eauto.
Qed.

Lemma bind_inr {A B} (m : exc A) (k : A -> exc B) (y : B) :
  bind m k = inr y -> exists x, m = inr x /\ k x = inr y.
Proof. destruct m as [e|x]; simpl; [discriminate|eauto]. Qed.

Lemma ret_inr {A} (x y : A) : ret x = inr y -> x = y.
Proof. unfold ret. congruence. Qed.

Lemma lesion_score_nonneg gray s :
  Snapshot.lesion_score_of gray = inr s -> 0 <= s.
Proof.
  unfold Snapshot.lesion_score_of. intros H.
  apply bind_inr in H as [lv [_ H]]. apply bind_inr in H as [q [_ H]].
  apply ret_inr in H as <-. apply Q.le_max_l.
Qed.

Lemma mri_cues_nonneg gray c :
  Mri.heuristics gray = inr c ->
  0 <= Mri.lesion_score c /\ 0 <= Mri.lateral_diff c.
Proof.
  unfold Mri.heuristics. intros H.
  apply bind_inr in H as [s [Hs H]]. apply bind_inr in H as [m [_ H]].
  apply ret_inr in H as <-. cbn [Mri.lesion_score Mri.lateral_diff]. split.
  - eapply lesion_score_nonneg; eassumption.
  - apply div_nonneg; [apply Qabs_nonneg|].
    pose proof (gmean_to_float_nonneg gray). unfold eps. lra.
Qed.

Lemma ct_cues_nonneg gray c :
  Ct.heuristics gray = inr c -> 0 <= Ct.lesion_score c.
Proof.
  unfold Ct.heuristics. intros H.
  apply bind_inr in H as [s [Hs H]]. apply bind_inr in H as [m [_ H]].
  apply ret_inr in H as <-. cbn [Ct.lesion_score]. eapply lesion_score_nonneg; eassumption.
Qed.

(** C2. Every returned confidence lies in the range of its path: [0.55, 0.93]
    for the planar analyzer, the value 0.72 of its exception handler
    included, and [0, 0.95] for the CT and the MRI analyzer, whatever the
    image, the answer of the vision assistant and the pretrained map. *)
Theorem confidence_within_documented_range :
  (forall img hint pmap,
     55 # 100 <= Cnn.get_confidence (Cnn.analyze_image img hint pmap) <= 93 # 100) /\
  (forall gray hint backend,
     0 <= Ct.get_confidence (Ct.analyze_image gray hint backend) <= 95 # 100) /\
  (forall gray hint backend,
     0 <= Mri.get_confidence (Mri.analyze_image gray hint backend) <= 95 # 100).
Proof.
  split; [|split].
  - intros img hint pmap.
    destruct (analyze_image_cases img hint pmap)
      as [(f & _ & -> & _) | (e & _ & -> & _)]; simpl; [|lra].
    rewrite classify_fst.
    apply (round2_between 55 93); [reflexivity..|]. apply clamp_range.
  - intros gray hint backend.
    destruct (ct_cases gray hint backend) as [(c & Hc & ->) | (e & _ & ->)];
      simpl; [|lra].
    apply ct_cues_nonneg in Hc.
    apply (round2_between 0 95); [reflexivity..|].
    unfold Ct.raw_confidence. rewrite <- (float_le_r 0) in Hc. split.
    + apply Q.min_glb; lra.
    + apply Q.le_min_l.
  - intros gray hint backend.
    destruct (mri_cases gray hint backend) as [(c & Hc & ->) | (e & _ & ->)];
      simpl; [|lra].
    apply mri_cues_nonneg in Hc as [Hl Hd].
    apply (round2_between 0 95); [reflexivity..|].
    unfold Mri.raw_confidence. rewrite <- (float_le_r 0) in Hl. split.
    + apply Q.min_glb; [lra|].
      assert (0 <= Qmin (Mri.lateral_diff c) (2 # 10)) by (apply Q.min_glb; lra).
      lra.
    + apply Q.le_min_l.
Qed.


(** ** Probability vectors *)

Lemma clip_bounds x lo hi : lo <= hi -> lo <= Py.clip x lo hi <= hi.
Proof.
  intros H. unfold Py.clip. split.
  - apply Q.min_glb; [apply Q.le_max_r | assumption].
  - apply Q.le_min_r.
Qed.

Lemma max0_bounds x : x <= 1 -> 0 <= Qmax 0 x <= 1.
Proof.
  intros H. split; [apply Q.le_max_l | apply Q.max_lub; lra].
Qed.

Lemma abs_bounds x : -1 <= x <= 1 -> 0 <= Qabs x <= 1.
Proof.
  intros H. split; [apply Qabs_nonneg | apply Qabs_Qle_condition; lra].
Qed.

Lemma max0_nan_bounds (x : option Q) :
  (forall v, x = Some v -> v <= 1) -> 0 <= Py.max0_nan x <= 1.
Proof.
  destruct x as [v|]; simpl; intros H; [apply max0_bounds; auto | lra].
Qed.

Lemma heuristic_scores_bounds f :
  Forall (fun x => 0 <= x <= 1) (Cnn.heuristic_scores f).
Proof.
  unfold Cnn.heuristic_scores.
  pose proof (clip_bounds ((Cnn.brightness f - 90) / 60) (-1) 1 ltac:(lra)) as Hb.
  pose proof (clip_bounds ((Cnn.contrast f - 40) / 40) (-1) 1 ltac:(lra)) as Hc.
  pose proof (clip_bounds ((Cnn.sharpness f - 25) / 50) (-1) 1 ltac:(lra)) as Hs.
  pose proof (clip_bounds (Cnn.opacity_score f * 3) 0 1 ltac:(lra)) as Ho.
  assert (He : 0 <= Py.max0_nan
                 (option_map (fun e => Py.clip ((e - 25) / 40) (-1) 1) (Cnn.edge_score f))
               <= 1).
  { apply max0_nan_bounds. intros v Hv. destruct (Cnn.edge_score f) as [e|]; [|discriminate].
    injection Hv as <-. apply clip_bounds. lra. }
  apply abs_bounds in Hb.
  apply proj2, max0_bounds in Hc. apply proj2, max0_bounds in Hs.
  revert Hb Hc Hs He Ho.
  generalize (Qabs (Py.clip ((Cnn.brightness f - 90) / 60) (-1) 1)).
  generalize (Qmax 0 (Py.clip ((Cnn.contrast f - 40) / 40) (-1) 1)).
  generalize (Qmax 0 (Py.clip ((Cnn.sharpness f - 25) / 50) (-1) 1)).
  generalize (Py.max0_nan
                (option_map (fun e => Py.clip ((e - 25) / 40) (-1) 1) (Cnn.edge_score f))).
  generalize (Py.clip (Cnn.opacity_score f * 3) 0 1).
  intros o e s c b Hb Hc Hs He Ho.
  repeat constructor; lra.
Qed.

Lemma sum_map_div (s : Q) (v : list Q) :
  Np.sum (map (fun x => x / s) v) == Np.sum v / s.
Proof.
  induction v as [|x v IH]; simpl.
  - unfold Qdiv. ring.
  - change (x / s + Np.sum (map (fun x => x / s) v) == (x + Np.sum v) / s).
    rewrite IH. unfold Qdiv. ring.
Qed.

Lemma sum_ge (m : Q) (v : list Q) :
  0 <= m -> v <> [] -> Forall (fun x => m <= x) v -> m <= Np.sum v.
Proof.
  intros Hm Hne H. induction H as [|x v Hx Hv IH]; [congruence|].
  change (m <= x + Np.sum v). destruct v as [|y v].
  - simpl. lra.
  - assert (m <= Np.sum (y :: v)) by (apply IH; discriminate). lra.
Qed.

(** [vec / vec.sum()] is a probability vector when every entry is at
    least [m > 0] and the entries sum to at most [M]. *)
Lemma normalize_distribution (m M : Q) (v : list Q) :
  0 < m -> length v = 4%nat -> Forall (fun x => m <= x) v -> Np.sum v <= M ->
  distribution (m / M) (Cnn.normalize v).
Proof.
  intros Hm Hlen Hv HM.
  assert (Hs : m <= Np.sum v).
  { apply sum_ge; [lra| |assumption]. intros ->. discriminate. }
  assert (Hs0 : 0 < Np.sum v) by lra.
  assert (HM0 : 0 < M) by lra.
  unfold distribution, Cnn.normalize. split; [|split].
  - now rewrite length_map.
  - rewrite sum_map_div. field. lra.
  - apply Forall_map. eapply Forall_impl; [|exact Hv].
    intros x Hx. cbv beta.
    apply Qle_shift_div_l; [assumption|].
    apply Qle_trans with m; [|assumption].
    assert (Hq : 0 < m / M) by (apply Qlt_shift_div_l; lra).
    apply Qle_trans with (m / M * M).
    + now apply Qmult_le_l.
    + apply Qle_lteq. right. field. lra.
Qed.

Lemma distribution_weaken (lo lo' : Q) (v : list Q) :
  lo' <= lo -> distribution lo v -> distribution lo' v.
Proof.
  intros H (Hl & Hs & Hf). repeat split; try assumption.
  eapply Forall_impl; [|exact Hf]. intros x Hx. cbv beta in *. lra.
Qed.

Lemma distribution_le_1 (lo : Q) (v : list Q) :
  0 <= lo -> distribution lo v -> Forall (fun x => lo <= x <= 1) v.
Proof.
  intros Hlo (Hl & Hs & Hf).
  destruct v as [|a [|b [|c [|d [|? ?]]]]]; try discriminate.
  inversion Hf as [|? ? Ha Hf1]; subst. inversion Hf1 as [|? ? Hb Hf2]; subst.
  inversion Hf2 as [|? ? Hc Hf3]; subst. inversion Hf3 as [|? ? Hd _]; subst.
  cbn [Np.sum fold_right] in Hs.
  repeat constructor; lra.
Qed.

Lemma heuristic_vec_distribution f :
  distribution lo_heur
    (Cnn.normalize (map (fun x => Qmax x eps) (Cnn.heuristic_scores f))).
Proof.
  pose proof (heuristic_scores_bounds f) as H.
  assert (Hlen : length (Cnn.heuristic_scores f) = 4%nat) by reflexivity.
  destruct (Cnn.heuristic_scores f) as [|a [|b [|c [|d [|? ?]]]]]; try discriminate.
  inversion H as [|? ? Ha H1]; subst. inversion H1 as [|? ? Hb H2]; subst.
  inversion H2 as [|? ? Hc H3]; subst. inversion H3 as [|? ? Hd _]; subst.
  assert (Hmax : forall x, 0 <= x <= 1 -> eps <= Qmax x eps <= 1).
  { intros x Hx. split; [apply Q.le_max_r|]. apply Q.max_lub; [lra|]. unfold eps. lra. }
  apply Hmax in Ha, Hb, Hc, Hd.
  apply normalize_distribution.
  - reflexivity.
  - reflexivity.
  - repeat constructor; tauto.
  - cbn [map Np.sum fold_right]. lra.
Qed.


(** ** The stages of [classify], one by one *)

Lemma fst_tell {A} (e : event) (m : traced A) : fst (tell e ;;; m) = fst m.
Proof. unfold tbind, tell. now destruct m. Qed.

Lemma snd_tell {A} (e : event) (m : traced A) : snd (tell e ;;; m) = e :: snd m.
Proof. unfold tbind, tell. now destruct m. Qed.

Lemma heuristic_probs_fst f : fst (Cnn.heuristic_probs f) = summary (heur_vec f).
Proof. unfold Cnn.heuristic_probs. now rewrite fst_tell. Qed.

Lemma blend_pretrained_fst f pmap :
  fst (Cnn.blend_pretrained pmap (summary (heur_vec f))) = summary (blend_vec f pmap).
Proof.
  destruct pmap as [pm|]; [|reflexivity].
  unfold Cnn.blend_pretrained, summary. now rewrite fst_tell.
Qed.

Lemma init_modality_fst v :
  fst (Cnn.init_modality (summary v)) =
  {| Cnn.vec := v; Cnn.predicted_idx := Cnn.argmax v;
     Cnn.confidence := Py.float (Cnn.at_ v (Cnn.argmax v));
     Cnn.modality := "chest-xray"; Cnn.modality_conf := 85 # 100 |}.
Proof. unfold Cnn.init_modality, summary. now rewrite fst_tell. Qed.

Lemma before_bias_eq f hint pmap :
  Cnn.before_bias f hint pmap =
  fst (Cnn.gemini_blend (gem_of_hint hint)
        (fst (Cnn.dental_override f (fst (Cnn.gate f hint))
               (fst (Cnn.init_modality (summary (blend_vec f pmap))))))).
Proof.
  unfold Cnn.before_bias. rewrite !fst_tbind.
  now rewrite heuristic_probs_fst, blend_pretrained_fst.
Qed.

Lemma forced_dental_distribution : distribution lo_blend Cnn.forced_dental.
Proof.
  split; [reflexivity|split; [reflexivity|]].
  repeat constructor; unfold lo_blend, lo_heur, eps; qlra.
Qed.

Lemma forced_gemini_distribution : distribution lo_blend Cnn.forced_gemini.
Proof.
  split; [reflexivity|split; [reflexivity|]].
  repeat constructor; unfold lo_blend, lo_heur, eps; qlra.
Qed.

Lemma pre_vec_distribution pm : distribution 0 (pre_vec pm).
Proof.
  unfold pre_vec. set (v := map (fun x => Qmax x eps) _). unfold Cnn.normalize.
  assert (Hv : Forall (fun x => eps <= x) v).
  { subst v. cbn [map]. repeat (apply Forall_cons; [apply Q.le_max_r|]). apply Forall_nil. }
  assert (Hs : eps <= Np.sum v).
  { apply sum_ge; [unfold eps; lra|discriminate|assumption]. }
  assert (Hs0 : 0 < Np.sum v) by (unfold eps in Hs; lra).
  split; [reflexivity|split].
  - rewrite sum_map_div. field. lra.
  - apply Forall_map. eapply Forall_impl; [|exact Hv]. intros x Hx. cbv beta in *.
    apply Qle_shift_div_l; [assumption|]. unfold eps in *. lra.
Qed.

Ltac four_entries v H :=
  destruct v as [|?a [|?b [|?c [|?d [|? ?]]]]]; try discriminate;
  inversion H as [|? ? ?Ha ?H1]; subst;
  match goal with H1 : Forall _ [_; _; _] |- _ =>
    inversion H1 as [|? ? ?Hb ?H2]; subst end;
  match goal with H2 : Forall _ [_; _] |- _ =>
    inversion H2 as [|? ? ?Hc ?H3]; subst end;
  match goal with H3 : Forall _ [_] |- _ =>
    inversion H3 as [|? ? ?Hd _]; subst end.

Lemma blend_vec_distribution f pmap : distribution lo_blend (blend_vec f pmap).
Proof.
  pose proof (heuristic_vec_distribution f) as Hh. fold (heur_vec f) in Hh.
  destruct pmap as [pm|]; cbn [blend_vec].
  - pose proof (pre_vec_distribution pm) as Hp.
    destruct Hp as (Hpl & Hps & Hpf). destruct Hh as (Hhl & Hhs & Hhf).
    four_entries (pre_vec pm) Hpf. four_entries (heur_vec f) Hhf.
    cbn [Np.sum fold_right] in Hps, Hhs.
    apply (distribution_weaken (lo_blend / 1)).
    { apply Qle_lteq. right. field. }
    assert (Hlo : 0 < lo_blend) by (unfold lo_blend, lo_heur, eps; qlra).
    apply normalize_distribution; [assumption|reflexivity| |].
    + cbn [Np.zip_with]. unfold lo_blend in *. repeat constructor; lra.
    + cbn [Np.zip_with Np.sum fold_right]. lra.
  - apply (distribution_weaken lo_heur); [unfold lo_blend, lo_heur, eps; qlra|exact Hh].
Qed.


Lemma non_chest_not_chest m :
  Cnn.non_chest_hint m = true -> String.eqb m "chest-xray" = false.
Proof.
  unfold Cnn.non_chest_hint. rewrite !orb_true_iff, !String.eqb_eq.
  intros [[-> | ->] | ->]; reflexivity.
Qed.

Lemma dental_like_eq f hint :
  dental_like f hint =
  match hint with
  | Some gv => Cnn.gemini_forces_dental gv || Cnn.dental_heuristic f
  | None => Cnn.dental_heuristic f
  end.
Proof.
  unfold dental_like, Cnn.gate. rewrite fst_tell.
  destruct hint as [gv|]; [|reflexivity].
  destruct (Cnn.gemini_forces_dental gv); [now rewrite fst_tell | reflexivity].
Qed.

(** The vector and the modality on entry to the bias correction. *)
Lemma before_bias_vec f hint pmap :
  Cnn.vec (Cnn.before_bias f hint pmap) =
  if hint_says_non_chest hint then Cnn.forced_gemini
  else if dental_like f hint then Cnn.forced_dental
  else blend_vec f pmap.
Proof.
  rewrite before_bias_eq. fold (dental_like f hint).
  unfold hint_says_non_chest, Cnn.gemini_blend.
  destruct (Py.nonempty _ && Py.truthy _); cbn [andb].
  - destruct (Cnn.non_chest_hint _) eqn:E.
    + rewrite (non_chest_not_chest _ E). now rewrite !fst_tell.
    + destruct (String.eqb _ "chest-xray"); [rewrite fst_tell|]; cbn [fst Cnn.vec];
        unfold Cnn.dental_override; destruct (dental_like f hint);
        rewrite ?fst_tell, ?init_modality_fst; reflexivity.
  - cbn [fst]. unfold Cnn.dental_override. destruct (dental_like f hint);
      rewrite ?fst_tell, ?init_modality_fst; reflexivity.
Qed.

Lemma before_bias_modality f hint pmap :
  Cnn.modality (Cnn.before_bias f hint pmap) =
  if hint_says_chest hint then "chest-xray"
  else if hint_says_non_chest hint then "non-chest-xray (gemini)"
  else if dental_like f hint then "non-chest-xray (dental/panoramic likely)"
  else "chest-xray".
Proof.
  rewrite before_bias_eq. fold (dental_like f hint).
  unfold hint_says_chest, hint_says_non_chest, Cnn.gemini_blend.
  destruct (Py.nonempty _ && Py.truthy _); cbn [andb].
  - destruct (String.eqb _ "chest-xray") eqn:Ec.
    + now rewrite fst_tell.
    + destruct (Cnn.non_chest_hint _) eqn:E.
      * now rewrite !fst_tell.
      * cbn [fst]. unfold Cnn.dental_override. destruct (dental_like f hint);
          rewrite ?fst_tell, ?init_modality_fst; reflexivity.
  - cbn [fst]. unfold Cnn.dental_override. destruct (dental_like f hint);
      rewrite ?fst_tell, ?init_modality_fst; reflexivity.
Qed.

Lemma before_bias_distribution f hint pmap :
  distribution lo_blend (Cnn.vec (Cnn.before_bias f hint pmap)).
Proof.
  rewrite before_bias_vec.
  destruct (hint_says_non_chest hint); [apply forced_gemini_distribution|].
  destruct (dental_like f hint);
    [apply forced_dental_distribution | apply blend_vec_distribution].
Qed.

Lemma bias_vector_distribution v :
  distribution lo_blend v -> distribution lo_bias (Cnn.normalize (Cnn.bias_vector v)).
Proof.
  intros Hv. assert (Hlo : 0 < lo_blend) by (unfold lo_blend, lo_heur, eps; qlra).
  pose proof (distribution_le_1 _ _ (Qlt_le_weak _ _ Hlo) Hv) as Hb.
  destruct Hv as (Hl & Hs & _). four_entries v Hb.
  apply (distribution_weaken ((95 # 100) * lo_blend / 4)); [apply Qle_refl|].
  unfold Cnn.bias_vector, Cnn.at_. cbn [nth].
  pose proof (float_eq a) as Fa. pose proof (float_eq b) as Fb.
  pose proof (float_eq c) as Fc. pose proof (float_eq d) as Fd.
  revert Fa Fb Fc Fd.
  generalize (Py.float a) (Py.float b) (Py.float c) (Py.float d).
  intros a' b' c' d' Fa Fb Fc Fd.
  assert (Hx : 70 # 100 <= Qmax (70 # 100) (a' + (25 # 100)) <= 125 # 100).
  { split; [apply Q.le_max_l | apply Q.max_lub; lra]. }
  assert (Hy : 2 # 100 <= Qmax (2 # 100) (b' - (20 # 100)) <= 80 # 100).
  { split; [apply Q.le_max_l | apply Q.max_lub; lra]. }
  revert Hx Hy.
  generalize (Qmax (70 # 100) (a' + (25 # 100))) (Qmax (2 # 100) (b' - (20 # 100))).
  intros x y Hx Hy.
  apply normalize_distribution.
  - lra.
  - reflexivity.
  - unfold lo_blend, lo_heur, eps in *. repeat constructor; qlra.
  - cbn [Np.sum fold_right]. lra.
Qed.

(** The vector that [analyze_image] returns. *)
Lemma classify_vec f hint pmap :
  Cnn.vec (fst (Cnn.classify f hint pmap)) =
  if Cnn.bias_applies f (Cnn.before_bias f hint pmap)
  then Cnn.normalize (Cnn.bias_vector (Cnn.vec (Cnn.before_bias f hint pmap)))
  else Cnn.vec (Cnn.before_bias f hint pmap).
Proof.
  rewrite classify_fst. unfold Cnn.bias_correction.
  destruct (Cnn.bias_applies _ _); [now rewrite fst_tell | reflexivity].
Qed.

Lemma classify_distribution f hint pmap :
  distribution lo_bias (Cnn.vec (fst (Cnn.classify f hint pmap))).
Proof.
  rewrite classify_vec. pose proof (before_bias_distribution f hint pmap) as H.
  destruct (Cnn.bias_applies _ _).
  - now apply bias_vector_distribution.
  - apply (distribution_weaken lo_blend); [|exact H].
    unfold lo_bias, lo_blend, lo_heur, eps. qlra.
Qed.

Lemma sum_map_float v : Np.sum (map Py.float v) == Np.sum v.
Proof.
  induction v as [|x v IH]; simpl; [reflexivity|].
  change (Py.float x + Np.sum (map Py.float v) == x + Np.sum v).
  now rewrite IH, float_eq.
Qed.

Lemma map_snd_combine {A B} (l1 : list A) (l2 : list B) :
  length l1 = length l2 -> map snd (combine l1 l2) = l2.
Proof.
  revert l2. induction l1 as [|a l1 IH]; intros [|b l2] H; try discriminate.
  - reflexivity.
  - simpl. f_equal. apply IH. now injection H.
Qed.

Lemma map_fst_combine {A B} (l1 : list A) (l2 : list B) :
  length l1 = length l2 -> map fst (combine l1 l2) = l1.
Proof.
  revert l2. induction l1 as [|a l1 IH]; intros [|b l2] H; try discriminate.
  - reflexivity.
  - simpl. f_equal. apply IH. now injection H.
Qed.

(** C1, on every report. *)
Lemma report_probabilities f g st :
  distribution lo_bias (Cnn.vec st) ->
  exists probs,
    Cnn.get_probabilities (Cnn.report f g st) = Some probs /\
    map fst probs = Cnn.class_names /\
    Qabs (Np.sum (map snd probs) - 1) <= eps /\
    Forall (fun kv => 1 # 100000000 <= snd kv) probs.
Proof.
  intros (Hl & Hs & Hf). eexists. split; [reflexivity|].
  assert (Hlen : length Cnn.class_names = length (map Py.float (Cnn.vec st))).
  { now rewrite length_map, Hl. }
  split; [now apply map_fst_combine|]. split.
  - rewrite (map_snd_combine _ _ Hlen), sum_map_float, Hs.
    unfold eps. simpl. lra.
  - rewrite <- (Forall_map snd (fun x => 1 # 100000000 <= x)).
    rewrite (map_snd_combine _ _ Hlen). apply Forall_map.
    eapply Forall_impl; [|exact Hf]. intros x Hx. cbv beta in *.
    apply float_le_r. unfold lo_bias, lo_blend, lo_heur, eps in Hx.
    revert Hx. qlra.
Qed.


(** ** Shapes and entries of arrays *)

Lemma grid_of_impl {A} (P Q : A -> Prop) h w (g : Np.grid A) :
  (forall x, P x -> Q x) -> grid_of h w P g -> grid_of h w Q g.
Proof.
  intros HPQ [Hl Hf]. split; [assumption|].
  eapply Forall_impl; [|exact Hf]. intros r [Hr HP]. split; [assumption|].
  eapply Forall_impl; eauto.
Qed.

Lemma grid_of_uniform {A} (P : A -> Prop) h w (c : A) :
  P c -> grid_of h w P (Np.uniform h w c).
Proof.
  intros Hc. unfold Np.uniform. split; [apply repeat_length|].
  apply Forall_forall. intros r Hr. apply repeat_spec in Hr. subst r.
  split; [apply repeat_length|]. apply Forall_forall. intros x Hx.
  now apply repeat_spec in Hx; subst.
Qed.

Lemma Forall_eq_repeat {A} (c : A) (l : list A) :
  Forall (eq c) l -> l = repeat c (length l).
Proof. induction 1 as [|x l <- _ IH]; simpl; [reflexivity|now f_equal]. Qed.

Lemma grid_of_eq_uniform {A} h w (c : A) (g : Np.grid A) :
  grid_of h w (eq c) g -> g = Np.uniform h w c.
Proof.
  intros [Hl Hf]. unfold Np.uniform. subst h.
  induction Hf as [|r g [Hr Hc] _ IH]; simpl; [reflexivity|].
  f_equal; [|exact IH]. subst w. now apply Forall_eq_repeat.
Qed.

Lemma grid_of_gmap {A B} (f : A -> B) (P : A -> Prop) (Q : B -> Prop) h w g :
  (forall x, P x -> Q (f x)) -> grid_of h w P g -> grid_of h w Q (Np.gmap f g).
Proof.
  intros Hf [Hl Hg]. unfold Np.gmap. split; [now rewrite length_map|].
  apply Forall_map. eapply Forall_impl; [|exact Hg]. intros r [Hr HP]. cbv beta.
  split; [now rewrite length_map|]. apply Forall_map.
  eapply Forall_impl; eauto.
Qed.

Lemma Forall_zip_with {A B C} (f : A -> B -> C) (P : A -> Prop) (Q : B -> Prop)
    (R : C -> Prop) (l1 : list A) (l2 : list B) :
  (forall x y, P x -> Q y -> R (f x y)) ->
  Forall P l1 -> Forall Q l2 -> Forall R (Np.zip_with f l1 l2).
Proof.
  intros Hf H1. revert l2. induction H1 as [|x l1 Hx _ IH]; intros l2 H2.
  - constructor.
  - destruct H2 as [|y l2 Hy H2]; simpl; constructor; auto.
Qed.

Lemma length_zip_with {A B C} (f : A -> B -> C) (l1 : list A) (l2 : list B) :
  length (Np.zip_with f l1 l2) = Nat.min (length l1) (length l2).
Proof.
  revert l2. induction l1 as [|x l1 IH]; intros [|y l2]; simpl; auto.
Qed.

Lemma grid_of_gmap2 {A B C} (f : A -> B -> C) (P : A -> Prop) (Q : B -> Prop)
    (R : C -> Prop) h w g1 g2 :
  (forall x y, P x -> Q y -> R (f x y)) ->
  grid_of h w P g1 -> grid_of h w Q g2 -> grid_of h w R (Np.gmap2 f g1 g2).
Proof.
  intros Hf [Hl1 Hg1] [Hl2 Hg2]. unfold Np.gmap2. split.
  - rewrite length_zip_with. lia.
  - eapply Forall_zip_with; [|exact Hg1|exact Hg2].
    intros r1 r2 [Hr1 HP] [Hr2 HQ]. cbv beta. split.
    + rewrite length_zip_with. lia.
    + eapply Forall_zip_with; eauto.
Qed.

Lemma length_slice {A} a b (l : list A) :
  length (Np.slice a b l) = Nat.min (b - a) (length l - a).
Proof. unfold Np.slice. now rewrite length_firstn, length_skipn. Qed.

Lemma Forall_slice {A} (P : A -> Prop) a b (l : list A) :
  Forall P l -> Forall P (Np.slice a b l).
Proof.
  intros H. unfold Np.slice.
  rewrite <- (firstn_skipn a l) in H. apply Forall_app in H as [_ H].
  rewrite <- (firstn_skipn (b - a) (skipn a l)) in H. now apply Forall_app in H.
Qed.

Lemma grid_of_rows {A} (P : A -> Prop) h w a b (g : Np.grid A) :
  grid_of h w P g -> (b <= h)%nat -> grid_of (b - a) w P (Np.rows a b g).
Proof.
  intros [Hl Hg] Hb. unfold Np.rows. split.
  - rewrite length_slice. lia.
  - now apply Forall_slice.
Qed.

Lemma grid_of_cols {A} (P : A -> Prop) h w c d (g : Np.grid A) :
  grid_of h w P g -> (d <= w)%nat -> grid_of h (d - c) P (Np.cols c d g).
Proof.
  intros [Hl Hg] Hd. unfold Np.cols. split; [now rewrite length_map|].
  apply Forall_map. eapply Forall_impl; [|exact Hg]. intros r [Hr HP]. cbv beta.
  split; [rewrite length_slice; lia | now apply Forall_slice].
Qed.

Lemma grid_of_window {A} (P : A -> Prop) h w a b c d (g : Np.grid A) :
  grid_of h w P g -> (b <= h)%nat -> (d <= w)%nat ->
  grid_of (b - a) (d - c) P (Np.window a b c d g).
Proof.
  intros Hg Hb Hd. unfold Np.window.
  apply (grid_of_cols P (b - a) w); [|assumption]. now apply (grid_of_rows P h).
Qed.

(** *** Padding *)

Lemma map_exc_ok {A B} (f : A -> exc B) (P : A -> Prop) (Q : B -> Prop) (l : list A) :
  (forall x, P x -> exists y, f x = inr y /\ Q y) ->
  Forall P l ->
  exists l', Np.map_exc f l = inr l' /\ length l' = length l /\ Forall Q l'.
Proof.
  intros Hf H. induction H as [|x l Hx _ (l' & E & Hl & HQ)]; simpl.
  - exists []. repeat split. constructor.
  - destruct (Hf x Hx) as (y & Ey & Hy). rewrite Ey. simpl. rewrite E. simpl.
    exists (y :: l'). repeat split; [simpl; now f_equal | now constructor].
Qed.

Lemma pad_edge_axis_ok {A} (P : A -> Prop) ax before after (l : list A) :
  l <> [] -> Forall P l ->
  exists l', Np.pad_edge_axis ax before after l = inr l' /\
             length l' = (before + length l + after)%nat /\ Forall P l'.
Proof.
  intros Hne H. destruct l as [|x l]; [congruence|].
  eexists. split; [reflexivity|]. split.
  - rewrite !length_app, !repeat_length. lia.
  - assert (Hx : P x) by now inversion H.
    assert (Hlast : P (last (x :: l) x)).
    { rewrite Forall_forall in H. apply H.
      destruct (exists_last (l := x :: l)) as (l0 & y & E); [discriminate|].
      rewrite E, last_last, <- E. rewrite E. apply in_or_app. right. now left. }
    apply Forall_app. split; [|apply Forall_app; split; [assumption|]];
      apply Forall_forall; intros y Hy; apply repeat_spec in Hy; now subst.
Qed.

Lemma pad_edge_ok {A} (P : A -> Prop) h w top bottom left right (g : Np.grid A) :
  grid_of h w P g -> (0 < h)%nat -> (0 < w)%nat ->
  exists g', Np.pad_edge top bottom left right g = inr g' /\
             grid_of (top + h + bottom) (left + w + right) P g'.
Proof.
  intros [Hl Hg] Hh Hw. unfold Np.pad_edge.
  destruct (pad_edge_axis_ok (fun r => length r = w /\ Forall P r) "0" top bottom g)
    as (g1 & E1 & Hl1 & Hg1); [intros ->; simpl in Hl; lia | assumption |].
  rewrite E1. simpl.
  destruct (map_exc_ok (Np.pad_edge_axis "1" left right)
              (fun r => length r = w /\ Forall P r)
              (fun r => length r = (left + w + right)%nat /\ Forall P r) g1)
    as (g2 & E2 & Hl2 & Hg2); [|assumption|].
  - intros r [Hr HP].
    destruct (pad_edge_axis_ok P "1" left right r) as (r' & E & Hl' & HP');
      [intros ->; simpl in Hr; lia | assumption |].
    exists r'. rewrite Hr in Hl'. auto.
  - exists g2. split; [assumption|]. split; [lia|assumption].
Qed.

Lemma pad_reflect_axis_ok {A} (P : A -> Prop) ax p (l : list A) :
  l <> [] -> Forall P l ->
  exists l', Np.pad_reflect_axis ax p l = inr l' /\
             length l' = (length l + 2 * p)%nat /\ Forall P l'.
Proof.
  intros Hne H. destruct l as [|x l]; [congruence|].
  eexists. split; [reflexivity|]. split.
  - now rewrite length_map, length_seq.
  - apply Forall_map. apply Forall_forall. intros i _.
    assert (Hx : P x) by now inversion H.
    rewrite Forall_forall in H.
    destruct (nth_in_or_default (Np.reflect_index (Z.of_nat i - Z.of_nat p)
                                   (length (x :: l))) (x :: l) x) as [Hin | ->]; auto.
Qed.

Lemma pad_reflect_ok {A} (P : A -> Prop) h w py px (g : Np.grid A) :
  grid_of h w P g -> (0 < h)%nat -> (0 < w)%nat ->
  exists g', Np.pad_reflect py px g = inr g' /\
             grid_of (h + 2 * py) (w + 2 * px) P g'.
Proof.
  intros [Hl Hg] Hh Hw. unfold Np.pad_reflect.
  destruct (pad_reflect_axis_ok (fun r => length r = w /\ Forall P r) "0" py g)
    as (g1 & E1 & Hl1 & Hg1); [intros ->; simpl in Hl; lia | assumption |].
  rewrite E1. simpl.
  destruct (map_exc_ok (Np.pad_reflect_axis "1" px)
              (fun r => length r = w /\ Forall P r)
              (fun r => length r = (w + 2 * px)%nat /\ Forall P r) g1)
    as (g2 & E2 & Hl2 & Hg2); [|assumption|].
  - intros r [Hr HP].
    destruct (pad_reflect_axis_ok P "1" px r) as (r' & E & Hl' & HP');
      [intros ->; simpl in Hr; lia | assumption |].
    exists r'. rewrite Hr in Hl'. auto.
  - exists g2. split; [assumption|]. split; [lia|assumption].
Qed.


(** *** The median filter *)

Lemma height_grid_of {A} (P : A -> Prop) h w (g : Np.grid A) :
  grid_of h w P g -> Np.height g = h.
Proof. now intros [Hl _]. Qed.

Lemma width_grid_of {A} (P : A -> Prop) h w (g : Np.grid A) :
  grid_of h w P g -> (0 < h)%nat -> Np.width g = w.
Proof.
  intros [Hl Hg] Hh. destruct g as [|r g]; [simpl in Hl; lia|].
  simpl. now inversion Hg as [|? ? [Hr _] _].
Qed.

Lemma grid_of_stack {A} (P : A -> Prop) h w (patches : list (Np.grid A)) :
  Forall (grid_of h w P) patches ->
  grid_of h w (fun l => length l = length patches /\ Forall P l)
          (Np.stack h w patches).
Proof.
  unfold Np.stack. induction 1 as [|p ps Hp _ IH]; cbn [fold_right length].
  - apply grid_of_uniform. split; [reflexivity|constructor].
  - eapply grid_of_gmap2; [|exact Hp|exact IH].
    intros x l Hx [Hl HP]. split; [simpl; now f_equal | now constructor].
Qed.

Lemma length_flat_map_const {A B} (f : A -> list B) (l : list A) (n : nat) :
  (forall x, length (f x) = n) -> length (flat_map f l) = (length l * n)%nat.
Proof.
  intros Hf. induction l as [|x l IH]; simpl; [reflexivity|].
  now rewrite length_app, Hf, IH.
Qed.

Lemma Forall_flat_map {A B} (P : B -> Prop) (f : A -> list B) (l : list A) :
  (forall x, In x l -> Forall P (f x)) -> Forall P (flat_map f l).
Proof.
  intros Hf. induction l as [|x l IH]; simpl; [constructor|].
  apply Forall_app. split; [apply Hf; now left | apply IH; intros; apply Hf; now right].
Qed.

Lemma median_ok (P : Q -> Prop) h w k (gray : Np.grid Q) :
  grid_of h w P gray -> (0 < h)%nat -> (0 < w)%nat ->
  exists m, Cnn._median gray k = inr m /\
    grid_of h w
      (fun z => exists l, length l = (k * k)%nat /\ Forall P l /\
                          z = Np.astype_uint8 (Np.median l)) m.
Proof.
  intros Hg Hh Hw. unfold Cnn._median.
  destruct (pad_edge_ok P h w (k / 2) (k / 2) (k / 2) (k / 2) gray Hg Hh Hw)
    as (padded & -> & Hp).
  cbn [bind]. eexists. split; [reflexivity|].
  rewrite (height_grid_of _ _ _ _ Hg), (width_grid_of _ _ _ _ Hg Hh).
  set (patches := flat_map _ _).
  assert (Hlen : length patches = (k * k)%nat).
  { subst patches. rewrite (length_flat_map_const _ _ k).
    - now rewrite length_seq.
    - intros dy. now rewrite length_map, length_seq. }
  assert (Hpatches : Forall (grid_of h w P) patches).
  { subst patches. apply Forall_flat_map. intros dy Hdy.
    apply in_seq in Hdy. apply Forall_map, Forall_forall. intros dx Hdx.
    apply in_seq in Hdx.
    replace h with (dy + h - dy)%nat at 1 by lia.
    replace w with (dx + w - dx)%nat at 1 by lia.
    pose proof (Nat.div_mod_eq k 2). pose proof (Nat.mod_upper_bound k 2).
    eapply grid_of_window; [exact Hp|lia|lia]. }
  eapply grid_of_gmap; [|apply grid_of_stack; exact Hpatches].
  intros l [Hl HP]. exists l. rewrite Hl, Hlen. auto.
Qed.

(** *** Convolution and local variance *)

Lemma convolve_ok (P R : Q -> Prop) h w (img kernel : Np.grid Q) :
  grid_of h w P img -> (0 < h)%nat -> (0 < w)%nat ->
  R 0 -> (forall acc k x, R acc -> P x -> R (acc + k * x)) ->
  exists out, Cnn._convolve img kernel = inr out /\ grid_of h w R out.
Proof.
  intros Hg Hh Hw R0 Rstep. unfold Cnn._convolve.
  destruct (pad_reflect_ok P h w (Np.height kernel / 2) (Np.width kernel / 2) img Hg Hh Hw)
    as (src & -> & Hsrc).
  cbn [bind]. eexists. split; [reflexivity|].
  rewrite (height_grid_of _ _ _ _ Hg), (width_grid_of _ _ _ _ Hg Hh).
  set (offsets := flat_map _ _).
  assert (Hoff : Forall (fun yx => fst yx < Np.height kernel /\ snd yx < Np.width kernel)%nat
                        offsets).
  { subst offsets. apply Forall_flat_map. intros y Hy. apply in_seq in Hy.
    apply Forall_map, Forall_forall. intros x Hx. apply in_seq in Hx. simpl. lia. }
  assert (Hinit : grid_of h w R (Np.uniform h w 0)) by now apply grid_of_uniform.
  revert Hinit. generalize (Np.uniform h w 0).
  induction Hoff as [|[y x] offs [Hy Hx] _ IH]; intros out Hout; cbn [fold_left].
  - exact Hout.
  - apply IH. simpl in Hy, Hx.
    pose proof (Nat.div_mod_eq (Np.height kernel) 2).
    pose proof (Nat.mod_upper_bound (Np.height kernel) 2).
    pose proof (Nat.div_mod_eq (Np.width kernel) 2).
    pose proof (Nat.mod_upper_bound (Np.width kernel) 2).
    apply (grid_of_gmap2 Qplus R
             (fun b => exists x0, P x0 /\ b = nth x (nth y kernel []) 0 * x0) R);
      [|exact Hout|].
    + intros a b Ha (x0 & Hx0 & ->). now apply Rstep.
    + apply (grid_of_gmap _ P); [intros x0 Hx0; now exists x0|].
      replace h with (y + h - y)%nat at 1 by lia.
      replace w with (x + w - x)%nat at 1 by lia.
      eapply grid_of_window; [exact Hsrc|lia|lia].
Qed.

Lemma local_variance_ok (P : N -> Prop) h w k (gray : Np.grid N) :
  grid_of h w P gray -> (0 < h)%nat -> (0 < w)%nat ->
  exists lv, Cnn._local_variance gray k = inr lv /\ grid_of h w (fun _ => True) lv.
Proof.
  intros Hg Hh Hw. unfold Cnn._local_variance.
  assert (Hf : grid_of h w (fun _ => True) (Np.to_float gray)).
  { eapply grid_of_gmap; [|exact Hg]. auto. }
  destruct (pad_reflect_ok _ h w (k / 2) (k / 2) _ Hf Hh Hw) as (g' & -> & _).
  cbn [bind].
  destruct (convolve_ok (fun _ => True) (fun _ => True) h w (Np.to_float gray)
              (Np.uniform k k 1) Hf Hh Hw I (fun _ _ _ _ _ => I)) as (s1 & -> & H1).
  cbn [bind].
  assert (Hf2 : grid_of h w (fun _ => True)
                  (Np.gmap2 Qmult (Np.to_float gray) (Np.to_float gray))).
  { eapply grid_of_gmap2; [|exact Hf|exact Hf]. auto. }
  destruct (convolve_ok (fun _ => True) (fun _ => True) h w _
              (Np.uniform k k 1) Hf2 Hh Hw I (fun _ _ _ _ _ => I)) as (s2 & -> & H2).
  cbn [bind]. eexists. split; [reflexivity|].
  apply (grid_of_gmap2 _ (fun _ => True) (fun _ => True)); [auto| |].
  - apply (grid_of_gmap _ (fun _ => True)); [auto|exact H2].
  - apply (grid_of_gmap _ (fun _ => True)); [auto|exact H1].
Qed.

Lemma concat_grid_of_nonempty {A} (P : A -> Prop) h w (g : Np.grid A) :
  grid_of h w P g -> (0 < h)%nat -> (0 < w)%nat -> concat g <> [].
Proof.
  intros [Hl Hg] Hh Hw. destruct g as [|r g]; [simpl in Hl; lia|].
  inversion Hg as [|? ? [Hr _] _]; subst. destruct r; [simpl in Hw; lia|].
  discriminate.
Qed.

Lemma quantile_ok (l : list Q) (q : Q) : l <> [] -> exists x, Np.quantile l q = inr x.
Proof. destruct l; [congruence|]. intros _. eexists. reflexivity. Qed.

(** *** The feature extractor returns on every well-formed image *)

Lemma valid_grid_of {A} (g : Np.grid A) :
  valid_grid g = true ->
  grid_of (Np.height g) (Np.width g) (fun _ => True) g /\
  (0 < Np.height g)%nat /\ (0 < Np.width g)%nat.
Proof.
  unfold valid_grid, rectangular. rewrite !andb_true_iff, !Nat.ltb_lt, forallb_forall.
  intros [[Hh Hw] Hr]. repeat split; try assumption.
  apply Forall_forall. intros r Hin. split; [|apply Forall_forall; auto].
  apply Nat.eqb_eq. now apply Hr.
Qed.

Lemma to_gray_valid (img : Cnn.image) :
  valid_image img = true -> valid_grid (Cnn._to_gray img) = true.
Proof.
  destruct img as [arr|arr]; simpl; [auto|].
  intros H. apply valid_grid_of in H as (Hg & Hh & Hw).
  assert (Hg' : grid_of (Np.height arr) (Np.width arr) (fun _ : N => True)
                  (Np.gmap (fun px => Np.astype_uint8 (Np.mean (map Np.of_uint8 px))) arr)).
  { eapply grid_of_gmap; [|exact Hg]. auto. }
  unfold valid_grid, rectangular.
  rewrite (height_grid_of _ _ _ _ Hg'), (width_grid_of _ _ _ _ Hg' Hh).
  rewrite !andb_true_iff, !Nat.ltb_lt, forallb_forall. repeat split; try assumption.
  intros r Hin. apply Nat.eqb_eq. destruct Hg' as [_ Hf].
  rewrite Forall_forall in Hf. now apply Hf.
Qed.

Lemma extract_total (img : Cnn.image) :
  valid_image img = true -> exists f, Cnn.extract img = inr f.
Proof.
  intros Hv. apply to_gray_valid, valid_grid_of in Hv as (Hg & Hh & Hw).
  unfold Cnn.extract.
  set (gray := Cnn._to_gray img) in *.
  set (h := Np.height gray) in *. set (w := Np.width gray) in *.
  assert (Hf : grid_of h w (fun _ => True) (Np.to_float gray)).
  { eapply grid_of_gmap; [|exact Hg]. auto. }
  destruct (median_ok _ h w 3 _ Hf Hh Hw) as (blur & -> & Hblur). cbn [bind].
  assert (Heq : grid_of h w (fun _ => True) (Cnn._equalize blur)).
  { eapply grid_of_gmap; [|exact Hblur]. auto. }
  set (gray_eq := Cnn._equalize blur) in *.
  assert (Hfe : grid_of h w (fun _ => True) (Np.to_float gray_eq)).
  { eapply grid_of_gmap; [|exact Heq]. auto. }
  unfold Cnn._variance_of_laplacian.
  destruct (pad_edge_ok _ h w 0 0 1 0 _ Hfe Hh Hw) as (g1 & -> & _). cbn [bind].
  destruct (pad_edge_ok _ h w 0 0 0 1 _ Hfe Hh Hw) as (g2 & -> & _). cbn [bind].
  destruct (pad_edge_ok _ h w 1 0 0 0 _ Hfe Hh Hw) as (g3 & -> & _). cbn [bind].
  destruct (pad_edge_ok _ h w 0 1 0 0 _ Hfe Hh Hw) as (g4 & -> & _). cbn [bind].
  unfold Cnn._estimate_noise.
  destruct (median_ok _ h w 5 _ Hfe Hh Hw) as (med & -> & _). cbn [bind].
  destruct (local_variance_ok _ h w 15 _ Heq Hh Hw) as (lv & -> & Hlv). cbn [bind].
  destruct (quantile_ok (concat lv) (95 # 100)) as (q95 & ->).
  { eapply concat_grid_of_nonempty; eassumption. }
  cbn [bind]. unfold Cnn.py_div.
  destruct (Qeq_bool (inject_Z (Z.of_nat h)) 0) eqn:E.
  - apply Qeq_bool_eq in E. exfalso. revert E.
    change 0 with (inject_Z 0). rewrite inject_Z_injective. lia.
  - cbn [bind]. eexists. reflexivity.
Qed.


(** ** C1: the probability map *)

(** C1. For every well-formed input array (rectangular, at least one row
    and one column), whatever the vision assistant and the pretrained model
    answer, the planar analyzer returns a probability map over Normal,
    Pneumonia, Tumor and Fracture whose values sum to 1 within 1e-6 and are
    each at least 1e-8, hence strictly positive: in the heuristic-only
    branch, after the blend, after either override and after the bias
    correction. *)
Theorem probabilities_form_a_distribution :
  forall (img : Cnn.image) (hint : option vision_hint) (pmap : option pretrained_map),
    valid_image img = true ->
    exists probs,
      Cnn.get_probabilities (Cnn.analyze_image img hint pmap) = Some probs /\
      map fst probs = ["Normal"; "Pneumonia"; "Tumor"; "Fracture"] /\
      Qabs (Np.sum (map snd probs) - 1) <= 1 # 1000000 /\
      Forall (fun kv => 0 < snd kv /\ 1 # 100000000 <= snd kv) probs.
Proof.
  intros img hint pmap Hv.
  destruct (extract_total img Hv) as [f Hf].
  destruct (analyze_image_cases img hint pmap)
    as [(f' & Hf' & -> & _) | (e & He & _)]; [|congruence].
  destruct (report_probabilities f' (gem_of_hint hint) _
              (classify_distribution f' hint pmap)) as (probs & Hp & Hn & Hs & Hpos).
  exists probs. repeat split; try assumption.
  eapply Forall_impl; [|exact Hpos]. intros kv Hkv. cbv beta in *. split; lra.
Qed.

Lemma probabilities_form_a_distribution_witness :
  valid_image (Cnn.Gray [[7%N; 9%N]; [8%N; 200%N]]) = true /\
  exists probs,
    Cnn.get_probabilities
      (Cnn.analyze_image (Cnn.Gray [[7%N; 9%N]; [8%N; 200%N]]) None None) = Some probs /\
    map fst probs = ["Normal"; "Pneumonia"; "Tumor"; "Fracture"] /\
    Qabs (Np.sum (map snd probs) - 1) <= 1 # 1000000 /\
    Forall (fun kv => 0 < snd kv /\ 1 # 100000000 <= snd kv) probs.
Proof.
  split; [reflexivity|].
  apply (probabilities_form_a_distribution
           (Cnn.Gray [[7%N; 9%N]; [8%N; 200%N]]) None None).
  reflexivity.
Defined.


(** ** C6: the bias correction *)

Lemma classify_bias_applied f hint pmap :
  Cnn.bias_applies f (Cnn.before_bias f hint pmap) = true ->
  let v := Cnn.normalize (Cnn.bias_vector (Cnn.vec (Cnn.before_bias f hint pmap))) in
  fst (Cnn.classify f hint pmap) =
  {| Cnn.vec := v;
     Cnn.predicted_idx := Cnn.argmax v;
     Cnn.confidence :=
       Qmax (55 # 100) (Qmin (93 # 100) (Py.float (Py.float (Cnn.at_ v (Cnn.argmax v)))));
     Cnn.modality := Cnn.modality (Cnn.before_bias f hint pmap);
     Cnn.modality_conf := Cnn.modality_conf (Cnn.before_bias f hint pmap) |}.
Proof.
  intros H v. rewrite classify_fst. unfold Cnn.bias_correction. rewrite H.
  now rewrite fst_tell.
Qed.

(** C6, as the code has it. Whenever the modality on entry to the bias
    correction is chest-xray and the opacity score is below 0.22, the vector
    becomes [max(0.70, Normal + 0.25), max(0.02, Pneumonia - 0.20),
    0.95 * Tumor, 0.95 * Fracture] divided by its sum; the predicted class
    is the arg-max of that vector and the confidence its largest entry,
    clamped to [0.55, 0.93]. *)
Theorem bias_correction_adjusts_all_four :
  forall (f : Cnn.features) (hint : option vision_hint) (pmap : option pretrained_map),
    Cnn.modality (Cnn.before_bias f hint pmap) = "chest-xray" ->
    Cnn.opacity_score f < 22 # 100 ->
    let v0 := Cnn.vec (Cnn.before_bias f hint pmap) in
    let v :=
      Cnn.normalize
        [Qmax (70 # 100) (Py.float (Cnn.at_ v0 0) + (25 # 100));
         Qmax (2 # 100) (Py.float (Cnn.at_ v0 1) - (20 # 100));
         Py.float (Cnn.at_ v0 2) * (95 # 100);
         Py.float (Cnn.at_ v0 3) * (95 # 100)] in
    let st := fst (Cnn.classify f hint pmap) in
    Cnn.vec st = v /\
    Cnn.predicted_idx st = Cnn.argmax v /\
    Cnn.confidence st == Qmax (55 # 100) (Qmin (93 # 100) (Cnn.at_ v (Cnn.argmax v))).
Proof.
  intros f hint pmap Hm Ho v0 v st.
  assert (Hb : Cnn.bias_applies f (Cnn.before_bias f hint pmap) = true).
  { unfold Cnn.bias_applies. rewrite Hm. now apply lt_true in Ho as ->. }
  subst st. rewrite (classify_bias_applied f hint pmap Hb).
  cbn [Cnn.vec Cnn.predicted_idx Cnn.confidence].
  repeat split. fold v0. change (Cnn.normalize (Cnn.bias_vector v0)) with v.
  now rewrite !float_eq.
Qed.

Lemma bias_correction_adjusts_all_four_witness :
  Cnn.modality (Cnn.before_bias flat_features None None) = "chest-xray" /\
  Cnn.opacity_score flat_features < 22 # 100 /\
  Cnn.predicted_idx (fst (Cnn.classify flat_features None None)) = 0%nat.
Proof.
  split; [reflexivity|]. split; [reflexivity|].
  destruct (bias_correction_adjusts_all_four flat_features None None
              eq_refl eq_refl) as (_ & -> & _).
  vm_compute. reflexivity.
Defined.

Lemma extract_checkerboard : Cnn.extract checkerboard = inr checkerboard_features.
Proof. vm_compute. reflexivity. Qed.

Lemma extract_panoramic : Cnn.extract panoramic = inr panoramic_features.
Proof. vm_compute. reflexivity. Qed.

(** C6 as stated fails: on the checkerboard the modality is chest-xray and
    the opacity score is below 0.22, yet the Tumor and Fracture entries that
    are returned are not those of the vector in which only Normal and
    Pneumonia were adjusted. *)
Lemma bias_correction_only_two_counterexample :
  Cnn.extract checkerboard = inr checkerboard_features /\
  Cnn.modality (Cnn.before_bias checkerboard_features None None) = "chest-xray" /\
  Cnn.opacity_score checkerboard_features < 22 # 100 /\
  let specified :=
    Cnn.normalize
      (bias_vector_as_specified (Cnn.vec (Cnn.before_bias checkerboard_features None None))) in
  let returned := Cnn.vec (fst (Cnn.classify checkerboard_features None None)) in
  ~ Cnn.at_ returned 2 == Cnn.at_ specified 2 /\
  ~ Cnn.at_ returned 3 == Cnn.at_ specified 3.
Proof.
  split; [exact extract_checkerboard|].
  split; [vm_compute; reflexivity|]. split; [vm_compute; reflexivity|].
  split; vm_compute; discriminate.
Qed.


(** ** C10: the forced vectors *)


Lemma before_bias_predicted f hint pmap :
  Cnn.predicted_idx (Cnn.before_bias f hint pmap) =
  if hint_says_non_chest hint || dental_like f hint then 0%nat
  else Cnn.argmax (blend_vec f pmap).
Proof.
  rewrite before_bias_eq. fold (dental_like f hint).
  unfold hint_says_non_chest, Cnn.gemini_blend.
  destruct (Py.nonempty _ && Py.truthy _); cbn [andb].
  - destruct (Cnn.non_chest_hint _) eqn:E.
    + rewrite (non_chest_not_chest _ E). now rewrite !fst_tell.
    + destruct (String.eqb _ "chest-xray"); [rewrite fst_tell|];
        cbn [fst Cnn.predicted_idx orb];
        unfold Cnn.dental_override; destruct (dental_like f hint);
        rewrite ?fst_tell, ?init_modality_fst; reflexivity.
  - cbn [fst orb]. unfold Cnn.dental_override. destruct (dental_like f hint);
      rewrite ?fst_tell, ?init_modality_fst; reflexivity.
Qed.

Lemma classify_unbiased f hint pmap :
  Cnn.bias_applies f (Cnn.before_bias f hint pmap) = false ->
  fst (Cnn.classify f hint pmap) = Cnn.clamp_confidence (Cnn.before_bias f hint pmap).
Proof.
  intros H. rewrite classify_fst. unfold Cnn.bias_correction. now rewrite H.
Qed.



Lemma analyze_panoramic hint pmap :
  Cnn.analyze_image panoramic hint pmap =
  Cnn.report panoramic_features (gem_of_hint hint)
    (fst (Cnn.classify panoramic_features hint pmap)).
Proof.
  destruct (analyze_image_cases panoramic hint pmap)
    as [(f & Hf & -> & _) | (e & He & _)]; rewrite extract_panoramic in *;
    [congruence|discriminate].
Qed.

(** C10, the code on the failing input. On the panoramic sample the
    heuristic gate fires; the assistant names non-chest-xray with
    confidence 0.5 and does not call the image dental, so its answer is
    neither chest-xray nor authoritative by the test of lines 114 and 115
    (0.5 is not above 0.75), and the comment of line 178 asks for good confidence. Yet
    line 179 tests only that the confidence is not zero: the vector returned
    is [0.90, 0.04, 0.03, 0.03], not the [0.88, 0.04, 0.04, 0.04] of the
    dental override. *)
Theorem weak_hint_replaces_the_dental_vector :
  Cnn.extract panoramic = inr panoramic_features /\
  Cnn.dental_heuristic panoramic_features = true /\
  hint_says_chest (Some weak_hint) = false /\
  authoritative_non_chest weak_hint = false /\
  Cnn.gemini_forces_dental weak_hint = false /\
  gv_is_dental weak_hint = false /\
  Cnn.get_probabilities (Cnn.analyze_image panoramic (Some weak_hint) None) =
    Some [("Normal", 9 # 10); ("Pneumonia", 1 # 25);
          ("Tumor", 3 # 100); ("Fracture", 3 # 100)] /\
  Cnn.get_probabilities (Cnn.analyze_image panoramic (Some weak_hint) None) <>
    Some [("Normal", 22 # 25); ("Pneumonia", 1 # 25);
          ("Tumor", 1 # 25); ("Fracture", 1 # 25)].
Proof.
  split; [exact extract_panoramic|]. rewrite analyze_panoramic.
  repeat split; try (vm_compute; reflexivity).
  vm_compute. discriminate.
Qed.

(** ** C9: the order of assignments *)

Lemma gate_events f hint :
  snd (Cnn.gate f hint) =
  SetDental (Cnn.dental_heuristic f)
  :: (if match hint with Some gv => Cnn.gemini_forces_dental gv | None => false end
      then [SetDental true] else []).
Proof.
  unfold Cnn.gate. rewrite snd_tell.
  destruct hint as [gv|]; [destruct (Cnn.gemini_forces_dental gv)|];
    rewrite ?snd_tell; reflexivity.
Qed.

Lemma heuristic_probs_events f :
  snd (Cnn.heuristic_probs f) = [SetVec (heur_vec f)].
Proof. unfold Cnn.heuristic_probs. now rewrite snd_tell. Qed.

Lemma blend_events f pmap :
  snd (Cnn.blend_pretrained pmap (summary (heur_vec f))) =
  match pmap with Some _ => [SetVec (blend_vec f pmap)] | None => [] end.
Proof.
  destruct pmap as [pm|]; [|reflexivity].
  unfold Cnn.blend_pretrained, summary. now rewrite snd_tell.
Qed.

Lemma init_modality_events s :
  snd (Cnn.init_modality s) = [SetModality "chest-xray" (85 # 100)].
Proof. destruct s as [[v i] c]. unfold Cnn.init_modality. now rewrite snd_tell. Qed.

Lemma dental_override_events f d st :
  snd (Cnn.dental_override f d st) =
  if d then [SetModality "non-chest-xray (dental/panoramic likely)"
                         (gate_modality_conf f);
             SetVec Cnn.forced_dental]
  else [].
Proof.
  unfold Cnn.dental_override. destruct d; [|reflexivity].
  rewrite !snd_tbind. reflexivity.
Qed.

Lemma dental_override_conf f d st :
  Cnn.modality_conf (fst (Cnn.dental_override f d st)) =
  if d then gate_modality_conf f else Cnn.modality_conf st.
Proof.
  unfold Cnn.dental_override. destruct d; [|reflexivity].
  rewrite !fst_tbind. reflexivity.
Qed.

Lemma gemini_blend_events hint st :
  snd (Cnn.gemini_blend (gem_of_hint hint) st) =
  let mc := hint_modality_conf hint (Cnn.modality_conf st) in
  if hint_says_chest hint then [SetModality "chest-xray" mc]
  else if hint_says_non_chest hint
       then [SetModality "non-chest-xray (gemini)" mc; SetVec Cnn.forced_gemini]
       else [].
Proof.
  unfold Cnn.gemini_blend, hint_says_chest, hint_says_non_chest, hint_modality_conf.
  cbv zeta.
  destruct (Py.nonempty _ && Py.truthy _); cbn [andb]; [|reflexivity].
  destruct (String.eqb _ "chest-xray") eqn:Ec.
  - rewrite !snd_tbind. reflexivity.
  - destruct (Cnn.non_chest_hint _); [|reflexivity].
    rewrite !snd_tbind. reflexivity.
Qed.

Lemma bias_correction_events f st :
  snd (Cnn.bias_correction f st) =
  if Cnn.bias_applies f st
  then [SetVec (Cnn.normalize (Cnn.bias_vector (Cnn.vec st)))] else [].
Proof.
  unfold Cnn.bias_correction. destruct (Cnn.bias_applies f st); [|reflexivity].
  now rewrite snd_tell.
Qed.

(** The assignments of one run of the classifier, in order. *)
Lemma classify_events f hint pmap :
  let mc_gate := gate_modality_conf f in
  let mc_hint :=
    hint_modality_conf hint (if dental_like f hint then mc_gate else 85 # 100) in
  snd (Cnn.classify f hint pmap) =
    SetDental (Cnn.dental_heuristic f)
    :: (if match hint with Some gv => Cnn.gemini_forces_dental gv | None => false end
        then [SetDental true] else [])
    ++ SetVec (heur_vec f)
    :: match pmap with Some _ => [SetVec (blend_vec f pmap)] | None => [] end
    ++ SetModality "chest-xray" (85 # 100)
    :: (if dental_like f hint
        then [SetModality "non-chest-xray (dental/panoramic likely)" mc_gate;
              SetVec Cnn.forced_dental]
        else [])
    ++ (if hint_says_chest hint then [SetModality "chest-xray" mc_hint]
        else if hint_says_non_chest hint
             then [SetModality "non-chest-xray (gemini)" mc_hint;
                   SetVec Cnn.forced_gemini]
             else [])
    ++ (if Cnn.bias_applies f (Cnn.before_bias f hint pmap)
        then [SetVec (Cnn.normalize
                        (Cnn.bias_vector (Cnn.vec (Cnn.before_bias f hint pmap))))]
        else []).
Proof.
  cbv zeta. unfold Cnn.classify.
  set (d := Cnn.gate f hint).
  set (s1 := Cnn.heuristic_probs f).
  set (s2 := Cnn.blend_pretrained pmap (fst s1)).
  set (s3 := Cnn.init_modality (fst s2)).
  set (s4 := Cnn.dental_override f (fst d) (fst s3)).
  set (s5 := Cnn.gemini_blend (gem_of_hint hint) (fst s4)).
  set (s6 := Cnn.bias_correction f (fst s5)).
  pose proof (dental_override_events f (fst d) (fst s3)) as H4.
  pose proof (gemini_blend_events hint (fst s4)) as H5. cbv zeta in H5.
  assert (E4 : Cnn.modality_conf (fst s4) =
               if dental_like f hint then gate_modality_conf f else 85 # 100).
  { subst s4. rewrite dental_override_conf. fold (dental_like f hint).
    subst s3. destruct (fst s2) as [[v i] c]. reflexivity. }
  rewrite E4 in H5.
  repeat (rewrite snd_tbind; cbv beta). fold d s1 s2 s3 s4 s5 s6.
  assert (E5 : fst s5 = Cnn.before_bias f hint pmap).
  { unfold Cnn.before_bias. rewrite !fst_tbind. reflexivity. }
  fold s4 in H4. fold s5 in H5. rewrite H4, H5. subst s6.
  rewrite bias_correction_events, E5.
  subst s3. rewrite init_modality_events.
  subst s2 s1. rewrite heuristic_probs_fst, blend_events, heuristic_probs_events.
  subst d. rewrite gate_events. fold (dental_like f hint).
  cbn [snd tret]. rewrite ?app_nil_r. cbn [app].
  repeat (rewrite <- ?app_assoc; cbn [app]). reflexivity.
Qed.

(** C9, as the code has it. The trace of a call is empty exactly when
    the feature extraction raised, and then the handler answered: nothing
    is assigned after a failure. Otherwise the assignments are these, in
    this order: the gate flag [dental_like], and [dental_like = True] once
    more when the assistant forces it; the heuristic probability vector
    and, when a pretrained map is present, the blended vector; only then
    the modality, first chest-xray with confidence 0.85; when the flag is
    set, the dental modality with its confidence, together with the vector
    [0.88, 0.04, 0.04, 0.04]; when the assistant's answer is taken, either
    chest-xray alone or the gemini modality together with the vector
    [0.90, 0.04, 0.03, 0.03], with the confidence raised by the answer; and
    last, when the modality is chest-xray and the opacity score is below
    0.22, the bias-corrected vector. So the modality and its confidence are
    assigned after the probabilities, up to three times, and never after
    the bias correction. *)
Theorem modality_is_assigned_after_the_probabilities :
  forall (img : Cnn.image) (hint : option vision_hint) (pmap : option pretrained_map),
    (Cnn.analyze_trace img hint pmap = [] <->
     exists e, Cnn.extract img = inl e /\
               Cnn.get_error (Cnn.analyze_image img hint pmap) = Some e) /\
    (forall f, Cnn.extract img = inr f ->
     let mc_gate := gate_modality_conf f in
     let mc_hint :=
       hint_modality_conf hint (if dental_like f hint then mc_gate else 85 # 100) in
     Cnn.get_error (Cnn.analyze_image img hint pmap) = None /\
     Cnn.analyze_trace img hint pmap =
       SetDental (Cnn.dental_heuristic f)
       :: (if match hint with Some gv => Cnn.gemini_forces_dental gv | None => false end
           then [SetDental true] else [])
       ++ SetVec (heur_vec f)
       :: match pmap with Some _ => [SetVec (blend_vec f pmap)] | None => [] end
       ++ SetModality "chest-xray" (85 # 100)
       :: (if dental_like f hint
           then [SetModality "non-chest-xray (dental/panoramic likely)" mc_gate;
                 SetVec Cnn.forced_dental]
           else [])
       ++ (if hint_says_chest hint then [SetModality "chest-xray" mc_hint]
           else if hint_says_non_chest hint
                then [SetModality "non-chest-xray (gemini)" mc_hint;
                      SetVec Cnn.forced_gemini]
                else [])
       ++ (if Cnn.bias_applies f (Cnn.before_bias f hint pmap)
           then [SetVec (Cnn.normalize
                           (Cnn.bias_vector (Cnn.vec (Cnn.before_bias f hint pmap))))]
           else [])).
Proof.
  intros img hint pmap.
  destruct (analyze_image_cases img hint pmap)
    as [(f & Hf & Hr & Ht) | (e & He & Hr & Ht)].
  - pose proof (classify_events f hint pmap) as Hev. cbv zeta in Hev. split.
    + rewrite Ht, Hev. split; [discriminate|].
      intros (e & He & _). congruence.
    + intros f' Hf'. assert (f' = f) by congruence. subst f'.
      cbv zeta. rewrite Hr. split; [reflexivity|]. now rewrite Ht.
  - split.
    + rewrite Ht, Hr. split; [|reflexivity]. intros _. exists e. auto.
    + intros f Hf. congruence.
Qed.

Lemma modality_is_assigned_after_the_probabilities_witness :
  Cnn.extract panoramic = inr panoramic_features /\
  Cnn.analyze_trace panoramic None None =
    [SetDental true; SetVec (heur_vec panoramic_features);
     SetModality "chest-xray" (85 # 100);
     SetModality "non-chest-xray (dental/panoramic likely)"
                 (gate_modality_conf panoramic_features);
     SetVec Cnn.forced_dental].
Proof.
  split; [exact extract_panoramic|].
  rewrite (proj2 (proj2 (modality_is_assigned_after_the_probabilities panoramic None None)
                    panoramic_features extract_panoramic)).
  reflexivity.
Defined.

Lemma trace_panoramic hint pmap :
  Cnn.analyze_trace panoramic hint pmap = snd (Cnn.classify panoramic_features hint pmap).
Proof.
  destruct (analyze_image_cases panoramic hint pmap)
    as [(f & Hf & _ & ->) | (e & He & _)]; rewrite extract_panoramic in *;
    [congruence|discriminate].
Qed.

(** C9 as stated fails: on the panoramic sample, with no external client,
    the probability vector is assigned before the modality is, and the
    modality is assigned twice. *)
Lemma modality_decided_first_counterexample :
  decided_once_before_classification (Cnn.analyze_trace panoramic None None) = false /\
  map is_set_modality (Cnn.analyze_trace panoramic None None) =
    [false; false; true; true; false] /\
  map is_set_vec (Cnn.analyze_trace panoramic None None) =
    [false; true; false; false; true].
Proof. rewrite trace_panoramic. repeat split; vm_compute; reflexivity. Qed.


(** ** C7: the exception handlers *)

(** C7, as the code has it. No entry point lets an exception of its body
    escape: the planar analyzer answers with prediction 0 (Normal),
    confidence 0.72 and the message; the CT and the MRI analyzer answer
    with the label "ct - analysis error", respectively
    "mri - analysis error", confidence 0.0 and the message. *)
Theorem exceptions_become_fallback_results :
  (forall img hint pmap e,
     Cnn.extract img = inl e ->
     Cnn.analyze_image img hint pmap = Cnn.Fallback 0 (72 # 100) "Normal" e) /\
  (forall gray hint backend e,
     Ct.heuristics gray = inl e ->
     Ct.analyze_image gray hint backend = Ct.Failure "ct - analysis error" 0 e) /\
  (forall gray hint backend e,
     Mri.heuristics gray = inl e ->
     Mri.analyze_image gray hint backend = Mri.Failure "mri - analysis error" 0 e).
Proof.
  split; [|split].
  - intros img hint pmap e He.
    destruct (analyze_image_cases img hint pmap)
      as [(f & Hf & _) | (e' & He' & -> & _)]; congruence.
  - intros gray hint backend e He. unfold Ct.analyze_image. now rewrite He.
  - intros gray hint backend e He. unfold Mri.analyze_image. now rewrite He.
Qed.

Lemma exceptions_become_fallback_results_witness :
  Cnn.analyze_image (Cnn.Gray []) None None =
    Cnn.Fallback 0 (72 # 100) "Normal"
      "can't extend empty axis 0 using modes other than 'constant' or 'empty'" /\
  Ct.analyze_image thumbnail None "" =
    Ct.Failure "ct - analysis error" 0
      "index -1 is out of bounds for axis 0 with size 0" /\
  Mri.analyze_image thumbnail None "" =
    Mri.Failure "mri - analysis error" 0
      "index -1 is out of bounds for axis 0 with size 0".
Proof.
  destruct exceptions_become_fallback_results as (Hc & Hct & Hm).
  split; [|split].
  - apply Hc. reflexivity.
  - apply Hct. vm_compute. reflexivity.
  - apply Hm. vm_compute. reflexivity.
Defined.

(** C7 as stated fails for the volumetric analyzers: on a 3 x 3 snapshot
    both raise inside [np.quantile], and what they return has no Normal
    class and confidence 0.0, not a moderate one. *)
Lemma volumetric_fallback_counterexample :
  Ct.get_label (Ct.analyze_image thumbnail None "") = "ct - analysis error" /\
  Ct.get_confidence (Ct.analyze_image thumbnail None "") = 0 /\
  Ct.get_error (Ct.analyze_image thumbnail None "") <> None /\
  Mri.get_label (Mri.analyze_image thumbnail None "") = "mri - analysis error" /\
  Mri.get_confidence (Mri.analyze_image thumbnail None "") = 0 /\
  Mri.get_error (Mri.analyze_image thumbnail None "") <> None.
Proof. repeat split; try (vm_compute; reflexivity); vm_compute; discriminate. Qed.


(** ** C5: the MRI label and confidence *)

Lemma suspicious_iff (c : Mri.cues) : Mri.suspicious c = true <-> mri_rule c.
Proof.
  unfold Mri.suspicious, mri_rule.
  rewrite !orb_true_iff, !andb_true_iff, !gt_true. tauto.
Qed.

Lemma eqb_length s p : String.eqb s p = true -> String.length s = String.length p.
Proof. intros H. apply String.eqb_eq in H. now subst. Qed.

Lemma length_append s t :
  String.length (String.append s t) = (String.length s + String.length t)%nat.
Proof. induction s as [|c s IH]; simpl; [reflexivity|now rewrite IH]. Qed.

(** A suffix test only looks at the end of a string. *)
Lemma endswith_append r t p :
  (String.length p <= String.length t)%nat ->
  Py.endswith (String.append r t) p = Py.endswith t p.
Proof.
  intros H. induction r as [|c r IH]; [reflexivity|].
  cbn [String.append Py.endswith]. rewrite IH.
  destruct (String.eqb (String c (String.append r t)) p) eqn:E; [|reflexivity].
  apply eqb_length in E. cbn [String.length] in E. rewrite length_append in E. lia.
Qed.

(** C5, as the code has it. For every snapshot on which the MRI analyzer
    does not raise, the label is the region followed by
    " mri - lesion suspected" when lesionScore > 0.35, or lesionScore > 0.25
    and edgeScore > 10, or hiArea > 0.015 and lateralDiff > 0.08, and by
    " mri - no obvious abnormality" otherwise, so it ends with
    "lesion suspected" exactly when the rule holds; the confidence returned
    is min(0.95, 0.60 + 0.28 lesionScore + 0.10 min(lateralDiff, 0.2))
    rounded to two decimals. *)
Theorem mri_label_and_rounded_confidence :
  forall (gray : Np.grid N) (hint : option vision_hint) (backend : string)
         (c : Mri.cues),
    Mri.heuristics gray = inr c ->
    let r := Mri.analyze_image gray hint backend in
    (Py.endswith (Mri.get_label r) "lesion suspected" = true <-> mri_rule c) /\
    (exists region,
       Mri.get_label r =
         String.append region
           (if Mri.suspicious c then " mri - lesion suspected"
            else " mri - no obvious abnormality")) /\
    Mri.get_confidence r =
      Py.round (Qmin (95 # 100)
                  ((60 # 100) + (28 # 100) * Py.float (Mri.lesion_score c)
                   + (10 # 100) * Qmin (Mri.lateral_diff c) (2 # 10))) 2.
Proof.
  intros gray hint backend c Hc r. subst r. unfold Mri.analyze_image. rewrite Hc.
  unfold Mri.report, Mri.get_label, Mri.get_confidence, Mri.label.
  split; [|split; [|reflexivity]].
  2:{ exists (Snapshot.region_of (gem_of_hint hint) "mri").
      now destruct (Mri.suspicious c). }
  rewrite <- suspicious_iff.
  destruct (Mri.suspicious c); rewrite endswith_append by (simpl; lia).
  - split; intros _; reflexivity.
  - split; intros H; [vm_compute in H|]; discriminate.
Qed.

Lemma heuristics_slice15 : Mri.heuristics slice15 = inr slice15_cues.
Proof. vm_compute. reflexivity. Qed.

Lemma mri_label_and_rounded_confidence_witness :
  Mri.heuristics slice15 = inr slice15_cues /\
  (Py.endswith (Mri.get_label (Mri.analyze_image slice15 None "")) "lesion suspected"
     = true <-> mri_rule slice15_cues).
Proof.
  split; [exact heuristics_slice15|].
  exact (proj1 (mri_label_and_rounded_confidence slice15 None "" slice15_cues
                  heuristics_slice15)).
Defined.

Lemma analyze_slice15 hint backend :
  Mri.analyze_image slice15 hint backend =
  Mri.report (gem_of_hint hint) backend slice15_cues.
Proof. unfold Mri.analyze_image. now rewrite heuristics_slice15. Qed.

(** C5 as stated fails twice on one snapshot. The rule does not hold and
    yet the label contains "lesion suspected", because the region reported
    by the assistant does; and the confidence returned is 0.6, not the
    unrounded min(0.95, 0.60 + 0.28 lesionScore + 0.10 min(lateralDiff, 0.2)). *)
Lemma mri_claim_counterexample :
  Mri.heuristics slice15 = inr slice15_cues /\
  Mri.suspicious slice15_cues = false /\
  Py.contains "lesion suspected"
    (Mri.get_label (Mri.analyze_image slice15 (Some wordy_hint) "")) = true /\
  Mri.get_confidence (Mri.analyze_image slice15 (Some wordy_hint) "") = 3 # 5 /\
  ~ Mri.get_confidence (Mri.analyze_image slice15 (Some wordy_hint) "")
    == Qmin (95 # 100)
         ((60 # 100) + (28 # 100) * Mri.lesion_score slice15_cues
          + (10 # 100) * Qmin (Mri.lateral_diff slice15_cues) (2 # 10)).
Proof.
  split; [exact heuristics_slice15|]. rewrite analyze_slice15.
  repeat split; try (vm_compute; reflexivity).
  vm_compute. discriminate.
Qed.


(** ** C8: findings *)

Lemma mem_In x l : Py.mem x l = true <-> In x l.
Proof.
  unfold Py.mem. rewrite existsb_exists. split.
  - intros (y & Hy & E). apply String.eqb_eq in E. now subst.
  - intros H. exists x. split; [assumption|apply String.eqb_refl].
Qed.

Lemma append_new_prefix acc new : exists rest, append_new acc new = acc ++ rest.
Proof.
  unfold append_new. revert acc. induction new as [|x new IH]; intros acc; simpl.
  - exists []. now rewrite app_nil_r.
  - destruct (Py.mem x acc); [apply IH|].
    destruct (IH (acc ++ [x])) as [rest ->]. exists (x :: rest).
    now rewrite <- app_assoc.
Qed.

Lemma append_new_NoDup acc new : NoDup acc -> NoDup (append_new acc new).
Proof.
  unfold append_new. revert acc. induction new as [|x new IH]; intros acc H; simpl.
  - assumption.
  - destruct (Py.mem x acc) eqn:E; apply IH; [assumption|].
    apply NoDup_app; [assumption|repeat constructor; intros []|].
    intros y Hy [<-|[]]. apply mem_In in Hy. congruence.
Qed.

Lemma append_new_In acc new s :
  In s (append_new acc new) <-> In s acc \/ In s new.
Proof.
  unfold append_new. revert acc. induction new as [|x new IH]; intros acc; simpl.
  - tauto.
  - destruct (Py.mem x acc) eqn:E; rewrite IH.
    + apply mem_In in E. split; [tauto|]. intros [H|[<-|H]]; tauto.
    + rewrite in_app_iff. simpl. tauto.
Qed.

Lemma strings_of_In l s : In s (strings_of l) <-> In (JStr s) l.
Proof.
  unfold strings_of. rewrite in_flat_map. split.
  - intros ([t|] & Hin & Hs); simpl in Hs; [|tauto].
    destruct Hs as [<-|[]]. assumption.
  - intros H. exists (JStr s). split; [assumption|now left].
Qed.

Lemma gem_first_spec g :
  NoDup (gem_first g) /\
  forall s, In s (gem_first g) <-> In (JStr s) (gem_findings g).
Proof.
  unfold gem_first. split; [apply append_new_NoDup; constructor|].
  intros s. rewrite append_new_In, strings_of_In. simpl. tauto.
Qed.

Lemma make_findings_nonempty b c s e o m r : Cnn._make_findings b c s e o m r <> [].
Proof.
  unfold Cnn._make_findings.
  match goal with |- match ?l with _ => _ end <> _ => destruct l end; discriminate.
Qed.

Lemma filter_absorb {A} (p q : A -> bool) l :
  (forall x, p x = true -> q x = true) -> filter p (filter q l) = filter p l.
Proof.
  intros H. induction l as [|x l IH]; simpl; [reflexivity|].
  destruct (q x) eqn:Q, (p x) eqn:P; simpl; rewrite ?P, ?IH; try reflexivity.
  apply H in P. congruence.
Qed.

Lemma filter_twice {A} (p q : A -> bool) l :
  filter p (filter q l) = filter (fun x => p x && q x) l.
Proof.
  induction l as [|x l IH]; simpl; [reflexivity|].
  destruct (q x) eqn:Q, (p x) eqn:P; simpl; rewrite ?P, ?IH; reflexivity.
Qed.

(** The loop of the merge, in closed form: the new strings in the order of
    their first occurrence, without those already listed. *)
Lemma append_new_eq acc new :
  append_new acc new =
  acc ++ filter (fun s => negb (Py.mem s acc)) (first_occurrences new).
Proof.
  unfold append_new. revert acc. induction new as [|x new IH]; intros acc; simpl.
  - now rewrite app_nil_r.
  - destruct (Py.mem x acc) eqn:E; rewrite IH; cbn [negb].
    + f_equal. symmetry. apply filter_absorb. intros s Hs.
      apply negb_true_iff in Hs. apply negb_true_iff.
      destruct (String.eqb s x) eqn:Es; [|reflexivity].
      apply String.eqb_eq in Es. congruence.
    + rewrite <- app_assoc. cbn [app]. do 2 f_equal.
      rewrite filter_twice. apply filter_ext. intros s.
      unfold Py.mem. rewrite existsb_app. cbn [existsb].
      rewrite orb_false_r, negb_orb. reflexivity.
Qed.

Lemma first_occurrences_NoDup l : NoDup l -> first_occurrences l = l.
Proof.
  induction 1 as [|x l Hx Hl IH]; simpl; [reflexivity|].
  rewrite IH. f_equal. clear IH Hl. induction l as [|y l IH]; simpl; [reflexivity|].
  destruct (String.eqb y x) eqn:E.
  - apply String.eqb_eq in E. subst y. exfalso. apply Hx. now left.
  - cbn [negb]. f_equal. apply IH. intros H. apply Hx. now right.
Qed.

Lemma gem_first_eq g : gem_first g = first_occurrences (strings_of (gem_findings g)).
Proof.
  unfold gem_first. rewrite append_new_eq. cbn [app Py.mem existsb negb].
  induction (first_occurrences _) as [|x l IH]; simpl; [reflexivity|now rewrite IH].
Qed.

Lemma exposure_exclusive b : Py.lt b 70 && Py.gt b 180 = false.
Proof.
  destruct (Py.lt b 70) eqn:E1, (Py.gt b 180) eqn:E2; try reflexivity.
  apply lt_true in E1. apply gt_true in E2. lra.
Qed.

Lemma sharpness_exclusive s e : Py.lt s 15 && (Py.gt_nan e 55 && Py.gt s 40) = false.
Proof.
  destruct (Py.lt s 15) eqn:E1, (Py.gt s 40) eqn:E2; rewrite ?andb_false_r; try reflexivity.
  apply lt_true in E1. apply gt_true in E2. lra.
Qed.

Lemma density_phrase_differs region s :
  In s ["Underexposed image (dark)"; "Overexposed image (bright)";
        "Low sharpness (motion blur / out of focus)";
        "Diffuse opacities detected (possible pneumonia)";
        "Strong linear edges (possible fracture)"] ->
  String.append "Increased soft-tissue density in " region <> s.
Proof.
  intros H E. subst s. simpl in H.
  repeat (destruct H as [H|H]; [discriminate H|]). exact H.
Qed.

(** A phrase is not in a short list of other phrases. *)
Ltac notin M :=
  let H := fresh "H" in
  intros H; simpl in H;
  repeat (destruct H as [H|H];
          [first [congruence
                 | exfalso; apply M; rewrite H; simpl; tauto
                 | exfalso; apply M; rewrite <- H; simpl; tauto]|]);
  exact H.

Lemma mem_false_iff x l : Py.mem x l = false <-> ~ In x l.
Proof. rewrite <- mem_In. symmetry. apply not_true_iff_false. Qed.

Lemma make_findings_spec :
  forall (brightness contrast sharpness : Q) (edge_score : option Q) (opacity_score : Q)
         (modality body_region : string),
    let fs := Cnn._make_findings brightness contrast sharpness edge_score opacity_score
                modality body_region in
    NoDup fs /\ (1 <= length fs <= 4)%nat /\
    ~ (In "Underexposed image (dark)" fs /\ In "Overexposed image (bright)" fs) /\
    ~ (In "Low sharpness (motion blur / out of focus)" fs /\
       In "Strong linear edges (possible fracture)" fs).
Proof.
  intros b c s e o m r fs. subst fs. unfold Cnn._make_findings.
  pose proof (exposure_exclusive b) as Hx. pose proof (sharpness_exclusive s e) as Hs.
  set (region := Py.lower _).
  pose proof (density_phrase_differs region) as Hp.
  set (P := String.append "Increased soft-tissue density in " region) in *.
  set (U := "Underexposed image (dark)") in *.
  set (O := "Overexposed image (bright)") in *.
  set (S := "Low sharpness (motion blur / out of focus)") in *.
  set (D := "Diffuse opacities detected (possible pneumonia)") in *.
  set (K := "Increased soft-tissue density in neck") in *.
  set (F := "Strong linear edges (possible fracture)") in *.
  assert (HPU : P <> U) by (apply Hp; simpl; tauto).
  assert (HPO : P <> O) by (apply Hp; simpl; tauto).
  assert (HPS : P <> S) by (apply Hp; simpl; tauto).
  assert (HPD : P <> D) by (apply Hp; simpl; tauto).
  assert (HPF : P <> F) by (apply Hp; simpl; tauto).
  assert (HUO : U <> O) by discriminate. assert (HUS : U <> S) by discriminate.
  assert (HUD : U <> D) by discriminate. assert (HUK : U <> K) by discriminate.
  assert (HUF : U <> F) by discriminate. assert (HOS : O <> S) by discriminate.
  assert (HOD : O <> D) by discriminate. assert (HOK : O <> K) by discriminate.
  assert (HOF : O <> F) by discriminate. assert (HSD : S <> D) by discriminate.
  assert (HSK : S <> K) by discriminate. assert (HSF : S <> F) by discriminate.
  assert (HDK : D <> K) by discriminate. assert (HDF : D <> F) by discriminate.
  assert (HKF : K <> F) by discriminate.
  set (Z := "No strong abnormalities detected") in *.
  assert (HZU : Z <> U) by discriminate. assert (HZO : Z <> O) by discriminate.
  assert (HZS : Z <> S) by discriminate. assert (HZF : Z <> F) by discriminate.
  clear Hp. clearbody P U O S D K F Z.
  destruct (Py.lt b 70), (Py.gt b 180); try discriminate Hx;
  destruct (Py.lt s 15), (Py.gt_nan e 55 && Py.gt s 40); try discriminate Hs;
  destruct (Py.gt o (30 # 100)), (Py.startswith m "chest");
  destruct ((Py.contains "neck" region || Py.contains "cervical" region)
            && Py.gt o (32 # 100) && Py.lt_nan e 12);
  cbn [app negb];
  first [destruct (Py.mem _ _) eqn:M;
         [apply mem_In in M | apply mem_false_iff in M]; cbn [negb app]
        | assert (M : ~ False) by tauto];
  (split; [repeat (apply NoDup_cons; [notin M|]); apply NoDup_nil|]);
  (split; [simpl; lia|]);
  (split; intros [H1 H2]; first [revert H1; notin M | revert H2; notin M]).
Qed.

Lemma gt_32_30 o : Py.gt o (32 # 100) = true -> Py.gt o (30 # 100) = true.
Proof. rewrite !gt_true. lra. Qed.

(** [_make_findings] emits the phrases of its rules that trigger, or the
    fixed phrase when none does. *)
Lemma make_findings_rules f m r :
  Cnn._make_findings (Cnn.brightness f) (Cnn.contrast f) (Cnn.sharpness f)
    (Cnn.edge_score f) (Cnn.opacity_score f) m r =
  match triggered (cnn_rules f m r) with
  | [] => ["No strong abnormalities detected"]
  | _ => triggered (cnn_rules f m r)
  end.
Proof.
  unfold Cnn._make_findings, cnn_rules, triggered. cbv zeta.
  set (region := Py.lower _).
  pose proof (gt_32_30 (Cnn.opacity_score f)) as HG.
  match goal with
  | |- context [Py.mem ?k ?l] =>
      assert (Hmem : Py.mem k l =
                     Py.gt (Cnn.opacity_score f) (30 # 100)
                     && negb (Py.startswith m "chest") && String.eqb region "neck")
  end.
  { rewrite (String.eqb_sym region).
    destruct (Py.lt (Cnn.brightness f) 70), (Py.gt (Cnn.brightness f) 180),
      (Py.lt (Cnn.sharpness f) 15), (Py.gt (Cnn.opacity_score f) (30 # 100)),
      (Py.startswith m "chest"); cbn; rewrite ?orb_false_r; reflexivity. }
  rewrite Hmem. clear Hmem.
  set (P := String.append "Increased soft-tissue density in " region).
  set (U := "Underexposed image (dark)").
  set (O := "Overexposed image (bright)").
  set (S := "Low sharpness (motion blur / out of focus)").
  set (D := "Diffuse opacities detected (possible pneumonia)").
  set (K := "Increased soft-tissue density in neck").
  set (F := "Strong linear edges (possible fracture)").
  set (Z := "No strong abnormalities detected").
  clearbody P U O S D K F Z.
  destruct (Py.gt (Cnn.opacity_score f) (30 # 100)),
    (Py.gt (Cnn.opacity_score f) (32 # 100));
    try (specialize (HG eq_refl); discriminate HG); clear HG;
    destruct (Py.lt (Cnn.brightness f) 70), (Py.gt (Cnn.brightness f) 180),
      (Py.lt (Cnn.sharpness f) 15), (Py.startswith m "chest"),
      (Py.contains "neck" region || Py.contains "cervical" region),
      (Py.lt_nan (Cnn.edge_score f) 12), (String.eqb region "neck"),
      (Py.gt_nan (Cnn.edge_score f) 55 && Py.gt (Cnn.sharpness f) 40);
    reflexivity.
Qed.

Lemma add_if_app c p l : Snapshot.add_if c p l = l ++ (if c then [p] else []).
Proof. unfold Snapshot.add_if. destruct c; [reflexivity|now rewrite app_nil_r]. Qed.


Lemma ct_findings_rules g region c :
  Ct.findings_of g region c =
  match gem_first g ++ triggered (ct_rules region c) with
  | [] => ["No strong abnormalities detected on snapshot"]
  | _ => gem_first g ++ triggered (ct_rules region c)
  end.
Proof.
  unfold Ct.findings_of, ct_rules, triggered. cbv zeta. rewrite !add_if_app.
  destruct (Py.lt _ _), (Py.gt _ _), (Ct.is_chest region && _), (negb _ && _);
    cbn [filter snd map fst]; rewrite <- ?app_assoc, ?app_nil_r; reflexivity.
Qed.

Lemma mri_findings_rules g c :
  Mri.findings_of g c =
  match gem_first g ++ triggered (mri_rules c) with
  | [] => ["No strong abnormalities detected on snapshot"]
  | _ => gem_first g ++ triggered (mri_rules c)
  end.
Proof.
  unfold Mri.findings_of, mri_rules, triggered, Mri.hi_region_finding, mri_side.
  cbv zeta. rewrite !add_if_app.
  destruct (Mri.where_xs (Mri.hi_mask c)) as [|x xs];
    destruct (Py.lt (Mri.brightness c) 60), (Py.gt (Mri.brightness c) 200),
      (Py.gt (Mri.lesion_score c) (25 # 100)), (Py.gt (Mri.hi_area c) (15 # 1000)),
      (Py.gt (Mri.lateral_diff c) (12 # 100));
    cbn [filter snd map fst andb]; rewrite <- ?app_assoc, ?app_nil_r; reflexivity.
Qed.

Lemma nonempty_match {A} (l : list A) (x : A) :
  match l with [] => [x] | _ => l end <> [].
Proof. destruct l; discriminate. Qed.

Lemma cnn_findings f g st :
  let first := gem_first g in
  let rules := triggered (cnn_rules f (Cnn.modality st) (gem_body_region g)) in
  let heur := match rules with
              | [] => ["No strong abnormalities detected"]
              | _ => rules
              end in
  let fs := Cnn.merge_findings g
              (Cnn._make_findings (Cnn.brightness f) (Cnn.contrast f) (Cnn.sharpness f)
                 (Cnn.edge_score f) (Cnn.opacity_score f) (Cnn.modality st)
                 (gem_body_region g)) in
  fs = first ++ filter (fun s => negb (Py.mem s first)) heur /\
  fs <> [] /\ NoDup fs /\ NoDup heur.
Proof.
  cbv zeta.
  pose proof (make_findings_spec (Cnn.brightness f) (Cnn.contrast f) (Cnn.sharpness f)
                (Cnn.edge_score f) (Cnn.opacity_score f) (Cnn.modality st)
                (gem_body_region g)) as Hs.
  cbv zeta in Hs. destruct Hs as (Hnd & _).
  pose proof (make_findings_nonempty (Cnn.brightness f) (Cnn.contrast f)
                (Cnn.sharpness f) (Cnn.edge_score f) (Cnn.opacity_score f)
                (Cnn.modality st) (gem_body_region g)) as Hne.
  rewrite make_findings_rules in *.
  set (heur := match triggered _ with [] => _ | _ => _ end) in *.
  unfold Cnn.merge_findings. repeat split.
  - rewrite append_new_eq. now rewrite (first_occurrences_NoDup heur Hnd).
  - destruct heur as [|x l]; [congruence|].
    intros E. assert (In x (append_new (gem_first g) (x :: l))) as Hin.
    { apply append_new_In. right. now left. }
    rewrite E in Hin. destruct Hin.
  - apply append_new_NoDup, gem_first_spec.
  - exact Hnd.
Qed.

Lemma heuristics_ct_slice15 : Ct.heuristics slice15 = inr slice15_ct_cues.
Proof. vm_compute. reflexivity. Qed.

(** C8, as the code has it. A fallback result carries no findings list. In
    every report the findings list is not empty and starts with the
    findings of the vision assistant: its strings in the order of their
    first occurrence, each one once. The planar analyzer lets its heuristic
    findings follow, leaving out those already listed; its heuristic
    findings are the phrases of the threshold rules that trigger, in the
    order of the rules, and the single phrase
    "No strong abnormalities detected" exactly when none triggers; they
    have no repetition, and neither has the merged list. The CT and the MRI
    analyzer append the phrases of all their rules that trigger, also one
    that repeats a finding of the assistant, and emit
    "No strong abnormalities detected on snapshot" exactly when no rule
    triggers and the assistant reported no string. *)
Theorem findings_are_never_empty :
  (forall g, gem_first g = first_occurrences (strings_of (gem_findings g)) /\
             NoDup (gem_first g) /\
             forall s, In s (gem_first g) <-> In (JStr s) (gem_findings g)) /\
  (forall img hint pmap,
     let r := Cnn.analyze_image img hint pmap in
     let first := gem_first (gem_of_hint hint) in
     match Cnn.extract img with
     | inl _ => Cnn.get_findings r = None
     | inr f =>
         exists m fs,
           get_modality r = Some m /\ Cnn.get_findings r = Some fs /\
           let rules :=
             triggered (cnn_rules f m (gem_body_region (gem_of_hint hint))) in
           let heur := match rules with
                       | [] => ["No strong abnormalities detected"]
                       | _ => rules
                       end in
           fs = first ++ filter (fun s => negb (Py.mem s first)) heur /\
           fs <> [] /\ NoDup fs /\ NoDup heur
     end) /\
  (forall gray hint backend,
     let r := Ct.analyze_image gray hint backend in
     let first := gem_first (gem_of_hint hint) in
     match Ct.heuristics gray with
     | inl _ => Ct.get_findings r = None
     | inr c =>
         exists fs,
           Ct.get_findings r = Some fs /\
           let rules :=
             triggered (ct_rules (Snapshot.region_of (gem_of_hint hint) "ct") c) in
           fs = match first ++ rules with
                | [] => ["No strong abnormalities detected on snapshot"]
                | _ => first ++ rules
                end /\
           fs <> []
     end) /\
  (forall gray hint backend,
     let r := Mri.analyze_image gray hint backend in
     let first := gem_first (gem_of_hint hint) in
     match Mri.heuristics gray with
     | inl _ => Mri.get_findings r = None
     | inr c =>
         exists fs,
           Mri.get_findings r = Some fs /\
           let rules := triggered (mri_rules c) in
           fs = match first ++ rules with
                | [] => ["No strong abnormalities detected on snapshot"]
                | _ => first ++ rules
                end /\
           fs <> []
     end).
Proof.
  split; [|split; [|split]].
  - intros g. split; [apply gem_first_eq|apply gem_first_spec].
  - intros img hint pmap. cbv zeta.
    destruct (analyze_image_cases img hint pmap)
      as [(f & Hf & E & _) | (e & He & E & _)]; rewrite ?Hf, ?He, E; [|reflexivity].
    eexists. eexists. split; [reflexivity|]. split; [reflexivity|].
    apply cnn_findings.
  - intros gray hint backend. cbv zeta. unfold Ct.analyze_image.
    destruct (Ct.heuristics gray) as [e|c]; [reflexivity|].
    eexists. split; [reflexivity|]. unfold Ct.report. cbv zeta.
    rewrite ct_findings_rules. split; [reflexivity|apply nonempty_match].
  - intros gray hint backend. cbv zeta. unfold Mri.analyze_image.
    destruct (Mri.heuristics gray) as [e|c]; [reflexivity|].
    eexists. split; [reflexivity|]. unfold Mri.report. cbv zeta.
    rewrite mri_findings_rules. split; [reflexivity|apply nonempty_match].
Qed.

Lemma findings_are_never_empty_witness :
  Ct.heuristics slice15 = inr slice15_ct_cues /\
  Ct.get_findings (Ct.analyze_image slice15 (Some echo_hint) "") =
    Some ["Focal high-variance/high-intensity region (possible lesion)";
          "Focal high-variance/high-intensity region (possible lesion)"].
Proof.
  split; [exact heuristics_ct_slice15|].
  pose proof (proj1 (proj2 (proj2 findings_are_never_empty))
                slice15 (Some echo_hint) "") as H.
  cbv zeta in H. rewrite heuristics_ct_slice15 in H.
  destruct H as (fs & -> & -> & _). vm_compute. reflexivity.
Defined.

(** C8 as stated fails: on the 15 x 15 snapshot, read as a chest CT for
    which the assistant reports one finding, no threshold rule triggers and
    the phrase is not emitted: the findings are the assistant's alone. *)
Lemma phrase_not_emitted_counterexample :
  Ct.heuristics slice15 = inr slice15_ct_cues /\
  triggered (ct_rules (Snapshot.region_of (gem_of_hint (Some chest_ct_hint)) "ct")
                      slice15_ct_cues) = [] /\
  Ct.get_findings (Ct.analyze_image slice15 (Some chest_ct_hint) "") =
    Some ["Clear lung fields"] /\
  ~ In "No strong abnormalities detected on snapshot" ["Clear lung fields"].
Proof.
  split; [exact heuristics_ct_slice15|]. split; [vm_compute; reflexivity|].
  split.
  - unfold Ct.analyze_image. rewrite heuristics_ct_slice15. vm_compute. reflexivity.
  - intros [H|[]]. discriminate.
Qed.


(** ** C4: the modality gate *)

Ltac invert_binds H :=
  repeat (let x := fresh "x" in let E := fresh "E" in
          apply bind_inr in H as (x & E & H)).

Lemma extract_gate_fields img f :
  Cnn.extract img = inr f ->
  exists gray_eq,
    Cnn.get_feature_maps img = inr gray_eq /\
    Cnn.aspect f ==
      inject_Z (Z.of_nat (Np.width (Cnn._to_gray img)))
      / inject_Z (Z.of_nat (Np.height (Cnn._to_gray img))) /\
    Cnn.edge_bot_top_ratio f = Cnn.bot_top_ratio_thirds (Cnn.edge_map gray_eq) /\
    Cnn.bright_bot_top_ratio f = Cnn.bot_top_ratio_thirds (Np.to_float gray_eq).
Proof.
  unfold Cnn.extract, Cnn.get_feature_maps. intros H.
  apply bind_inr in H as (blur & -> & H). cbn [bind].
  exists (Cnn._equalize blur). split; [reflexivity|].
  invert_binds H. apply ret_inr in H. subst f.
  cbn [Cnn.aspect Cnn.edge_bot_top_ratio Cnn.bright_bot_top_ratio].
  repeat split.
  match goal with E : Cnn.py_div _ _ = inr _ |- _ =>
    unfold Cnn.py_div in E; destruct (Qeq_bool _ _); [discriminate|];
    apply ret_inr in E; rewrite <- E end.
  apply float_eq.
Qed.

Lemma gt_nan_true x y : Py.gt_nan x y = true <-> exists v, x = Some v /\ y < v.
Proof.
  destruct x as [v|]; simpl.
  - rewrite gt_true. split; [eauto|]. now intros (v' & [= <-] & H).
  - split; [discriminate|]. now intros (v' & [=] & _).
Qed.

(** The assistant's part in the gate, in words. *)
Lemma gemini_forces_dental_iff gv :
  Cnn.gemini_forces_dental gv = true <->
  gv_is_dental gv = true \/
  ((gv_modality gv = "non-chest-xray" \/ gv_modality gv = "document") /\
   75 # 100 < gv_confidence gv).
Proof.
  unfold Cnn.gemini_forces_dental.
  repeat (rewrite orb_true_iff || rewrite andb_true_iff).
  rewrite !String.eqb_eq, gt_true, float_lt_r. split.
  - intros [H | [[H _] H']]; tauto.
  - intros [H | [H H']]; [tauto|]. right. repeat split; try assumption.
    unfold Py.truthy. rewrite negb_true_iff. apply not_true_iff_false.
    intros E. apply Qeq_bool_eq in E. rewrite float_eq in E. lra.
Qed.

(** C4, as the code has it. For every image on which the extractor does
    not raise, the final [dental_like] flag of the planar analyzer is set
    exactly when aspectRatio > 1.6 and the bottom-third over top-third ratio
    of the edge map exceeds 1.35 or that of the brightness exceeds 1.12
    (bands cut at 33% and 66% of the height of the equalized image, a NaN
    ratio exceeding nothing), or else when the vision assistant reports
    [is_dental], or reports non-chest-xray or document with a confidence
    above 0.75. *)
Theorem gate_fires_on_thirds_or_hint :
  forall (img : Cnn.image) (f : Cnn.features) (hint : option vision_hint),
    Cnn.extract img = inr f ->
    exists gray_eq,
      Cnn.get_feature_maps img = inr gray_eq /\
      (dental_like f hint = true <->
       (16 # 10 <
          inject_Z (Z.of_nat (Np.width (Cnn._to_gray img)))
          / inject_Z (Z.of_nat (Np.height (Cnn._to_gray img))) /\
        ((exists r, Cnn.bot_top_ratio_thirds (Cnn.edge_map gray_eq) = Some r /\
                    135 # 100 < r) \/
         (exists r, Cnn.bot_top_ratio_thirds (Np.to_float gray_eq) = Some r /\
                    112 # 100 < r))) \/
       (exists gv, hint = Some gv /\
          (gv_is_dental gv = true \/
           ((gv_modality gv = "non-chest-xray" \/ gv_modality gv = "document") /\
            75 # 100 < gv_confidence gv)))).
Proof.
  intros img f hint Hf.
  destruct (extract_gate_fields img f Hf) as (gray_eq & Hg & Ha & He & Hb).
  exists gray_eq. split; [exact Hg|].
  rewrite dental_like_eq. unfold Cnn.dental_heuristic.
  rewrite <- He, <- Hb, <- Ha.
  destruct hint as [gv|].
  - rewrite orb_true_iff, andb_true_iff, orb_true_iff, gt_true, !gt_nan_true,
      gemini_forces_dental_iff.
    split.
    + intros [H | H]; [right; eauto | left; exact H].
    + intros [H | (gv' & [= <-] & H)]; [right; exact H | left; exact H].
  - rewrite andb_true_iff, orb_true_iff, gt_true, !gt_nan_true.
    split; [intros H; left; exact H|].
    intros [H | (gv' & [=] & _)]. exact H.
Qed.

Lemma extract_ramp : Cnn.extract ramp = inr ramp_features.
Proof. vm_compute. reflexivity. Qed.

Lemma gate_fires_on_thirds_or_hint_witness :
  Cnn.extract ramp = inr ramp_features /\
  exists gray_eq,
    Cnn.get_feature_maps ramp = inr gray_eq /\
    (dental_like ramp_features (Some dental_hint) = true <->
     (16 # 10 <
        inject_Z (Z.of_nat (Np.width (Cnn._to_gray ramp)))
        / inject_Z (Z.of_nat (Np.height (Cnn._to_gray ramp))) /\
      ((exists r, Cnn.bot_top_ratio_thirds (Cnn.edge_map gray_eq) = Some r /\
                  135 # 100 < r) \/
       (exists r, Cnn.bot_top_ratio_thirds (Np.to_float gray_eq) = Some r /\
                  112 # 100 < r))) \/
     (exists gv, Some dental_hint = Some gv /\
        (gv_is_dental gv = true \/
         ((gv_modality gv = "non-chest-xray" \/ gv_modality gv = "document") /\
          75 # 100 < gv_confidence gv)))).
Proof.
  split; [exact extract_ramp|].
  exact (gate_fires_on_thirds_or_hint ramp ramp_features (Some dental_hint) extract_ramp).
Defined.

(** C4 as stated fails in both directions. On the band image, whose aspect
    ratio is 18/11, the two-band edge ratio is about 2 and the gate as
    specified fires, but the analyzer compares thirds (ratio 1) and its
    gate stays off, while the two-band gate of the upload route fires. On
    the square checkerboard the gate as specified is off, but the assistant
    reports [is_dental] and the analyzer's gate fires. *)
Lemma gate_counterexample :
  Cnn.extract ramp = inr ramp_features /\
  dental_like_as_specified ramp = true /\
  dental_like ramp_features None = false /\
  App.dental_like (Cnn._to_gray ramp) = true /\
  Cnn.extract checkerboard = inr checkerboard_features /\
  dental_like_as_specified checkerboard = false /\
  dental_like checkerboard_features (Some dental_hint) = true.
Proof.
  split; [exact extract_ramp|]. split; [vm_compute; reflexivity|].
  split; [vm_compute; reflexivity|]. split; [vm_compute; reflexivity|].
  split; [exact extract_checkerboard|].
  split; vm_compute; reflexivity.
Qed.


(** ** Uniform arrays *)

Lemma gmap_uniform {A B} (f : A -> B) h w (c : A) :
  Np.gmap f (Np.uniform h w c) = Np.uniform h w (f c).
Proof.
  apply grid_of_eq_uniform. eapply grid_of_gmap; [|apply (grid_of_uniform (eq c)); reflexivity].
  now intros x <-.
Qed.

Lemma gmap2_uniform {A B C} (f : A -> B -> C) h w (a : A) (b : B) :
  Np.gmap2 f (Np.uniform h w a) (Np.uniform h w b) = Np.uniform h w (f a b).
Proof.
  apply grid_of_eq_uniform.
  apply (grid_of_gmap2 f (eq a) (eq b)); [|now apply grid_of_uniform..].
  now intros x y <- <-.
Qed.

Lemma rows_uniform {A} a b h w (c : A) :
  (b <= h)%nat -> Np.rows a b (Np.uniform h w c) = Np.uniform (b - a) w c.
Proof.
  intros H. apply grid_of_eq_uniform. eapply grid_of_rows; [|exact H].
  now apply grid_of_uniform.
Qed.

Lemma cols_uniform {A} a b h w (c : A) :
  (b <= w)%nat -> Np.cols a b (Np.uniform h w c) = Np.uniform h (b - a) c.
Proof.
  intros H. apply grid_of_eq_uniform. eapply grid_of_cols; [|exact H].
  now apply grid_of_uniform.
Qed.

Lemma window_uniform {A} a b c d h w (x : A) :
  (b <= h)%nat -> (d <= w)%nat ->
  Np.window a b c d (Np.uniform h w x) = Np.uniform (b - a) (d - c) x.
Proof.
  intros Hb Hd. unfold Np.window. rewrite rows_uniform by assumption.
  now apply cols_uniform.
Qed.

Lemma height_uniform {A} h w (c : A) : Np.height (Np.uniform h w c) = h.
Proof. apply repeat_length. Qed.

Lemma width_uniform {A} h w (c : A) : (0 < h)%nat -> Np.width (Np.uniform h w c) = w.
Proof.
  intros H. apply (width_grid_of (eq c) h); [|assumption].
  now apply grid_of_uniform.
Qed.

Lemma concat_uniform {A} h w (c : A) :
  concat (Np.uniform h w c) = repeat c (h * w).
Proof.
  unfold Np.uniform. induction h as [|h IH]; simpl; [reflexivity|].
  now rewrite IH, repeat_app.
Qed.

Lemma pad_edge_uniform {A} h w t b l r (c : A) :
  (0 < h)%nat -> (0 < w)%nat ->
  Np.pad_edge t b l r (Np.uniform h w c) = inr (Np.uniform (t + h + b) (l + w + r) c).
Proof.
  intros Hh Hw.
  destruct (pad_edge_ok (eq c) h w t b l r (Np.uniform h w c)) as (g & -> & Hg);
    [now apply grid_of_uniform|assumption..|].
  f_equal. now apply grid_of_eq_uniform.
Qed.

Lemma pad_reflect_uniform {A} h w py px (c : A) :
  (0 < h)%nat -> (0 < w)%nat ->
  Np.pad_reflect py px (Np.uniform h w c) = inr (Np.uniform (h + 2 * py) (w + 2 * px) c).
Proof.
  intros Hh Hw.
  destruct (pad_reflect_ok (eq c) h w py px (Np.uniform h w c)) as (g & -> & Hg);
    [now apply grid_of_uniform|assumption..|].
  f_equal. now apply grid_of_eq_uniform.
Qed.

Lemma diff_repeat (q : Q) n : Np.diff (repeat q n) = repeat (q - q) (n - 1).
Proof.
  unfold Np.diff. destruct n as [|n]; [reflexivity|]. simpl. rewrite Nat.sub_0_r.
  induction n as [|n IH]; simpl; [reflexivity|]. now rewrite <- IH.
Qed.

Lemma diff_axis1_uniform h w (q : Q) :
  Np.diff_axis1 (Np.uniform h w q) = Np.uniform h (w - 1) (q - q).
Proof.
  unfold Np.diff_axis1, Np.uniform. now rewrite map_repeat, diff_repeat.
Qed.

Lemma zip_with_repeat {A B C} (f : A -> B -> C) (a : A) (b : B) n :
  Np.zip_with f (repeat a (S n)) (tl (repeat b (S n))) = repeat (f a b) n.
Proof.
  simpl. induction n as [|n IH]; simpl; [reflexivity|]. now rewrite <- IH.
Qed.

Lemma diff_axis0_uniform h w (q : Q) :
  Np.diff_axis0 (Np.uniform h w q) = Np.uniform (h - 1) w (q - q).
Proof.
  unfold Np.diff_axis0, Np.uniform. destruct h as [|h]; [reflexivity|].
  rewrite zip_with_repeat. simpl. rewrite Nat.sub_0_r. f_equal.
  induction w as [|w IH]; simpl; [reflexivity|]. now f_equal.
Qed.

(** *** Statistics of a constant array *)

Lemma sum_repeat (q : Q) n : Np.sum (repeat q n) == inject_Z (Z.of_nat n) * q.
Proof.
  induction n as [|n IH].
  - simpl. ring.
  - change (q + Np.sum (repeat q n) == inject_Z (Z.of_nat (S n)) * q).
    rewrite IH, Nat2Z.inj_succ. unfold Z.succ. rewrite inject_Z_plus. ring.
Qed.

Lemma mean_repeat (q : Q) n : (0 < n)%nat -> Np.mean (repeat q n) == q.
Proof.
  intros H. unfold Np.mean. rewrite sum_repeat, repeat_length. field.
  change 0 with (inject_Z 0). rewrite inject_Z_injective. lia.
Qed.

Lemma var_repeat (q : Q) n : (0 < n)%nat -> Np.var (repeat q n) == 0.
Proof.
  intros H. unfold Np.var. rewrite map_repeat. rewrite mean_repeat by assumption.
  rewrite (mean_repeat q n H). ring.
Qed.

Lemma float_complete x y : x == y -> Py.float x = Py.float y.
Proof. apply Qred_complete. Qed.

Lemma sqrt_complete x y : x == y -> Np.sqrt x = Np.sqrt y.
Proof. intros H. unfold Np.sqrt. now rewrite H. Qed.

Lemma gmean_uniform h w (q : Q) :
  (0 < h * w)%nat -> Py.float (Np.gmean (Np.uniform h w q)) = Py.float q.
Proof.
  intros H. apply float_complete. unfold Np.gmean. rewrite concat_uniform.
  now apply mean_repeat.
Qed.

Lemma gmean_nan_uniform h w (q : Q) :
  (0 < h * w)%nat ->
  exists m, Np.gmean_nan (Np.uniform h w q) = Some m /\ m == q.
Proof.
  intros H. unfold Np.gmean_nan. rewrite concat_uniform.
  exists (Np.mean (repeat q (h * w))). split; [|now apply mean_repeat].
  destruct (h * w)%nat; [lia|reflexivity].
Qed.

Lemma gvar_uniform h w (q : Q) :
  (0 < h * w)%nat -> Py.float (Np.gvar (Np.uniform h w q)) = 0.
Proof.
  intros H. change 0 with (Py.float 0). apply float_complete.
  unfold Np.gvar. rewrite concat_uniform. now apply var_repeat.
Qed.

Lemma gstd_uniform h w (q : Q) :
  (0 < h * w)%nat -> Np.gstd (Np.uniform h w q) = Np.sqrt 0.
Proof.
  intros H. unfold Np.gstd, Np.std. apply sqrt_complete.
  rewrite concat_uniform. now apply var_repeat.
Qed.

Lemma insert_repeat (q : Q) n : Np.insert q (repeat q n) = q :: repeat q n.
Proof.
  destruct n as [|n]; simpl; [reflexivity|].
  assert (Qle_bool q q = true) as -> by (apply Qle_bool_iff, Qle_refl). reflexivity.
Qed.

Lemma sort_repeat (q : Q) n : Np.sort (repeat q n) = repeat q n.
Proof.
  unfold Np.sort. induction n as [|n IH]; simpl; [reflexivity|].
  now rewrite IH, insert_repeat.
Qed.

Lemma median_repeat_odd (q : Q) n :
  Nat.even n = false -> Np.median (repeat q n) = q.
Proof.
  intros H. unfold Np.median. rewrite sort_repeat, repeat_length, H.
  apply nth_repeat_lt. destruct n as [|n]; [discriminate|].
  apply Nat.div_lt; lia.
Qed.

Lemma quantile_repeat (v q : Q) n :
  (0 < n)%nat -> 0 <= q <= 1 ->
  exists x, Np.quantile (repeat v n) q = inr x /\ x == v.
Proof.
  intros Hn Hq. unfold Np.quantile. destruct n as [|n]; [lia|].
  cbn [repeat]. change (v :: repeat v n) with (repeat v (S n)).
  rewrite sort_repeat, repeat_length.
  eexists. split; [reflexivity|].
  set (pos := q * inject_Z (Z.of_nat (S n - 1))).
  assert (Hpos : 0 <= pos <= inject_Z (Z.of_nat (S n - 1))).
  { subst pos. assert (0 <= inject_Z (Z.of_nat (S n - 1))).
    { change 0 with (inject_Z 0). rewrite <- Zle_Qle. lia. }
    revert H. generalize (inject_Z (Z.of_nat (S n - 1))). intros z Hz. split; nra. }
  assert (Hlo : (Py.int pos < S n)%nat).
  { unfold Py.int. assert (Qfloor pos <= Z.of_nat (S n - 1))%Z.
    { rewrite <- (Qfloor_Z (Z.of_nat (S n - 1))). apply Qfloor_resp_le. tauto. }
    lia. }
  rewrite !nth_repeat_lt by lia. ring.
Qed.


(** *** The extractor on a uniform image *)

Lemma median_uniform h w k (q : Q) :
  (0 < h)%nat -> (0 < w)%nat ->
  Cnn._median (Np.uniform h w q) k =
  inr (Np.uniform h w (Np.astype_uint8 (Np.median (repeat q (k * k))))).
Proof.
  intros Hh Hw.
  destruct (median_ok (eq q) h w k (Np.uniform h w q)) as (m & -> & Hm);
    [now apply grid_of_uniform|assumption..|].
  f_equal. apply grid_of_eq_uniform. eapply grid_of_impl; [|exact Hm].
  intros z (l & Hl & Hq & ->). cbv beta. do 2 f_equal.
  rewrite (Forall_eq_repeat q l Hq). now rewrite Hl.
Qed.

Lemma histogram_uniform h w (c : N) :
  Pil.histogram (Np.uniform h w c) =
  map (fun i => if N.eq_dec (N.of_nat i) c then N.of_nat (h * w) else 0%N) (seq 0 256).
Proof.
  unfold Pil.histogram. apply map_ext. intros i. rewrite concat_uniform.
  destruct (N.eq_dec (N.of_nat i) c) as [E|E].
  - now rewrite count_occ_repeat_eq.
  - now rewrite count_occ_repeat_neq.
Qed.

Lemma equalize_uniform_128 :
  Cnn._equalize (Np.uniform 224 224 128%N) = Np.uniform 224 224 128%N.
Proof.
  unfold Cnn._equalize, Pil.equalize, Pil.point.
  rewrite histogram_uniform, gmap_uniform. apply f_equal.
  vm_compute. reflexivity.
Qed.

Lemma variance_of_laplacian_uniform h w (c : N) :
  (0 < h)%nat -> (0 < w)%nat ->
  Cnn._variance_of_laplacian (Np.uniform h w c) = inr 0.
Proof.
  intros Hh Hw. unfold Cnn._variance_of_laplacian, Np.to_float.
  rewrite gmap_uniform. rewrite !pad_edge_uniform by assumption. cbn [bind].
  rewrite !height_uniform, !width_uniform by lia.
  rewrite gmap_uniform, !cols_uniform, !rows_uniform by lia.
  replace (0 + w + 1 - 1)%nat with w by lia.
  replace (1 + w + 0 - 1 - 0)%nat with w by lia.
  replace (1 + h + 0 - 1 - 0)%nat with h by lia.
  replace (0 + h + 1 - 1)%nat with h by lia.
  rewrite ?Nat.add_0_r. cbn [Nat.add].
  rewrite !gmap2_uniform. unfold ret. f_equal. apply gvar_uniform. nia.
Qed.

Lemma calculate_edge_score_uniform h w (c : N) :
  (1 < h)%nat -> (1 < w)%nat ->
  Cnn._calculate_edge_score (Np.uniform h w c) = Some 0.
Proof.
  intros Hh Hw. unfold Cnn._calculate_edge_score, Np.to_float.
  rewrite gmap_uniform, diff_axis1_uniform, diff_axis0_uniform, !gmap_uniform.
  destruct (gmean_nan_uniform h (w - 1) (Qabs (Np.of_uint8 c - Np.of_uint8 c)))
    as (mx & -> & Hx); [nia|].
  destruct (gmean_nan_uniform (h - 1) w (Qabs (Np.of_uint8 c - Np.of_uint8 c)))
    as (my & -> & Hy); [nia|].
  f_equal. change 0 with (Py.float 0). apply float_complete.
  rewrite Hx, Hy. setoid_replace (Np.of_uint8 c - Np.of_uint8 c) with 0 by ring.
  reflexivity.
Qed.

Lemma estimate_noise_uniform_128 :
  Cnn._estimate_noise (Np.uniform 224 224 128%N) = inr 0.
Proof.
  unfold Cnn._estimate_noise, Np.to_float. rewrite gmap_uniform.
  rewrite median_uniform by lia. cbn [bind].
  rewrite gmap_uniform, gmap2_uniform, gstd_uniform by lia.
  vm_compute. reflexivity.
Qed.

Lemma convolve_uniform h w (kernel : Np.grid Q) (q : Q) :
  (0 < h)%nat -> (0 < w)%nat ->
  Cnn._convolve (Np.uniform h w q) kernel = inr (Np.uniform h w (conv_value kernel q)).
Proof.
  intros Hh Hw. unfold Cnn._convolve, conv_value.
  rewrite height_uniform, width_uniform by assumption.
  rewrite pad_reflect_uniform by assumption. cbn [bind]. unfold ret. f_equal.
  set (offsets := flat_map _ _).
  assert (Hoff : Forall (fun yx => fst yx < Np.height kernel /\ snd yx < Np.width kernel)%nat
                        offsets).
  { subst offsets. apply Forall_flat_map. intros y Hy. apply in_seq in Hy.
    apply Forall_map, Forall_forall. intros x Hx. apply in_seq in Hx. simpl. lia. }
  generalize 0 at 2 4. induction Hoff as [|[y x] offs [Hy Hx] _ IH]; intros a.
  - reflexivity.
  - cbn [fold_left fst snd] in *.
    pose proof (Nat.div_mod_eq (Np.height kernel) 2).
    pose proof (Nat.mod_upper_bound (Np.height kernel) 2).
    pose proof (Nat.div_mod_eq (Np.width kernel) 2).
    pose proof (Nat.mod_upper_bound (Np.width kernel) 2).
    rewrite window_uniform by lia.
    replace (y + h - y)%nat with h by lia. replace (x + w - x)%nat with w by lia.
    rewrite gmap_uniform, gmap2_uniform. apply IH.
Qed.

Lemma local_variance_uniform h w k (c : N) :
  (0 < h)%nat -> (0 < w)%nat ->
  Cnn._local_variance (Np.uniform h w c) k =
  inr (Np.uniform h w
         (Qmax 0
            (conv_value (Np.uniform k k 1) (Np.of_uint8 c * Np.of_uint8 c)
               / inject_Z (Z.of_nat (k * k))
             - conv_value (Np.uniform k k 1) (Np.of_uint8 c) / inject_Z (Z.of_nat (k * k))
               * (conv_value (Np.uniform k k 1) (Np.of_uint8 c)
                  / inject_Z (Z.of_nat (k * k)))))).
Proof.
  intros Hh Hw. unfold Cnn._local_variance, Np.to_float.
  rewrite gmap_uniform, pad_reflect_uniform by assumption. cbn [bind].
  rewrite gmap2_uniform, !convolve_uniform by assumption. cbn [bind].
  now rewrite !gmap_uniform, gmap2_uniform.
Qed.

Lemma gmean_nan_uniform_eq h w (q : Q) :
  (0 < h * w)%nat ->
  Np.gmean_nan (Np.uniform h w q) = Some (Np.mean (repeat q (h * w))).
Proof.
  intros H. unfold Np.gmean_nan. rewrite concat_uniform.
  destruct (h * w)%nat; [lia|reflexivity].
Qed.

Lemma float_mean_repeat (q : Q) n :
  (0 < n)%nat -> Py.float (Np.mean (repeat q n)) = Py.float q.
Proof. intros H. now apply float_complete, mean_repeat. Qed.

Lemma bot_top_ratio_thirds_uniform h w (q : Q) :
  (5 <= h)%nat -> (0 < w)%nat ->
  Cnn.bot_top_ratio_thirds (Np.uniform h w q) =
  Some ((Py.float q + eps) / (Py.float q + eps)).
Proof.
  intros Hh Hw. unfold Cnn.bot_top_ratio_thirds. rewrite height_uniform.
  set (t1 := Py.int (inject_Z (Z.of_nat h) * (33 # 100))).
  set (t2 := Py.int (inject_Z (Z.of_nat h) * (66 # 100))).
  assert (H1 : (1 <= t1 <= h)%nat).
  { subst t1. unfold Py.int.
    assert (1 <= Qfloor (inject_Z (Z.of_nat h) * (33 # 100)) <= Z.of_nat h)%Z; [|lia].
    split.
    - rewrite <- (Qfloor_Z 1). apply Qfloor_resp_le.
      assert (5 <= inject_Z (Z.of_nat h)).
      { change 5 with (inject_Z 5). rewrite <- Zle_Qle. lia. }
      change (inject_Z 1) with 1.
      revert H. generalize (inject_Z (Z.of_nat h)). intros; lra.
    - rewrite <- (Qfloor_Z (Z.of_nat h)) at 2. apply Qfloor_resp_le.
      assert (0 <= inject_Z (Z.of_nat h)).
      { change 0 with (inject_Z 0). rewrite <- Zle_Qle. lia. }
      revert H. generalize (inject_Z (Z.of_nat h)). intros; lra. }
  assert (H2 : (t2 < h)%nat).
  { subst t2. unfold Py.int.
    assert (0 <= Qfloor (inject_Z (Z.of_nat h) * (66 # 100)) < Z.of_nat h)%Z; [|lia].
    assert (0 < inject_Z (Z.of_nat h)).
    { change 0 with (inject_Z 0). rewrite <- Zlt_Qlt. lia. }
    split.
    - rewrite <- (Qfloor_Z 0). apply Qfloor_resp_le. change (inject_Z 0) with 0.
      revert H. generalize (inject_Z (Z.of_nat h)). intros; lra.
    - rewrite Zlt_Qlt.
      pose proof (Qfloor_le (inject_Z (Z.of_nat h) * (66 # 100))) as Hfl.
      revert H Hfl.
      generalize (inject_Z (Qfloor (inject_Z (Z.of_nat h) * (66 # 100)))).
      generalize (inject_Z (Z.of_nat h)). intros; lra. }
  rewrite !rows_uniform by lia. rewrite !gmean_nan_uniform_eq by nia.
  now rewrite !float_mean_repeat by nia.
Qed.

Lemma edge_map_uniform h w (c : N) :
  (0 < h)%nat -> (0 < w)%nat ->
  Cnn.edge_map (Np.uniform h w c) =
  Np.uniform (h - 1) (w - 1)
    (Qabs (Np.of_uint8 c - Np.of_uint8 c) + Qabs (Np.of_uint8 c - Np.of_uint8 c)).
Proof.
  intros Hh Hw. unfold Cnn.edge_map, Np.to_float.
  rewrite gmap_uniform, diff_axis1_uniform, diff_axis0_uniform, !gmap_uniform.
  rewrite height_uniform. destruct (Nat.eq_dec h 1) as [->|Hne].
  - reflexivity.
  - rewrite width_uniform by lia. rewrite rows_uniform, cols_uniform by lia.
    rewrite !Nat.sub_0_r. apply gmap2_uniform.
Qed.

Lemma quantile_uniform h w (v q : Q) :
  (0 < h * w)%nat -> 0 <= q <= 1 ->
  exists x, Np.quantile (concat (Np.uniform h w v)) q = inr x /\
            Py.float x = Py.float v.
Proof.
  intros H Hq. rewrite concat_uniform.
  destruct (quantile_repeat v q (h * w) H Hq) as (x & -> & Hx).
  exists x. split; [reflexivity|now apply float_complete].
Qed.

Lemma bind_inr_l {A B} (x : A) (k : A -> exc B) : bind (inr x) k = k x.
Proof. reflexivity. Qed.

Lemma extract_uniform_image : Cnn.extract uniform_image = inr uniform_features.
Proof.
  unfold Cnn.extract, uniform_image, Cnn._to_gray, Np.to_float.
  rewrite gmap_uniform, median_uniform by lia. rewrite bind_inr_l. cbv beta.
  replace (Np.astype_uint8 (Np.median (repeat (Np.of_uint8 128) (3 * 3)))) with 128%N
    by (vm_compute; reflexivity).
  rewrite equalize_uniform_128.
  rewrite variance_of_laplacian_uniform by lia. rewrite bind_inr_l. cbv beta.
  rewrite calculate_edge_score_uniform by lia.
  rewrite estimate_noise_uniform_128. rewrite bind_inr_l. cbv beta.
  rewrite local_variance_uniform by lia. rewrite bind_inr_l. cbv beta.
  set (v := Qmax 0 _).
  destruct (quantile_uniform 224 224 v (95 # 100)) as (x & -> & Hx); [lia|lra|].
  rewrite bind_inr_l. cbv beta. rewrite Hx. clear x Hx.
  rewrite !gmap_uniform, !gmean_uniform, gstd_uniform by lia.
  rewrite edge_map_uniform by lia.
  rewrite !bot_top_ratio_thirds_uniform by lia.
  rewrite height_uniform, width_uniform by lia.
  subst v. vm_compute. reflexivity.
Qed.

(** ** C3: the uniform image *)

Lemma before_bias_confidence f hint pmap :
  Cnn.confidence (Cnn.before_bias f hint pmap) =
  let c0 := Py.float (Cnn.at_ (blend_vec f pmap) (Cnn.argmax (blend_vec f pmap))) in
  let c1 := if dental_like f hint then Qmax c0 (70 # 100) else c0 in
  if hint_says_non_chest hint then Qmax c1 (70 # 100) else c1.
Proof.
  rewrite before_bias_eq. fold (dental_like f hint).
  unfold hint_says_non_chest, Cnn.gemini_blend.
  destruct (Py.nonempty _ && Py.truthy _); cbn [andb].
  - destruct (Cnn.non_chest_hint _) eqn:E.
    + rewrite (non_chest_not_chest _ E). rewrite !fst_tell.
      cbn [fst Cnn.confidence].
      unfold Cnn.dental_override; destruct (dental_like f hint);
        rewrite ?fst_tell, ?init_modality_fst; reflexivity.
    + destruct (String.eqb _ "chest-xray"); [rewrite fst_tell|];
        cbn [fst Cnn.confidence];
        unfold Cnn.dental_override; destruct (dental_like f hint);
        rewrite ?fst_tell, ?init_modality_fst; reflexivity.
  - cbn [fst]. unfold Cnn.dental_override. destruct (dental_like f hint);
      rewrite ?fst_tell, ?init_modality_fst; reflexivity.
Qed.

Lemma bias_applies_uniform_features hint pmap :
  Cnn.bias_applies uniform_features (Cnn.before_bias uniform_features hint pmap) =
  if hint_says_chest hint then true
  else if hint_says_non_chest hint then false
  else negb (dental_like uniform_features hint).
Proof.
  unfold Cnn.bias_applies. rewrite before_bias_modality.
  destruct (hint_says_chest hint), (hint_says_non_chest hint),
           (dental_like uniform_features hint); vm_compute; reflexivity.
Qed.

Lemma classify_uniform_features hint :
  let st := fst (Cnn.classify uniform_features hint None) in
  Cnn.predicted_idx st = 0%nat /\
  70 # 100 <= Py.round (Cnn.confidence st) 2 /\
  exists p rest, map Py.float (Cnn.vec st) = p :: rest /\
                 length rest = 3%nat /\ 7 # 10 < p.
Proof.
  cbv zeta.
  destruct (Cnn.bias_applies uniform_features
              (Cnn.before_bias uniform_features hint None)) eqn:Hb.
  - rewrite (classify_bias_applied _ _ _ Hb).
    cbn [Cnn.vec Cnn.predicted_idx Cnn.confidence].
    rewrite before_bias_vec.
    destruct (hint_says_non_chest hint), (dental_like uniform_features hint);
      (split; [vm_compute; reflexivity|]);
      (split; [vm_compute; discriminate|]);
      do 2 eexists; (split; [vm_compute; reflexivity|]);
      (split; [reflexivity|]); vm_compute; reflexivity.
  - rewrite (classify_unbiased _ _ _ Hb).
    cbn [Cnn.clamp_confidence Cnn.vec Cnn.predicted_idx Cnn.confidence].
    rewrite before_bias_vec, before_bias_predicted, before_bias_confidence.
    rewrite bias_applies_uniform_features in Hb.
    destruct (hint_says_chest hint); [discriminate|].
    destruct (hint_says_non_chest hint), (dental_like uniform_features hint);
      try discriminate;
      (split; [vm_compute; reflexivity|]);
      (split; [vm_compute; discriminate|]);
      do 2 eexists; (split; [vm_compute; reflexivity|]);
      (split; [reflexivity|]); vm_compute; reflexivity.
Qed.

Lemma argmax_from_stays best ibest i l :
  Forall (fun x => x <= best) l -> Cnn.argmax_from best ibest i l = ibest.
Proof.
  intros H. revert i. induction H as [|x l Hx _ IH]; intros i; [reflexivity|].
  cbn [Cnn.argmax_from]. apply gt_false in Hx. rewrite Hx. apply IH.
Qed.

(** On the features of the uniform image the bias correction of a blended
    vector leaves Normal in front, whatever the pretrained map says: Normal
    is raised to 0.70 at least, Pneumonia is at most 0.7 + 0.3 * 0.157 - 0.2
    and Tumor and Fracture at most 0.95 * (0.7 + 0.3e-6). *)
Lemma uniform_blend_keeps_normal_first pm :
  Cnn.argmax (Cnn.normalize (Cnn.bias_vector (blend_vec uniform_features (Some pm)))) = 0%nat.
Proof.
  cbn [blend_vec].
  assert (HH : exists h0 h1 h2 h3,
             heur_vec uniform_features = [h0; h1; h2; h3] /\
             h0 + (h1 + (h2 + (h3 + 0))) == 1 /\
             0 <= h0 /\ 0 <= h1 <= 16 # 100 /\ 0 <= h2 <= 1 # 100 /\ 0 <= h3 <= 1 # 100).
  { do 4 eexists. split; [vm_compute; reflexivity|].
    repeat split; vm_compute; discriminate. }
  destruct HH as (h0 & h1 & h2 & h3 & -> & Hhs & Hh0 & Hh1 & Hh2 & Hh3).
  pose proof (pre_vec_distribution pm) as Hp.
  pose proof (distribution_le_1 0 _ ltac:(lra) Hp) as Hp1.
  destruct Hp as (Hpl & Hps & _).
  four_entries (pre_vec pm) Hp1. cbn [Np.sum fold_right] in Hps.
  unfold Cnn.normalize at 2. cbn [Np.zip_with Np.sum fold_right map].
  set (S1 := _ + (_ + (_ + (_ + 0)))).
  assert (HS1 : S1 == 1) by (subst S1; lra).
  unfold Cnn.bias_vector, Cnn.at_. cbn [nth].
  set (z0 := (7 # 10) * a + (3 # 10) * h0) in *.
  set (z1 := (7 # 10) * b + (3 # 10) * h1) in *.
  set (z2 := (7 # 10) * c + (3 # 10) * h2) in *.
  set (z3 := (7 # 10) * d + (3 # 10) * h3) in *.
  assert (E0 : Py.float (z0 / S1) == z0) by (rewrite float_eq, HS1; field).
  assert (E1 : Py.float (z1 / S1) == z1) by (rewrite float_eq, HS1; field).
  assert (E2 : Py.float (z2 / S1) == z2) by (rewrite float_eq, HS1; field).
  assert (E3 : Py.float (z3 / S1) == z3) by (rewrite float_eq, HS1; field).
  set (n := Qmax (70 # 100) (Py.float (z0 / S1) + (25 # 100))).
  set (p := Qmax (2 # 100) (Py.float (z1 / S1) - (20 # 100))).
  set (t := Py.float (z2 / S1) * (95 # 100)).
  set (r := Py.float (z3 / S1) * (95 # 100)).
  assert (Hn : 70 # 100 <= n) by apply Q.le_max_l.
  assert (Hp : 2 # 100 <= p <= n).
  { split; [apply Q.le_max_l|]. apply Q.max_lub; [lra|]. rewrite E1. subst z1. lra. }
  assert (Ht : 0 <= t <= n) by (subst t; rewrite E2; subst z2; split; lra).
  assert (Hr : 0 <= r <= n) by (subst r; rewrite E3; subst z3; split; lra).
  unfold Cnn.normalize. cbn [Np.sum fold_right map Cnn.argmax].
  set (S2 := n + (p + (t + (r + 0)))).
  assert (HS2 : 0 < S2) by (subst S2; lra).
  apply argmax_from_stays.
  assert (Hdiv : forall x, x <= n -> x / S2 <= n / S2).
  { intros x Hx. unfold Qdiv. apply Qmult_le_compat_r; [exact Hx|].
    apply Qlt_le_weak, Qinv_lt_0_compat, HS2. }
  repeat constructor; apply Hdiv; tauto.
Qed.

Lemma analyze_uniform_image hint pmap :
  Cnn.analyze_image uniform_image hint pmap =
  Cnn.report uniform_features (gem_of_hint hint)
    (fst (Cnn.classify uniform_features hint pmap)).
Proof.
  destruct (analyze_image_cases uniform_image hint pmap)
    as [(f & Hf & Hr & _) | (e & He & _)];
    rewrite extract_uniform_image in *; [|discriminate].
  apply ret_inr in Hf. now subst f.
Qed.

Lemma classify_uniform_prediction hint pmap :
  Cnn.predicted_idx (fst (Cnn.classify uniform_features hint pmap)) = 0%nat.
Proof.
  destruct (Cnn.bias_applies uniform_features
              (Cnn.before_bias uniform_features hint pmap)) eqn:Hb.
  - rewrite (classify_bias_applied _ _ _ Hb). cbn [Cnn.predicted_idx].
    rewrite before_bias_vec.
    destruct (hint_says_non_chest hint); [vm_compute; reflexivity|].
    destruct (dental_like uniform_features hint); [vm_compute; reflexivity|].
    destruct pmap as [pm|]; [apply uniform_blend_keeps_normal_first|].
    vm_compute. reflexivity.
  - rewrite (classify_unbiased _ _ _ Hb). cbn [Cnn.clamp_confidence Cnn.predicted_idx].
    rewrite before_bias_predicted. rewrite bias_applies_uniform_features in Hb.
    destruct (hint_says_chest hint); [discriminate|].
    destruct (hint_says_non_chest hint); [reflexivity|].
    destruct (dental_like uniform_features hint); [reflexivity|discriminate].
Qed.

(** C3, as the code has it. On the 224 x 224 image whose pixels are all
    128 the extraction succeeds with contrast, sharpness, edge score and
    opacity score equal to zero, and the analyzer returns class index 0
    (Normal), whatever the vision assistant and the pretrained network
    answer. When no pretrained map enters the blend (the network is off
    unless the environment enables it), the confidence is at least 0.70 and
    the Normal probability above 0.7, for every answer of the assistant;
    without a hint the bias correction is the step that sets them, and the
    label is Normal with confidence 0.93. *)
Theorem uniform_image_is_classified_normal :
  exists f : Cnn.features,
    Cnn.extract uniform_image = inr f /\
    Cnn.contrast f == 0 /\ Cnn.sharpness f == 0 /\
    Cnn.edge_score f = Some 0 /\ Cnn.opacity_score f == 0 /\
    (forall (hint : option vision_hint) (pmap : option pretrained_map),
       let r := Cnn.analyze_image uniform_image hint pmap in
       Cnn.get_prediction r = 0%nat /\
       nth (Cnn.get_prediction r) Cnn.class_names "" = "Normal" /\
       Cnn.get_error r = None) /\
    (forall hint : option vision_hint,
       let r := Cnn.analyze_image uniform_image hint None in
       70 # 100 <= Cnn.get_confidence r /\
       exists p rest,
         Cnn.get_probabilities r = Some (("Normal", p) :: rest) /\ 7 # 10 < p) /\
    Cnn.bias_applies f (Cnn.before_bias f None None) = true /\
    Cnn.get_class_name (Cnn.analyze_image uniform_image None None) = "Normal" /\
    Cnn.get_confidence (Cnn.analyze_image uniform_image None None) = 93 # 100.
Proof.
  exists uniform_features.
  split; [exact extract_uniform_image|].
  split; [reflexivity|]. split; [reflexivity|]. split; [reflexivity|].
  split; [reflexivity|]. split; [|split].
  - intros hint pmap r. subst r. rewrite analyze_uniform_image.
    unfold Cnn.report, Cnn.get_prediction, Cnn.get_error.
    rewrite classify_uniform_prediction. repeat split.
  - intros hint r. subst r. rewrite analyze_uniform_image.
    destruct (classify_uniform_features hint) as (Hp & Hc & p & rest & Hv & Hl & Hn).
    unfold Cnn.report, Cnn.get_confidence, Cnn.get_probabilities.
    rewrite Hv. split; [exact Hc|]. exists p. eexists. split; [reflexivity | exact Hn].
  - rewrite analyze_uniform_image. split; [|split]; vm_compute; reflexivity.
Qed.

(** C3 as stated fails once the pretrained network takes part: when its
    outputs are 0.9 for Pneumonia and 0.1 for Mass, its class map votes
    Pneumonia with 0.9 (Normal 0.1, Tumor 0.1, Fracture 0), and the uniform
    image is still classified Normal, but with confidence 0.59 and a Normal
    probability of about 0.593, below the 0.70 and 0.7 of the claim. *)
Lemma pretrained_vote_lowers_confidence_counterexample :
  let r := Cnn.analyze_image uniform_image None (Some pneumonia_vote) in
  Pretrained.infer true "xrv-densenet121" ["Pneumonia"; "Mass"] [9 # 10; 1 # 10] =
    Some pneumonia_vote /\
  Cnn.get_prediction r = 0%nat /\
  Cnn.get_confidence r = 59 # 100 /\
  ~ 70 # 100 <= Cnn.get_confidence r /\
  exists p rest,
    Cnn.get_probabilities r = Some (("Normal", p) :: rest) /\ ~ 7 # 10 < p.
Proof.
  cbv zeta. split; [vm_compute; reflexivity|]. rewrite analyze_uniform_image.
  split; [vm_compute; reflexivity|]. split; [vm_compute; reflexivity|].
  split; [vm_compute; intros H; now apply H|].
  do 2 eexists. split; [vm_compute; reflexivity|]. vm_compute. discriminate.
Qed.

(** * Further properties *)

(** ** Order statistics *)

Lemma Forall_insert (P : Q -> Prop) x l :
  P x -> Forall P l -> Forall P (Np.insert x l).
Proof.
  intros Hx. induction 1 as [|y l Hy Hl IH]; simpl; [now repeat constructor|].
  destruct (Qle_bool x y); repeat constructor; assumption.
Qed.

Lemma Forall_sort (P : Q -> Prop) l : Forall P l -> Forall P (Np.sort l).
Proof.
  unfold Np.sort. induction 1 as [|x l Hx _ IH]; simpl; [constructor|].
  now apply Forall_insert.
Qed.

Lemma length_insert x l : length (Np.insert x l) = S (length l).
Proof.
  induction l as [|y l IH]; simpl; [reflexivity|].
  destruct (Qle_bool x y); simpl; now rewrite ?IH.
Qed.

Lemma length_sort l : length (Np.sort l) = length l.
Proof.
  unfold Np.sort. induction l as [|x l IH]; simpl; [reflexivity|].
  now rewrite length_insert, IH.
Qed.



Lemma ascending_skipn k l : ascending l -> ascending (skipn k l).
Proof.
  revert l. induction k as [|k IH]; intros [|x l]; simpl; try tauto.
  intros [_ Hl]. now apply IH.
Qed.




Lemma int_spec (x : Q) :
  0 <= x ->
  inject_Z (Z.of_nat (Py.int x)) <= x /\ x < inject_Z (Z.of_nat (Py.int x)) + 1.
Proof.
  intros Hx. unfold Py.int.
  assert (H0 : (0 <= Qfloor x)%Z).
  { change 0%Z with (Qfloor 0). now apply Qfloor_resp_le. }
  rewrite Z2Nat.id by assumption. split; [apply Qfloor_le|].
  pose proof (Qlt_floor x) as H. rewrite inject_Z_plus in H. exact H.
Qed.

(** The two order statistics that [np.quantile] interpolates, and the weight
    of the upper one. *)
Lemma quantile_eq (l : list Q) (q : Q) :
  l <> [] -> 0 <= q <= 1 ->
  exists (lo hi : nat) (t : Q),
    Np.quantile l q =
      inr (nth lo (Np.sort l) 0 + (nth hi (Np.sort l) 0 - nth lo (Np.sort l) 0) * t) /\
    (lo <= hi < length l)%nat /\ 0 <= t < 1 /\
    inject_Z (Z.of_nat hi) <= q * inject_Z (Z.of_nat (length l - 1)) + 1.
Proof.
  intros Hl [Hq0 Hq1]. destruct l as [|x l]; [congruence|]. clear Hl.
  unfold Np.quantile. rewrite length_sort.
  set (n := length (x :: l)). set (pos := q * inject_Z (Z.of_nat (n - 1))).
  assert (Hn : (0 < n)%nat) by (subst n; simpl; lia).
  assert (Hn1 : 0 <= inject_Z (Z.of_nat (n - 1))).
  { change 0 with (inject_Z 0). rewrite <- Zle_Qle. lia. }
  assert (Hpos : 0 <= pos) by (subst pos; now apply Qmult_le_0_compat).
  assert (Hpos1 : pos <= inject_Z (Z.of_nat (n - 1))).
  { subst pos. revert Hn1. generalize (inject_Z (Z.of_nat (n - 1))). intros; nra. }
  destruct (int_spec pos Hpos) as [Hlo Hhi].
  assert (Hlo_n : (Py.int pos <= n - 1)%nat).
  { apply Nat2Z.inj_le. rewrite Zle_Qle. lra. }
  exists (Py.int pos), (Nat.min (Py.int pos + 1) (n - 1)), (pos - inject_Z (Z.of_nat (Py.int pos))).
  split; [reflexivity|]. split; [lia|]. split; [lra|].
  assert (Hm : (Z.of_nat (Nat.min (Py.int pos + 1) (n - 1)) <= Z.of_nat (Py.int pos) + 1)%Z) by lia.
  rewrite Zle_Qle, inject_Z_plus in Hm. change (inject_Z 1) with 1 in Hm. lra.
Qed.

Lemma nth_Forall (P : Q -> Prop) l i : Forall P l -> (i < length l)%nat -> P (nth i l 0).
Proof. intros H Hi. rewrite Forall_forall in H. apply H, nth_In, Hi. Qed.

Lemma quantile_between (lo hi : Q) (l : list Q) (q : Q) :
  l <> [] -> 0 <= q <= 1 -> Forall (fun x => lo <= x <= hi) l ->
  exists v, Np.quantile l q = inr v /\ lo <= v <= hi.
Proof.
  intros Hl Hq HP.
  destruct (quantile_eq l q Hl Hq) as (i & j & t & -> & Hij & Ht & _).
  eexists. split; [reflexivity|].
  apply Forall_sort in HP.
  pose proof (nth_Forall _ _ i HP) as Hi. pose proof (nth_Forall _ _ j HP) as Hj.
  rewrite length_sort in Hi, Hj. specialize (Hi ltac:(lia)). specialize (Hj ltac:(lia)).
  cbv beta in Hi, Hj. revert Hi Hj.
  generalize (nth i (Np.sort l) 0) (nth j (Np.sort l) 0). intros a b Ha Hb.
  split; nra.
Qed.




(** ** The cues of the CT and MRI analyzers *)








(** ** The 15 x 15 window of [_local_var] *)









(** ** Further properties of the CT and MRI analyzers *)


















(** ** Ranges of the features of the planar analyzer *)










(** ** The predicted class *)








(** ** The findings generator *)


(** ** The reported modality *)






(** ** The pretrained class map and its blend *)















(** ** The upload route *)





(** ** Pairing medicines with dosages and durations *)







(** ** The reported confidence *)







(** ** The processed image *)


